(** * inspect4py (code_inspector): a shallow embedding and its properties

    The development follows [code_inspector.py] (the per-file inspector,
    the call-name resolution and the command-line entry point) and
    [code_inspector/utils.py] (JSON pruning and the software-type
    reduction).  Python strings are [string], Python lists are [list],
    dictionaries are association lists in insertion order, and code that
    may raise returns in the [res] monad below. *)

From Stdlib Require Import String Ascii List ZArith Bool Lia Arith.
Import ListNotations.
Local Open Scope string_scope.
Local Open Scope list_scope.

(** ** Python string primitives *)

Module PyStr.

(** [sub in s] on two Python strings: [sub] occurs as a contiguous
    substring of [s]. *)
Fixpoint str_in (sub s : string) : bool :=
  if prefix sub s then true
  else match s with
       | EmptyString => false
       | String _ s' => str_in sub s'
       end.

(** [s.split(sep)] for a one-character separator: always at least one
    piece, empty pieces are kept. *)
Fixpoint split (sep : ascii) (s : string) : list string :=
  match s with
  | EmptyString => [EmptyString]
  | String c s' =>
      if Ascii.eqb c sep then EmptyString :: split sep s'
      else match split sep s' with
           | [] => [String c EmptyString]
           | piece :: pieces => String c piece :: pieces
           end
  end.

(** [sep.join(pieces)]. *)
Fixpoint join (sep : string) (pieces : list string) : string :=
  match pieces with
  | [] => EmptyString
  | [p] => p
  | p :: rest => p ++ sep ++ join sep rest
  end.

(** [s.startswith(p)]. *)
Definition startswith (s p : string) : bool := prefix p s.

(** [s.endswith(suffix)]. *)
Fixpoint endswith (s suffix : string) : bool :=
  if String.eqb s suffix then true
  else match s with
       | EmptyString => false
       | String _ s' => endswith s' suffix
       end.

(** The text before the first occurrence of [sep] (all of [s] when there
    is none), and the text after it (empty when there is none). *)
Fixpoint before_first (sep : ascii) (s : string) : string :=
  match s with
  | EmptyString => EmptyString
  | String c s' => if Ascii.eqb c sep then EmptyString else String c (before_first sep s')
  end.

Fixpoint after_first (sep : ascii) (s : string) : string :=
  match s with
  | EmptyString => EmptyString
  | String c s' => if Ascii.eqb c sep then s' else after_first sep s'
  end.

(** Truth value of a string: non-empty. *)
Definition nonempty (s : string) : bool :=
  match s with EmptyString => false | _ => true end.

End PyStr.

Definition dot : ascii := "."%char.
Definition slash : ascii := "/"%char.

(** ** Results of code that may raise *)

Inductive exn :=
| AttributeError
| IndexError
| KeyError
| TypeError.

(** [Ok a]: normal completion; [Raise e]: an exception left the code;
    [Unfinished]: the recursion bound of the model was reached. *)
Inductive res (A : Type) :=
| Ok (a : A)
| Raise (e : exn)
| Unfinished.

Arguments Ok {A} a.
Arguments Raise {A} e.
Arguments Unfinished {A}.

Definition bind {A B : Type} (c : res A) (k : A -> res B) : res B :=
  match c with
  | Ok a => k a
  | Raise e => Raise e
  | Unfinished => Unfinished
  end.

Notation "x <- c ;; k" := (bind c (fun x => k))
  (at level 61, c at next level, right associativity).
Notation "' p <- c ;; k" := (bind c (fun x => let 'p := x in k))
  (at level 61, p pattern, c at next level, right associativity).

(** [l[i]] on a list. *)
Definition getitem {A : Type} (l : list A) (i : nat) : res A :=
  match nth_error l i with
  | Some x => Ok x
  | None => Raise IndexError
  end.

(** ** os.path, as the POSIX implementation of the standard library
    computes it (the inspector calls [abspath] and [basename]). *)

Module PosixPath.

Definition isabs (s : string) : bool := PyStr.startswith s "/".

(** [join(a, b)]. *)
Definition join (a b : string) : string :=
  if PyStr.startswith b "/" then b
  else if negb (PyStr.nonempty a) || PyStr.endswith a "/" then a ++ b
  else a ++ "/" ++ b.

(** The loop of [normpath] over the components, [new_comps] growing and
    shrinking at its end. *)
Fixpoint normpath_loop (initial_slashes : nat) (comps new_comps : list string) : list string :=
  match comps with
  | [] => new_comps
  | comp :: rest =>
      if String.eqb comp "" || String.eqb comp "." then
        normpath_loop initial_slashes rest new_comps
      else if negb (String.eqb comp "..")
              || ((initial_slashes =? 0)%nat && match new_comps with [] => true | _ => false end)
              || match new_comps with
                 | [] => false
                 | _ => String.eqb (last new_comps "") ".."
                 end
      then normpath_loop initial_slashes rest (new_comps ++ [comp])
      else match new_comps with
           | [] => normpath_loop initial_slashes rest new_comps
           | _ => normpath_loop initial_slashes rest (removelast new_comps)
           end
  end.

Definition normpath (path : string) : string :=
  if String.eqb path "" then "."
  else
    let initial_slashes :=
      if PyStr.startswith path "/" then
        if PyStr.startswith path "//" && negb (PyStr.startswith path "///") then 2 else 1
      else 0 in
    let comps := normpath_loop initial_slashes (PyStr.split slash path) [] in
    let path := PyStr.join "/" comps in
    let path :=
      match initial_slashes with
      | 0 => path
      | 1 => ("/" ++ path)%string
      | _ => ("//" ++ path)%string
      end in
    if PyStr.nonempty path then path else ".".

(** [abspath(path)], with [cwd] the value of [os.getcwd()]. *)
Definition abspath (cwd path : string) : string :=
  if isabs path then normpath path else normpath (join cwd path).

(** [basename(p)]: what follows the last ["/"]. *)
Definition basename (p : string) : string := last (PyStr.split slash p) "".

End PosixPath.

(** ** utils.py: [extract_software_type] *)

(** A software-invocation record.  Only ["type"] is read by the
    reduction; the other keys ([run], [import], [has_structure], or what
    the setup inspector produced) are kept as they are. *)
Record soft_info := {
  entry_type : string;
  entry_rest : list (string * string)
}.

Definition is_library_or_package (entry : soft_info) : bool :=
  PyStr.str_in "library" (entry_type entry) || PyStr.str_in "package" (entry_type entry).
Definition is_service (entry : soft_info) : bool :=
  PyStr.str_in "service" (entry_type entry).
Definition is_script (entry : soft_info) : bool :=
  PyStr.str_in "script" (entry_type entry).

(** The [for] loop of [extract_software_type], with its two accumulators
    and the early [return]; the tail of the function runs when the list
    is exhausted. *)
Fixpoint extract_software_type_loop (l : list soft_info)
    (services scripts : list soft_info) : string :=
  match l with
  | [] =>
      if (0 <? length services)%nat then "service"
      else if (0 <? length scripts)%nat then "script"
      else "not found"
  | entry :: rest =>
      if is_library_or_package entry then entry_type entry
      else
        let services := if is_service entry then services ++ [entry] else services in
        let scripts := if is_script entry then scripts ++ [entry] else scripts in
        extract_software_type_loop rest services scripts
  end.

Definition extract_software_type (soft_invocation_info_list : list soft_info) : string :=
  extract_software_type_loop soft_invocation_info_list [] [].

(** ** utils.py: [prune_json] on JSON trees *)

Module Json.

(** Dictionary keys of the reports: strings, and integers for the
    numbered table of raised errors. *)
Inductive key :=
| KStr (s : string)
| KInt (n : Z).

Definition key_eqb (a b : key) : bool :=
  match a, b with
  | KStr s, KStr t => String.eqb s t
  | KInt n, KInt m => Z.eqb n m
  | _, _ => false
  end.

(** The values [json.dump] accepts.  A dictionary is an association list
    in insertion order. *)
#[warnings="-register-all"]
Inductive json :=
| JNull
| JBool (b : bool)
| JNum (n : Z)
| JStr (s : string)
| JList (elems : list json)
| JDict (items : list (key * json)).

(** [bool(v)]: [None], [False], [0], the empty string, the empty list and
    the empty dictionary are false. *)
Definition truthy (v : json) : bool :=
  match v with
  | JNull => false
  | JBool b => b
  | JNum n => negb (n =? 0)%Z
  | JStr s => PyStr.nonempty s
  | JList elems => match elems with [] => false | _ => true end
  | JDict items => match items with [] => false | _ => true end
  end.

(** [d[a] = v] on an insertion-ordered dictionary: an existing key keeps
    its position, a new key goes last. *)
Fixpoint dict_set {V : Type} (a : key) (v : V) (d : list (key * V)) : list (key * V) :=
  match d with
  | [] => [(a, v)]
  | (k, w) :: d' => if key_eqb k a then (k, v) :: d' else (k, w) :: dict_set a v d'
  end.

(** One round of the [for a, b in json_dict.items()] loop, given the
    function used for the recursive calls. *)
Definition prune_item (prune : json -> json) (final_dict : list (key * json))
    (ab : key * json) : list (key * json) :=
  let '(a, b) := ab in
  if truthy b then
    match b with
    | JDict _ =>
        let aux_dict := prune b in
        if truthy aux_dict then dict_set a aux_dict final_dict else final_dict
    | JList l =>
        let aux_list := filter truthy (map prune l) in
        if (0 <? length aux_list)%nat then dict_set a (JList aux_list) final_dict
        else final_dict
    | _ => dict_set a b final_dict
    end
  else final_dict.

Fixpoint prune_json (json_dict : json) : json :=
  match json_dict with
  | JDict items => JDict (fold_left (prune_item prune_json) items [])
  | _ => json_dict
  end.

(** What one round of the loop stores under the key of value [b], if
    anything. *)
Definition pruned_value (b : json) : option json :=
  if truthy b then
    match b with
    | JDict _ =>
        let aux_dict := prune_json b in
        if truthy aux_dict then Some aux_dict else None
    | JList l =>
        let aux_list := filter truthy (map prune_json l) in
        if (0 <? length aux_list)%nat then Some (JList aux_list) else None
    | _ => Some b
    end
  else None.

(** Shapes of trees used to state what pruning achieves. *)

Definition is_mapping (j : json) : bool :=
  match j with JDict _ => true | _ => false end.

Definition is_sequence (j : json) : bool :=
  match j with JList _ => true | _ => false end.

(** No node of the tree, the root included, is an empty mapping, an empty
    sequence or a falsy leaf. *)
Fixpoint deep_truthy (j : json) : bool :=
  truthy j &&
  match j with
  | JList elems => forallb deep_truthy elems
  | JDict items => forallb (fun ab => deep_truthy (snd ab)) items
  | _ => true
  end.

(** The same for every node strictly below the root. *)
Definition no_empty_below (j : json) : bool :=
  match j with
  | JList elems => forallb deep_truthy elems
  | JDict items => forallb (fun ab => deep_truthy (snd ab)) items
  | _ => true
  end.







(** Sample trees: a report as the inspector assembles it, and two trees
    with a sequence nested in a sequence. *)
Definition sample_report : json :=
  JDict [
    (KStr "file", JDict [(KStr "path", JStr "/repo/a.py");
                         (KStr "doc", JDict [(KStr "long_description", JDict []);
                                             (KStr "full", JDict [])])]);
    (KStr "dependencies", JList []);
    (KStr "classes", JDict [(KStr "A", JDict [(KStr "extend", JList []);
                                              (KStr "methods", JDict [])])]);
    (KStr "functions", JDict [(KStr "f", JDict [
         (KStr "args", JList [JStr "x"]);
         (KStr "doc", JDict [(KStr "raises", JDict [(KInt 0, JDict [(KStr "type_name", JNull)])])]);
         (KStr "calls", JList [JStr "a.g"; JStr ""])])]);
    (KStr "body", JDict [(KStr "calls", JList [JDict [(KStr "x", JStr "")]; JNum 0])]);
    (KStr "main_info", JDict [(KStr "main_flag", JNum 0); (KStr "main_function", JStr "")])
  ].




End Json.

Import Json.

(** ** [prune_json] on the object store

    Python dictionaries and lists are mutable objects reached through
    references, and the report handed to [prune_json] stays referenced by
    the caller.  The store below makes the sharing explicit: an address
    is an index in the list of allocated objects, [final_dict = {}] and
    the list builders allocate, and [final_dict[a] = x] is the only
    write. *)

Module Store.

Definition addr := nat.

Inductive pyval :=
| VNone
| VBool (b : bool)
| VInt (n : Z)
| VStr (s : string)
| VRef (a : addr).

Inductive obj :=
| ODict (items : list (key * pyval))
| OList (elems : list pyval).

Definition heap := list obj.

Definition alloc (h : heap) (o : obj) : heap * addr := (h ++ [o], length h).

Fixpoint store (h : heap) (a : addr) (o : obj) : heap :=
  match h, a with
  | [], _ => []
  | _ :: h', O => o :: h'
  | x :: h', S a' => x :: store h' a' o
  end.

(** [bool(v)] in a store (a reference to nothing does not occur). *)
Definition truthy_h (h : heap) (v : pyval) : bool :=
  match v with
  | VNone => false
  | VBool b => b
  | VInt n => negb (n =? 0)%Z
  | VStr s => PyStr.nonempty s
  | VRef a =>
      match nth_error h a with
      | Some (ODict items) => match items with [] => false | _ => true end
      | Some (OList elems) => match elems with [] => false | _ => true end
      | None => false
      end
  end.

(** [final_dict[a] = v]. *)
Definition setitem (h : heap) (final_dict : addr) (a : key) (v : pyval) : heap :=
  match nth_error h final_dict with
  | Some (ODict items) => store h final_dict (ODict (dict_set a v items))
  | _ => h
  end.

(** [[prune_json(i) for i in b]]: the calls in order, threading the store. *)
Fixpoint prune_elems (prune : heap -> pyval -> option (heap * pyval))
    (elems : list pyval) (h : heap) : option (heap * list pyval) :=
  match elems with
  | [] => Some (h, [])
  | i :: rest =>
      match prune h i with
      | Some (h1, v) =>
          match prune_elems prune rest h1 with
          | Some (h2, vs) => Some (h2, v :: vs)
          | None => None
          end
      | None => None
      end
  end.

(** One round of the [for a, b in json_dict.items()] loop. *)
Definition prune_item (prune : heap -> pyval -> option (heap * pyval))
    (final_dict : addr) (h : heap) (ab : key * pyval) : option heap :=
  let '(a, b) := ab in
  if truthy_h h b then
    match b with
    | VRef r =>
        match nth_error h r with
        | Some (ODict _) =>
            match prune h b with
            | Some (h1, aux_dict) =>
                if truthy_h h1 aux_dict then Some (setitem h1 final_dict a aux_dict)
                else Some h1
            | None => None
            end
        | Some (OList elems) =>
            match prune_elems prune elems h with
            | Some (h1, pruned) =>
                let (h2, _) := alloc h1 (OList pruned) in
                let kept := filter (truthy_h h2) pruned in
                let (h3, aux_list) := alloc h2 (OList kept) in
                if (0 <? length kept)%nat then Some (setitem h3 final_dict a (VRef aux_list))
                else Some h3
            | None => None
            end
        | None => None
        end
    | _ => Some (setitem h final_dict a b)
    end
  else Some h.

Fixpoint prune_items (prune : heap -> pyval -> option (heap * pyval))
    (final_dict : addr) (items : list (key * pyval)) (h : heap) : option heap :=
  match items with
  | [] => Some h
  | ab :: rest =>
      match prune_item prune final_dict h ab with
      | Some h1 => prune_items prune final_dict rest h1
      | None => None
      end
  end.

(** [prune_json] itself.  The store may hold cyclic data, on which the
    Python recursion does not end; [fuel] bounds the recursion depth and
    [None] is "no result within this depth". *)
Fixpoint prune_json (fuel : nat) (h : heap) (json_dict : pyval) : option (heap * pyval) :=
  match fuel with
  | O => None
  | S fuel' =>
      let (h0, final_dict) := alloc h (ODict []) in
      match json_dict with
      | VRef a =>
          match nth_error h0 a with
          | Some (ODict items) =>
              match prune_items (prune_json fuel') final_dict items h0 with
              | Some h' => Some (h', VRef final_dict)
              | None => None
              end
          | Some (OList _) => Some (h0, json_dict)
          | None => None
          end
      | _ => Some (h0, json_dict)
      end
  end.

(** Reading a value back from the store as a tree, as [json.dump] walks
    it; [None] when the depth bound is reached. *)
Fixpoint load_list (load : pyval -> option json) (vs : list pyval) : option (list json) :=
  match vs with
  | [] => Some []
  | v :: rest =>
      match load v, load_list load rest with
      | Some t, Some ts => Some (t :: ts)
      | _, _ => None
      end
  end.

Fixpoint load_items (load : pyval -> option json) (its : list (key * pyval))
    : option (list (key * json)) :=
  match its with
  | [] => Some []
  | (k, v) :: rest =>
      match load v, load_items load rest with
      | Some t, Some ts => Some ((k, t) :: ts)
      | _, _ => None
      end
  end.

Fixpoint load (fuel : nat) (h : heap) (v : pyval) : option json :=
  match fuel with
  | O => None
  | S fuel' =>
      match v with
      | VNone => Some JNull
      | VBool b => Some (JBool b)
      | VInt n => Some (JNum n)
      | VStr s => Some (JStr s)
      | VRef a =>
          match nth_error h a with
          | Some (OList vs) => option_map JList (load_list (load fuel' h) vs)
          | Some (ODict its) => option_map JDict (load_items (load fuel' h) its)
          | None => None
          end
      end
  end.

(** [h'] keeps every object of [h] as it is (and may hold more). *)
Definition heap_ext (h h' : heap) : Prop :=
  forall a o, nth_error h a = Some o -> nth_error h' a = Some o.

(** Reading restricted to the addresses allowed by [ok]; used to follow
    which objects a value can reach. *)
Fixpoint load_in (ok : addr -> bool) (fuel : nat) (h : heap) (v : pyval) : option json :=
  match fuel with
  | O => None
  | S fuel' =>
      match v with
      | VNone => Some JNull
      | VBool b => Some (JBool b)
      | VInt n => Some (JNum n)
      | VStr s => Some (JStr s)
      | VRef a =>
          if ok a then
            match nth_error h a with
            | Some (OList vs) => option_map JList (load_list (load_in ok fuel' h) vs)
            | Some (ODict its) => option_map JDict (load_items (load_in ok fuel' h) its)
            | None => None
            end
          else None
      end
  end.

(** Statements about a function used for the recursive calls: it keeps
    every object it is given, and it computes the pruned tree. *)
Definition keeps_objects (prune : heap -> pyval -> option (heap * pyval)) : Prop :=
  forall h v h' v', prune h v = Some (h', v') -> heap_ext h h'.

(** [h'] keeps every object of [h] but possibly the one at [fd]. *)
Definition ext_except (fd : addr) (h h' : heap) : Prop :=
  forall a o, a <> fd -> nth_error h a = Some o -> nth_error h' a = Some o.

(** [ok] extended with every address from [b] on. *)
Definition widen (ok : addr -> bool) (b : addr) : addr -> bool :=
  fun a => ok a || (b <=? a)%nat.

Definition prune_spec (prune : heap -> pyval -> option (heap * pyval)) (N : nat) : Prop :=
  forall m ok h v t, m <= N -> load_in ok m h v = Some t ->
    exists h' v', prune h v = Some (h', v') /\
      load_in (widen ok (length h)) m h' v' = Some (Json.prune_json t).

(** A small store: a report with an empty docstring table and a call
    list holding an empty name. *)
Definition sample_heap : heap :=
  [ ODict [(KStr "doc", VRef 1); (KStr "calls", VRef 2); (KStr "name", VStr "a")];
    ODict [];
    OList [VStr ""; VStr "f"] ].

Definition sample_tree : json :=
  JDict [(KStr "doc", JDict []);
         (KStr "calls", JList [JStr ""; JStr "f"]);
         (KStr "name", JStr "a")].

(** [file_json]: the assembled report [file_dict] is pruned for the
    artifact that is written, and the report itself is what the method
    returns (first component), next to the artifact's path. *)
Definition file_json (fuel : nat) (h : heap) (file_dict : pyval) (json_file : string)
    : option (heap * (pyval * string) * json) :=
  match prune_json fuel h file_dict with
  | Some (h', pruned) =>
      match load fuel h' pruned with
      | Some written => Some (h', (file_dict, json_file), written)
      | None => None
      end
  | None => None
  end.

End Store.

(** ** code_inspector.py: file-level features *)

(** The docstring triple; [None] stands for the empty mapping recorded
    when a description is absent. *)
Record doc_info := {
  long_description : option string;
  short_description : option string;
  full : option string
}.

Record file_info := {
  path : string;
  fileNameBase : string;
  extension : string;
  doc : doc_info
}.

(** [x if x else {}] on an optional text. *)
Definition or_empty (x : option string) : option string :=
  match x with
  | Some s => if PyStr.nonempty s then Some s else None
  | None => None
  end.

(** [inspect_file].  [cwd] is the working directory of the process,
    [ds_m] the module docstring found by the parser and [docstring_long],
    [docstring_short] the two descriptions returned by the docstring
    parser. *)
Definition inspect_file (cwd self_path : string)
    (ds_m docstring_long docstring_short : option string) : res file_info :=
  let path := PosixPath.abspath cwd self_path in
  let file_name := PyStr.split dot (PosixPath.basename self_path) in
  fileNameBase <- getitem file_name 0 ;;
  extension <- getitem file_name 1 ;;
  Ok {| path := path;
        fileNameBase := fileNameBase;
        extension := extension;
        doc := {| long_description := or_empty docstring_long;
                  short_description := or_empty docstring_short;
                  full := or_empty ds_m |} |}.

(** ** The syntax tree, as far as the inspector reads it *)

(** Expressions.  [Str] is a text literal.  [Constant] is a constant
    other than a text whose node has the field [s]: a bytes literal and,
    from Python 3.8 on, where every constant node answers to [s] with
    its value, a number, [None], [True] or [False].  [OtherExpr] stands
    for every node with none of the fields read here. *)
#[warnings="-register-all"]
Inductive expr :=
| Name (id : string)
| Attribute (value : expr) (attr : string)
| Call (func : expr) (args : list expr)
| Subscript (value : expr) (slice : expr)
| Str (s : string)
| Constant
| Compare (left : expr) (comparators : list expr)
| OtherExpr.

(** Statements of a module body.  An augmented assignment ([x += e]) and
    an annotated one ([x: t = e], or [x: t] without a value) have a
    [value] field but are no [ast.Assign].  [OtherStmt] stands for the
    statements without a [value] field ([pass], loops, [with], ...). *)
#[warnings="-register-all"]
Inductive stmt :=
| Expr (value : expr)
| Assign (targets : list expr) (value : expr)
| AugAssign (target : expr) (value : expr)
| AnnAssign (target : expr) (value : option expr)
| Return (value : option expr)
| If (test : expr) (body : list stmt) (orelse : list stmt)
| FunctionDef (name : string)
| ClassDef (name : string)
| Import
| ImportFrom
| OtherStmt.

(** [_get_func_name]: the rendered name of a call target, [None] when
    the function falls through without a [return].  The [while] loop
    walks the attribute chain; the [try] blocks keep the empty name when
    the name of the root is [None]. *)
Fixpoint _get_func_name (func : expr) : option string :=
  match func with
  | Name id => Some id
  | Attribute value attr0 =>
      (fix chain (module : expr) (attr : string) {struct module} : option string :=
         match module with
         | Attribute value' attr' => chain value' (attr' ++ "." ++ attr)%string
         | Name id => Some (id ++ "." ++ attr)%string
         | Call func' _ =>
             match _get_func_name func' with
             | Some name => Some (name ++ "()." ++ attr)%string
             | None => Some ""
             end
         | Subscript value' _ =>
             match _get_func_name value' with
             | Some name =>
                 if PyStr.nonempty name then Some (name ++ "[]." ++ attr)%string
                 else Some ("[]." ++ attr)%string
             | None => Some ("[]." ++ attr)%string
             end
         | _ => Some ""
         end) value attr0
  | _ => None
  end.

(** ** code_inspector.py: the main-entry idiom *)

Module MainEntry.

Record main_info := {
  main_flag : Z;
  main_function : string;
  type : option string
}.

(** [node.test.comparators[0].s]: the text of a text literal, and [None]
    for the value of a constant that is not a text. *)
Definition test_s (test : expr) : res (option string) :=
  match test with
  | Compare _ comparators =>
      c <- getitem comparators 0 ;;
      match c with
      | Str s => Ok (Some s)
      | Constant => Ok None
      | _ => Raise AttributeError
      end
  | _ => Raise AttributeError
  end.

(** [s == "__main__"]: a value that is not a text equals no text. *)
Definition is_main_text (s : option string) : bool :=
  match s with
  | Some s => String.eqb s "__main__"
  | None => false
  end.

(** [i.value] on a statement. *)
Definition stmt_value (i : stmt) : res (option expr) :=
  match i with
  | Expr value => Ok (Some value)
  | Assign _ value => Ok (Some value)
  | AugAssign _ value => Ok (Some value)
  | AnnAssign _ value => Ok value
  | Return value => Ok value
  | _ => Raise AttributeError
  end.

(** [[i.value.func for i in node.body if isinstance(i.value, ast.Call)]]. *)
Fixpoint funcs_calls (body : list stmt) : res (list expr) :=
  match body with
  | [] => Ok []
  | i :: rest =>
      value <- stmt_value i ;;
      match value with
      | Some (Call func _) => calls <- funcs_calls rest ;; Ok (func :: calls)
      | _ => funcs_calls rest
      end
  end.

Definition is_If (node : stmt) : bool :=
  match node with If _ _ _ => true | _ => false end.

(** The loop over the top-level [if] statements.  An exception raised in
    the [try] block is swallowed and the loop goes on with the state
    reached so far; the result is the pair [(if_main_flag, if_main_func)]
    at the end of the loop or at the [break]. *)
Fixpoint if_main_loop (fileNameBase : string) (nodes : list stmt)
    (if_main_flag : Z) (if_main_func : string) : Z * string :=
  match nodes with
  | [] => (if_main_flag, if_main_func)
  | If test body _ :: rest =>
      match test_s test with
      | Ok s =>
          let if_main_flag := if is_main_text s then 1%Z else if_main_flag in
          match funcs_calls body with
          | Ok calls =>
              match map _get_func_name calls with
              | [] => if_main_loop fileNameBase rest if_main_flag if_main_func
              | Some name :: _ => (if_main_flag, (fileNameBase ++ "." ++ name)%string)
              | None :: _ => if_main_loop fileNameBase rest if_main_flag if_main_func
              end
          | _ => if_main_loop fileNameBase rest if_main_flag if_main_func
          end
      | _ => if_main_loop fileNameBase rest if_main_flag if_main_func
      end
  | _ :: rest => if_main_loop fileNameBase rest if_main_flag if_main_func
  end.

(** [_ast_if_main], on the body of the module. *)
Definition _ast_if_main (fileNameBase : string) (tree_body : list stmt) : main_info :=
  let if_main_definitions := filter is_If tree_body in
  let '(if_main_flag, if_main_func) := if_main_loop fileNameBase if_main_definitions 0%Z "" in
  {| main_flag := if_main_flag;
     main_function := if_main_func;
     type :=
       if negb (if_main_flag =? 0)%Z then
         if PyStr.str_in "unittest" if_main_func || PyStr.str_in "test" fileNameBase
         then Some "test" else Some "script"
       else None |}.

(** A top-level [if] compares against the literal ["__main__"] when the
    test read by the detector is that string. *)
Definition compares_main (node : stmt) : bool :=
  match node with
  | If test _ _ =>
      match test_s test with
      | Ok s => is_main_text s
      | _ => false
      end
  | _ => false
  end.

(** Sample modules: [if __name__ == "__main__": run_tests()], and a file
    whose only conditional is [if mode == "fast": foo()]. *)
Definition main_block_run_tests : list stmt :=
  [If (Compare (Name "__name__") [Str "__main__"])
      [Expr (Call (Name "run_tests") [])] []].

Definition no_main_block : list stmt :=
  [If (Compare (Name "mode") [Str "fast"])
      [Expr (Call (Name "foo") [])] []].

End MainEntry.

(** ** code_inspector.py: call-name resolution *)

Module Resolver.

(** One import record of the dependency table.  [from_module] is [None]
    for the empty list recorded by a plain [import] (and for a missing
    module name). *)
Record dep := {
  from_module : option string;
  import : string;
  alias : option string;
  type : string
}.

(** A function or method record, with the fields the resolution reads
    and writes.  A call name and a stored target may be [None]. *)
#[warnings="-register-all"]
Inductive func_info :=
| FuncInfo (calls : list (option string))
           (store_vars_calls : list (option string * option string))
           (functions : list (string * func_info)).

Definition calls (f : func_info) : list (option string) :=
  match f with FuncInfo c _ _ => c end.
Definition store_vars_calls (f : func_info) : list (option string * option string) :=
  match f with FuncInfo _ s _ => s end.
Definition functions (f : func_info) : list (string * func_info) :=
  match f with FuncInfo _ _ n => n end.
Definition set_calls (f : func_info) (c : list (option string)) : func_info :=
  match f with FuncInfo _ s n => FuncInfo c s n end.

Record class_info := {
  extend : list string;
  methods : list (string * func_info)
}.

(** [k in d] and [d[k]] on a dictionary with string keys. *)
Definition has_key {V : Type} (k : string) (d : list (string * V)) : bool :=
  existsb (fun kv => String.eqb (fst kv) k) d.

Fixpoint lookup {V : Type} (k : string) (d : list (string * V)) : option V :=
  match d with
  | [] => None
  | (k', v) :: d' => if String.eqb k' k then Some v else lookup k d'
  end.

(** Truth value of an optional text. *)
Definition truthy_opt (x : option string) : bool :=
  match x with
  | Some s => PyStr.nonempty s
  | None => false
  end.

Section Inspector.

(** The state of the inspector object: the base name of the file and its
    dependency table.  [str_hasattr name] tells whether Python strings
    have an attribute called [name] (bases are kept as strings, and
    [_dfs] asks [hasattr] of them). *)
Variable fileNameBase : string.
Variable depInfo : list dep.
Variable str_hasattr : string -> bool.

(** [_dfs].  The result is the returned [renamed] with the list
    [renamed_calls] as the call leaves it; [fuel] bounds the depth of the
    recursion, which does not end on a cyclic class table. *)
Fixpoint _dfs (fuel : nat) (extend : list string) (rest_call_name : string)
    (renamed : bool) (classes_info : list (string * class_info))
    (renamed_calls : list string) {struct fuel} : res (bool * list string) :=
  match fuel with
  | O => Unfinished
  | S fuel' =>
      (fix loop (exts : list string) (renamed : bool) (renamed_calls : list string)
           {struct exts} : res (bool * list string) :=
         match exts with
         | [] => Ok (renamed, renamed_calls)
         | ext :: exts' =>
             match lookup ext classes_info with
             | Some c =>
                 if has_key rest_call_name (methods c) then
                   Ok (true, renamed_calls ++
                               [(fileNameBase ++ "." ++ ext ++ "." ++ rest_call_name)%string])
                 else
                   '(renamed, renamed_calls) <-
                      _dfs fuel' (Resolver.extend c) rest_call_name renamed classes_info
                           renamed_calls ;;
                   if renamed then Ok (renamed, renamed_calls)
                   else loop exts' renamed renamed_calls
             | None =>
                 if str_hasattr rest_call_name then
                   Ok (true, renamed_calls ++ [(ext ++ "." ++ rest_call_name)%string])
                 else Raise KeyError
             end
         end) extend renamed renamed_calls
  end.

(** First loop over the dependency table: the leading segment is an
    imported symbol or an alias. *)
Fixpoint resolve_import (deps : list dep) (module_call_name call_name rest_call_name : string)
    (renamed : bool) (renamed_calls : list string) : bool * list string :=
  match deps with
  | [] => (renamed, renamed_calls)
  | dep :: deps' =>
      if String.eqb (import dep) module_call_name then
        match from_module dep with
        | Some m =>
            if PyStr.nonempty m then (true, renamed_calls ++ [(m ++ "." ++ call_name)%string])
            else resolve_import deps' module_call_name call_name rest_call_name true
                   (renamed_calls ++ [call_name])
        | None =>
            resolve_import deps' module_call_name call_name rest_call_name true
              (renamed_calls ++ [call_name])
        end
      else if truthy_opt (alias dep) then
        if match alias dep with Some a => String.eqb a module_call_name | None => false end then
          match from_module dep with
          | Some m =>
              if PyStr.nonempty m then
                (true, renamed_calls ++ [(m ++ "." ++ import dep ++ rest_call_name)%string])
              else (true, renamed_calls ++ [(import dep ++ rest_call_name)%string])
          | None => (true, renamed_calls ++ [(import dep ++ rest_call_name)%string])
          end
        else resolve_import deps' module_call_name call_name rest_call_name renamed renamed_calls
      else resolve_import deps' module_call_name call_name rest_call_name renamed renamed_calls
  end.

(** Second loop: the whole name was imported with [from module import *]. *)
Fixpoint resolve_star_import (deps : list dep) (call_name : string) : option string :=
  match deps with
  | [] => None
  | dep :: deps' =>
      match from_module dep with
      | Some m =>
          if String.eqb (import dep) call_name && PyStr.nonempty m
          then Some (m ++ "." ++ call_name)%string
          else resolve_star_import deps' call_name
      | None => resolve_star_import deps' call_name
      end
  end.

(** The loop over the sibling definitions and their nested functions. *)
Fixpoint resolve_nested (siblings : list (string * func_info)) (class_name call_name : string)
    : option string :=
  match siblings with
  | [] => None
  | (inter_f, info) :: rest =>
      if has_key call_name (functions info) then
        if PyStr.nonempty class_name then
          Some (fileNameBase ++ "." ++ class_name ++ "." ++ inter_f ++ "." ++ call_name)%string
        else Some (fileNameBase ++ "." ++ inter_f ++ "." ++ call_name)%string
      else resolve_nested rest class_name call_name
  end.

(** The substitution of the leading segment through [store_vars_calls]:
    the first key equal to it, if any. *)
Fixpoint stored_target (f_store_vars : list (option string * option string))
    (module_call_name : string) : option (option string) :=
  match f_store_vars with
  | [] => None
  | (key, val) :: rest =>
      if match key with Some k => String.eqb module_call_name k | None => false end
      then Some val
      else stored_target rest module_call_name
  end.

(** The body of the loop [for call_name in funct_def_info[funct]["calls"]]
    of [_fill_call_name]: one call name is resolved and [renamed_calls]
    grows. *)
Definition rename_call (fuel : nat) (funct_def_info : list (string * func_info))
    (classes_info : list (string * class_info)) (class_name : string)
    (extend : list string) (body : bool)
    (f_store_vars : list (option string * option string))
    (call_name : option string) (renamed_calls : list string) : res (list string) :=
  match call_name with
  | None => Raise AttributeError
  | Some call_name =>
      let renamed := false in
      module_call_name <- getitem (PyStr.split dot call_name) 0 ;;
      let rest_call_name := PyStr.join "." (tl (PyStr.split dot call_name)) in
      '(module_call_name, call_name) <-
         match stored_target f_store_vars module_call_name with
         | Some (Some val) => Ok (val, (val ++ "." ++ rest_call_name)%string)
         | Some None => Raise TypeError
         | None => Ok (module_call_name, call_name)
         end ;;
      if has_key call_name classes_info then
        Ok (renamed_calls ++ [(fileNameBase ++ "." ++ call_name ++ ".__init__")%string])
      else if PyStr.str_in "self" module_call_name then
        Ok (renamed_calls ++ [(fileNameBase ++ "." ++ class_name ++ "." ++ rest_call_name)%string])
      else if PyStr.str_in "super()" module_call_name
              && match extend with [] => false | _ => true end then
        '(renamed, renamed_calls) <-
           _dfs fuel extend rest_call_name renamed classes_info renamed_calls ;;
        if renamed then Ok renamed_calls else Ok (renamed_calls ++ [call_name])
      else
        let rest_call_name :=
          if PyStr.nonempty rest_call_name then ("." ++ rest_call_name)%string else "" in
        let '(renamed, renamed_calls) :=
          resolve_import depInfo module_call_name call_name rest_call_name renamed renamed_calls in
        if renamed then Ok renamed_calls else
        match resolve_star_import depInfo call_name with
        | Some name => Ok (renamed_calls ++ [name])
        | None =>
        if has_key call_name funct_def_info then
          Ok (renamed_calls ++ [(fileNameBase ++ "." ++ call_name)%string])
        else
        match (if body then None else resolve_nested funct_def_info class_name call_name) with
        | Some name => Ok (renamed_calls ++ [name])
        | None =>
          '(renamed, renamed_calls) <-
             (if PyStr.nonempty module_call_name && PyStr.nonempty rest_call_name
                 && negb (PyStr.str_in fileNameBase call_name) then
                rest_call_name <- getitem (PyStr.split dot rest_call_name) 1 ;;
                match lookup module_call_name classes_info with
                | Some c =>
                    if has_key rest_call_name (methods c) then
                      Ok (true, renamed_calls ++ [(fileNameBase ++ "." ++ call_name)%string])
                    else
                      '(renamed, renamed_calls) <-
                         _dfs fuel (Resolver.extend c) rest_call_name renamed classes_info
                              renamed_calls ;;
                      if renamed then
                        Ok (renamed, renamed_calls ++ [(fileNameBase ++ "." ++ call_name)%string])
                      else Ok (renamed, renamed_calls)
                | None => Ok (true, renamed_calls ++ [call_name])
                end
              else Ok (renamed, renamed_calls)) ;;
          if renamed then Ok renamed_calls
          else if negb (String.eqb "super" call_name) then Ok (renamed_calls ++ [call_name])
          else Ok renamed_calls
        end
        end
  end.

(** The inner loop over the calls of one function. *)
Fixpoint rename_calls (fuel : nat) (funct_def_info : list (string * func_info))
    (classes_info : list (string * class_info)) (class_name : string)
    (extend : list string) (body : bool)
    (f_store_vars : list (option string * option string))
    (call_names : list (option string)) (renamed_calls : list string) : res (list string) :=
  match call_names with
  | [] => Ok renamed_calls
  | call_name :: rest =>
      renamed_calls <- rename_call fuel funct_def_info classes_info class_name extend body
                         f_store_vars call_name renamed_calls ;;
      rename_calls fuel funct_def_info classes_info class_name extend body f_store_vars
        rest renamed_calls
  end.

(** [_fill_call_name]: the calls of every function of the table are
    replaced by their resolved names.  The keys of the table, read while
    resolving, do not change on the way. *)
Definition _fill_call_name (fuel : nat) (funct_def_info : list (string * func_info))
    (classes_info : list (string * class_info)) (class_name : string)
    (extend : list string) (body : bool) : res (list (string * func_info)) :=
  (fix loop (functs : list (string * func_info)) : res (list (string * func_info)) :=
     match functs with
     | [] => Ok []
     | (funct, info) :: rest =>
         renamed_calls <- rename_calls fuel funct_def_info classes_info class_name extend body
                            (store_vars_calls info) (calls info) [] ;;
         rest' <- loop rest ;;
         Ok ((funct, set_calls info (map Some renamed_calls)) :: rest')
     end) funct_def_info.

(** [d[k] = v] for the table of stored targets. *)
Fixpoint store_var (k v : option string) (d : list (option string * option string))
    : list (option string * option string) :=
  match d with
  | [] => [(k, v)]
  | (k', v') :: d' =>
      if match k, k' with
         | Some a, Some b => String.eqb a b
         | None, None => true
         | _, _ => false
         end
      then (k', v) :: d'
      else (k', v') :: store_var k v d'
  end.

Definition is_body_node (node : stmt) : bool :=
  match node with
  | ClassDef _ | FunctionDef _ | Import | ImportFrom => false
  | _ => true
  end.

(** The loop of [inspect_body] over the top-level assignments. *)
Fixpoint body_assign_calls (body_nodes : list stmt)
    (body_calls : list (option string))
    (body_store_vars : list (option string * option string))
    : list (option string) * list (option string * option string) :=
  match body_nodes with
  | [] => (body_calls, body_store_vars)
  | Assign targets (Call func _) :: rest =>
      let body_name := _get_func_name func in
      let body_store_vars :=
        fold_left (fun vars target => store_var (_get_func_name target) body_name vars)
                  targets body_store_vars in
      body_assign_calls rest (body_calls ++ [body_name]) body_store_vars
  | _ :: rest => body_assign_calls rest body_calls body_store_vars
  end.

(** The loop over the top-level expression statements. *)
Fixpoint body_expr_calls (body_nodes : list stmt) (body_calls : list (option string))
    : list (option string) :=
  match body_nodes with
  | [] => body_calls
  | Expr (Call func _) :: rest => body_expr_calls rest (body_calls ++ [_get_func_name func])
  | _ :: rest => body_expr_calls rest body_calls
  end.

(** [inspect_body]: the module-level calls, resolved in body mode. *)
Definition inspect_body (fuel : nat) (tree_body : list stmt)
    (classesInfo : list (string * class_info)) : res (list (string * func_info)) :=
  let body_nodes := filter is_body_node tree_body in
  let '(body_calls, body_store_vars) := body_assign_calls body_nodes [] [] in
  let body_calls := body_expr_calls body_nodes body_calls in
  let body_info := [("body", FuncInfo body_calls body_store_vars [])] in
  _fill_call_name fuel body_info classesInfo "" [] true.

End Inspector.

(** The call [super().run()] as the parser gives it, and a module whose
    body is the single statement [handlers["start"]()]. *)
Definition super_call (method : string) : expr :=
  Call (Attribute (Call (Name "super") []) method) [].

Definition subscript_call_module : list stmt :=
  [Expr (Call (Subscript (Name "handlers") (Str "start")) [])].

(** The tables of a file [shapes.py] with a class [Parent] declaring
    [run] and a class [Child(Parent)] whose method [area] calls
    [super().run()]. *)
Definition parent_class : class_info :=
  {| extend := []; methods := [("run", FuncInfo [] [] [])] |}.

Definition child_methods : list (string * func_info) :=
  [("area", FuncInfo [Some "super().run"; Some "super"] [] [])].

Definition shapes_classes : list (string * class_info) :=
  [("Parent", parent_class);
   ("Child", {| extend := ["Parent"]; methods := child_methods |})].

End Resolver.

(** ** code_inspector.py: the command-line entry point *)

Module Cli.

(** What the process does, in order. *)
Inductive action :=
| Print (line : string)
| SysExit (arg : option Z)
| FileMode (input_path : string)
| DirectoryMode (input_path : string).

(** The exit status of [sys.exit(arg)]: no argument is status 0. *)
Definition sys_exit_status (arg : option Z) : Z :=
  match arg with
  | None => 0%Z
  | Some n => n
  end.

(** The exit status of a run: that of the first [sys.exit], and 0 when
    the run reaches its end. *)
Fixpoint exit_status (run : list action) : Z :=
  match run with
  | [] => 0%Z
  | SysExit arg :: _ => sys_exit_status arg
  | _ :: rest => exit_status rest
  end.

(** What is written to the standard output before the process ends. *)
Fixpoint printed (run : list action) : list string :=
  match run with
  | [] => []
  | SysExit _ :: _ => []
  | Print line :: rest => line :: printed rest
  | _ :: rest => printed rest
  end.

Definition is_exit (a : action) : bool :=
  match a with SysExit _ => true | _ => false end.

Section Main.

(** The file system, as [os.path.isfile] and [os.path.isdir] see it. *)
Variable isfile : string -> bool.
Variable isdir : string -> bool.

(** [main]: the check of the input path, then one of the two modes
    (whose work is a single action here). *)
Definition main (input_path : string) : list action :=
  if negb (isfile input_path) && negb (isdir input_path) then
    [Print "The file or directory specified does not exist"; SysExit None]
  else if isfile input_path then [FileMode input_path]
  else [DirectoryMode input_path].

End Main.

(** A file system holding the file [a.py] and the directory [src]. *)
Definition sample_isfile (p : string) : bool := String.eqb p "a.py".
Definition sample_isdir (p : string) : bool := String.eqb p "src".

End Cli.


(** ** More on [prune_json]: trees whose mappings have distinct keys *)

Module JsonShape.

(** The keys of a Python dictionary are pairwise distinct; on the
    association lists used here this is a condition. *)
Fixpoint distinct_keys (ks : list key) : bool :=
  match ks with
  | [] => true
  | k :: rest => negb (existsb (key_eqb k) rest) && distinct_keys rest
  end.

Fixpoint unique_keys (j : json) : bool :=
  match j with
  | JList elems => forallb unique_keys elems
  | JDict items =>
      distinct_keys (map fst items) && forallb (fun ab => unique_keys (snd ab)) items
  | _ => true
  end.

Definition is_leaf (j : json) : bool :=
  negb (is_mapping j) && negb (is_sequence j).

(** The entries a mapping keeps when it is pruned, in their order. *)
Definition kept_items (items : list (key * json)) : list (key * json) :=
  flat_map (fun ab => match pruned_value (snd ab) with
                      | Some v => [(fst ab, v)]
                      | None => []
                      end) items.

(** The statement carried through the induction for trees without empty
    parts. *)
Definition fixed_at (j : json) : Prop :=
  deep_truthy j = true -> unique_keys j = true ->
  prune_json j = j /\ pruned_value j = Some j.



End JsonShape.

(** ** The statements of a main block *)

Module MainBlock.

(** The statements with a [value] field: an expression statement, an
    assignment (plain, augmented or annotated), a [return]. *)
Definition has_value (i : stmt) : bool :=
  match i with
  | Expr _ | Assign _ _ | AugAssign _ _ | AnnAssign _ _ | Return _ => true
  | _ => false
  end.

(** The test [__name__ == "__main__"]. *)
Definition name_is_main : expr := Compare (Name "__name__") [Str "__main__"].

(** [if __name__ == "__main__": main(); pass], followed by a conditional
    on a number that calls [later]. *)
Definition main_then_pass : list stmt :=
  [If name_is_main [Expr (Call (Name "main") []); OtherStmt] [];
   If (Compare (Name "x") [Constant]) [Expr (Call (Name "later") [])] []].

End MainBlock.

(** ** A table of functions with stored targets and nested functions *)

Module Tables.
Import Resolver.

(** The functions of a file [tool.py] that imports [json]: [load] stores
    an [io.Reader] in [reader], holds a nested function and calls
    [reader.open], [parse] and [json.loads]; [parse] calls nothing. *)
Definition tool_functions : list (string * func_info) :=
  [("load", FuncInfo [Some "reader.open"; Some "parse"; Some "json.loads"]
              [(Some "reader", Some "io.Reader")]
              [("inner", FuncInfo [Some "parse"] [] [])]);
   ("parse", FuncInfo [] [] [])].

Definition tool_dependencies : list dep :=
  [{| from_module := None; import := "json"; alias := None; type := "external" |}].

End Tables.

(** ** code_inspector.py: the files picked in directory mode *)

Module Walk.

(** The loops [for ignore in patterns: names[:] = [n for n in names if
    not n.startswith(ignore)]] of [main], used for the directories and
    for the files of each visited directory. *)
Definition ignore_names (patterns names : list string) : list string :=
  fold_left (fun names ignore => filter (fun n => negb (PyStr.startswith n ignore)) names)
            patterns names.

(** The test [".py" in f and not f.endswith(".pyc")]. *)
Definition is_source (f : string) : bool :=
  PyStr.str_in ".py" f && negb (PyStr.endswith f ".pyc").

(** The files of one visited directory that are handed to the
    inspector, in order. *)
Definition inspected_files (ignore_file_pattern files : list string) : list string :=
  filter is_source (ignore_names ignore_file_pattern files).

(** The default value of both ignore options. *)
Definition default_ignore : list string := ["."; "__pycache__"].

(** The path built for a picked file: [os.path.join(subdir, f)]. *)
Definition file_path (subdir f : string) : string := PosixPath.join subdir f.

End Walk.

(** ** Dotted call targets *)

(** The expression [root.a1.a2...an] as the parser builds it: the
    attributes nest to the left. *)
Definition attr_chain (root : string) (attrs : list string) : expr :=
  fold_left Attribute attrs (Name root).

(** An identifier holds no dot. *)
Definition no_dot (s : string) : bool := negb (PyStr.str_in "." s).

(** ** code_inspector.py: the bases of a class ([inspect_classes]) *)

Module Bases.

(** [b.id]. *)
Definition base_id (b : expr) : res string :=
  match b with
  | Name id => Ok id
  | _ => Raise AttributeError
  end.

(** [[b.id for b in c.bases]]. *)
Fixpoint base_ids (bases : list expr) : res (list string) :=
  match bases with
  | [] => Ok []
  | b :: rest => id <- base_id b ;; ids <- base_ids rest ;; Ok (id :: ids)
  end.

(** One round of the loop of the second [try].  A call has no [value]
    field, so the first test is false and reading [b.value] raises; so
    does reading [b.value.id] when the value is not a name, and reading
    [b.attr] on a subscript. *)
Definition fallback_base (b : expr) : res string :=
  match b with
  | Attribute (Name id) attr =>
      if PyStr.nonempty id then
        if PyStr.nonempty attr then Ok (id ++ "." ++ attr)%string else Ok id
      else Ok ""
  | Subscript (Name id) _ =>
      if PyStr.nonempty id then Raise AttributeError else Ok ""
  | _ => Raise AttributeError
  end.

Fixpoint fallback_bases (bases : list expr) (extend : list string) : res (list string) :=
  match bases with
  | [] => Ok extend
  | b :: rest => e <- fallback_base b ;; fallback_bases rest (extend ++ [e])
  end.

(** The value stored under ["extend"]: the names of the bases, or what
    the second [try] builds when some base is not a name, or the empty
    list when that fails too. *)
Definition class_extend (bases : list expr) : list string :=
  match base_ids bases with
  | Ok ids => ids
  | _ =>
      match fallback_bases bases [] with
      | Ok extend => extend
      | _ => []
      end
  end.

Definition is_Name (b : expr) : bool :=
  match b with Name _ => true | _ => false end.

End Bases.

(** ** utils.py: the call lists ([extract_call_functions],
    [extract_call_methods]) *)

Module CallGraph.
Import Resolver.

(** The nested dictionaries of a call list: the list stored under
    ["local"], or a dictionary. *)
#[warnings="-register-all"]
Inductive calls_tree :=
| Local (calls : list (option string))
| Graph (entries : list (string * calls_tree)).

(** [d[k] = v] on a dictionary with string keys. *)
Fixpoint set_key {V : Type} (k : string) (v : V) (d : list (string * V)) : list (string * V) :=
  match d with
  | [] => [(k, v)]
  | (k', w) :: d' => if String.eqb k' k then (k', v) :: d' else (k', w) :: set_key k v d'
  end.

Definition has_calls (info : func_info) : bool :=
  match calls info with [] => false | _ => true end.

(** [extract_call_functions] without the [body] flag: [function_calls]
    is the dictionary stored under [call_list[funct]], and
    [functions_loop] the loop over the table. *)
Fixpoint function_calls (info : func_info) : calls_tree :=
  match info with
  | FuncInfo calls _ functions =>
      Graph (("local", Local calls) ::
             match functions with
             | [] => []
             | _ =>
                 [("nested",
                   Graph ((fix loop (l : list (string * func_info))
                                (call_list : list (string * calls_tree)) :=
                             match l with
                             | [] => call_list
                             | (funct, i) :: rest =>
                                 loop rest (if has_calls i
                                            then set_key funct (function_calls i) call_list
                                            else call_list)
                             end) functions []))]
             end)
  end.

Fixpoint functions_loop (funcsInfo : list (string * func_info))
    (call_list : list (string * calls_tree)) : list (string * calls_tree) :=
  match funcsInfo with
  | [] => call_list
  | (funct, info) :: rest =>
      functions_loop rest (if has_calls info
                           then set_key funct (function_calls info) call_list
                           else call_list)
  end.

Definition extract_call_functions (funcsInfo : list (string * func_info)) (body : bool)
    : res (list (string * calls_tree)) :=
  if body then
    match lookup "body" funcsInfo with
    | Some info =>
        if has_calls info then Ok [("local", Local (calls info))] else Ok []
    | None => Raise KeyError
    end
  else Ok (functions_loop funcsInfo []).

(** [extract_call_methods], written from its own text. *)
Fixpoint method_calls (info : func_info) : calls_tree :=
  match info with
  | FuncInfo calls _ functions =>
      Graph (("local", Local calls) ::
             match functions with
             | [] => []
             | _ =>
                 [("nested",
                   Graph ((fix loop (l : list (string * func_info))
                                (call_list : list (string * calls_tree)) :=
                             match l with
                             | [] => call_list
                             | (method, i) :: rest =>
                                 loop rest (if has_calls i
                                            then set_key method (method_calls i) call_list
                                            else call_list)
                             end) functions []))]
             end)
  end.

Fixpoint extract_call_methods_loop (classesInfo : list (string * func_info))
    (call_list : list (string * calls_tree)) : list (string * calls_tree) :=
  match classesInfo with
  | [] => call_list
  | (method, info) :: rest =>
      extract_call_methods_loop rest
        (if has_calls info then set_key method (method_calls info) call_list else call_list)
  end.

Definition extract_call_methods (classesInfo : list (string * func_info))
    : list (string * calls_tree) :=
  extract_call_methods_loop classesInfo [].

(** A table with a function that calls nothing itself but holds a nested
    function with a call. *)
Definition sample_functions : list (string * func_info) :=
  [("main", FuncInfo [Some "a.run"] [] []);
   ("outer", FuncInfo [] [] [("inner", FuncInfo [Some "a.helper"] [] [])]);
   ("tool", FuncInfo [Some "a.main"] [] [("step", FuncInfo [] [] [])])].

End CallGraph.

(** ** utils.py: the check for service dependencies *)

Module Service.
Import Resolver.

Definition server_dependencies : list string :=
  ["flask"; "flask_restful"; "falcon"; "falcon_app"; "aiohttp"; "bottle"; "django";
   "fastapi"; "locust"; "pyramid"; "hug"; "eve"; "connexion"].

(** [==] on two records: the same type, and the other keys equal as
    dictionaries (the same keys with the same values, in any order). *)
Definition dict_eqb (a b : list (string * string)) : bool :=
  (length a =? length b)%nat &&
  forallb (fun kv => match lookup (fst kv) b with
                     | Some v => String.eqb v (snd kv)
                     | None => false
                     end) a.

Definition soft_info_eqb (a b : soft_info) : bool :=
  String.eqb (entry_type a) (entry_type b) && dict_eqb (entry_rest a) (entry_rest b).

(** The record [{"type": "service", "run": "python " + path,
    "has_structure": has_structure}]. *)
Definition service_record (path has_structure : string) : soft_info :=
  {| entry_type := "service";
     entry_rest := [("run", ("python " ++ path)%string); ("has_structure", has_structure)] |}.

Section Lower.

(** [str.lower]. *)
Variable lower : string -> string.

(** [service_in_set] on the name of an import or of a source module
    ([None] for the empty list of a plain import and for a missing
    module).  [path] is [elem["file"]["path"]]. *)
Definition service_in_set (data : option string) (path : string)
    (software_invocation_info : list soft_info) (has_structure : string)
    : bool * list soft_info :=
  match data with
  | Some data =>
      if PyStr.nonempty data then
        if existsb (String.eqb (lower data)) server_dependencies then
          let soft_info := service_record path has_structure in
          (true,
           if existsb (soft_info_eqb soft_info) software_invocation_info
           then software_invocation_info
           else software_invocation_info ++ [soft_info])
        else (false, software_invocation_info)
      else (false, software_invocation_info)
  | None => (false, software_invocation_info)
  end.

(** [service_check], on the dependency table and the path of a file. *)
Fixpoint service_check (dependencies : list dep) (path : string)
    (software_invocation_info : list soft_info) (has_structure : string)
    : bool * list soft_info :=
  match dependencies with
  | [] => (false, software_invocation_info)
  | dep :: rest =>
      let '(flag_service, software_invocation_info) :=
        service_in_set (Some (import dep)) path software_invocation_info has_structure in
      if flag_service then (flag_service, software_invocation_info)
      else
        let '(flag_service, software_invocation_info) :=
          service_in_set (from_module dep) path software_invocation_info has_structure in
        if flag_service then (flag_service, software_invocation_info)
        else service_check rest path software_invocation_info has_structure
  end.

End Lower.

(** A lowering of the letters used by the sample below. *)
Definition sample_lower (s : string) : string :=
  if String.eqb s "Flask" then "flask" else s.

Definition flask_dependencies : list dep :=
  [{| from_module := None; import := "os"; alias := None; type := "external" |};
   {| from_module := Some "flask"; import := "Flask"; alias := None; type := "external" |}].

End Service.

(** ** utils.py: the summary of a directory report *)

Module Summary.

Record counts := {
  folders : nat;
  files : nat;
  dependencies : nat;
  functions : nat;
  classes : nat
}.

Fixpoint dict_get (k : key) (d : list (key * json)) : option json :=
  match d with
  | [] => None
  | (k', v) :: d' => if key_eqb k' k then Some v else dict_get k d'
  end.

Section Len.

(** [len] of a text. *)
Variable str_len : string -> nat.

(** [len(v)]. *)
Definition py_len (v : json) : res nat :=
  match v with
  | JList elems => Ok (length elems)
  | JDict items => Ok (length items)
  | JStr s => Ok (str_len s)
  | _ => Raise TypeError
  end.

(** [name in element]: a key of a mapping, an element of a sequence, a
    part of a text. *)
Definition contains (name : string) (element : json) : res bool :=
  match element with
  | JDict items => Ok (existsb (fun kv => key_eqb (fst kv) (KStr name)) items)
  | JList elems =>
      Ok (existsb (fun e => match e with JStr s => String.eqb s name | _ => false end) elems)
  | JStr s => Ok (PyStr.str_in name s)
  | _ => Raise TypeError
  end.

(** [element[name]]. *)
Definition subscript (element : json) (name : string) : res json :=
  match element with
  | JDict items =>
      match dict_get (KStr name) items with
      | Some v => Ok v
      | None => Raise KeyError
      end
  | _ => Raise TypeError
  end.

(** [if name in element: total += len(element[name])]. *)
Definition add_len (name : string) (element : json) (total : nat) : res nat :=
  b <- contains name element ;;
  if b then v <- subscript element name ;; n <- py_len v ;; Ok (total + n)
  else Ok total.

(** The inner loop, over the elements of a list value. *)
Fixpoint count_elements (value : list json) (c : counts) : res counts :=
  match value with
  | [] => Ok c
  | element :: rest =>
      let files := S (files c) in
      dependencies <- add_len "dependencies" element (dependencies c) ;;
      functions <- add_len "functions" element (functions c) ;;
      classes <- add_len "classes" element (classes c) ;;
      count_elements rest {| folders := folders c; files := files;
                             dependencies := dependencies; functions := functions;
                             classes := classes |}
  end.

(** The outer loop, over the entries of the report. *)
Fixpoint count_entries (items : list (key * json)) (c : counts) : res counts :=
  match items with
  | [] => Ok c
  | (k, value) :: rest =>
      in_key <- match k with
                | KStr s => Ok (PyStr.str_in "/" s)
                | KInt _ => Raise TypeError
                end ;;
      let c := if in_key
               then {| folders := S (folders c); files := files c;
                       dependencies := dependencies c; functions := functions c;
                       classes := classes c |}
               else c in
      c <- match value with
           | JList elems => count_elements elems c
           | _ => Ok c
           end ;;
      count_entries rest c
  end.

(** [print_summary]: the five numbers it prints. *)
Definition print_summary (json_dict : list (key * json)) : res counts :=
  count_entries json_dict
    {| folders := 0; files := 0; dependencies := 0; functions := 0; classes := 0 |}.

End Len.

(** The number of elements of the list-valued entries, and of keys
    holding a path separator. *)
Definition listed_elements (json_dict : list (key * json)) : nat :=
  list_sum (map (fun kv => match snd kv with JList elems => length elems | _ => 0 end)
                json_dict).

Definition path_keys (json_dict : list (key * json)) : nat :=
  length (filter (fun kv => match fst kv with KStr s => PyStr.str_in "/" s | KInt _ => false end)
                 json_dict).

(** A report the summary can count: its keys are texts, and the elements
    of its list-valued entries are mappings whose ["dependencies"],
    ["functions"] and ["classes"], when present, have a length. *)
Definition has_len (v : json) : bool :=
  match v with
  | JList _ | JDict _ | JStr _ => true
  | _ => false
  end.

Definition countable_element (element : json) : bool :=
  match element with
  | JDict items =>
      forallb (fun name => match dict_get (KStr name) items with
                           | Some v => has_len v
                           | None => true
                           end) ["dependencies"; "functions"; "classes"]
  | _ => false
  end.

Definition countable (json_dict : list (key * json)) : bool :=
  forallb (fun kv =>
             match fst kv with KStr _ => true | KInt _ => false end &&
             match snd kv with
             | JList elems => forallb countable_element elems
             | _ => true
             end) json_dict.

(** A directory report: one output directory with two file reports, the
    directory tree, and the records of the software invocation. *)
Definition sample_dir_info : list (key * json) :=
  [(KStr "out/pkg",
    JList [JDict [(KStr "dependencies", JList [JStr "os"; JStr "sys"]);
                  (KStr "functions", JDict [(KStr "f", JDict [])]);
                  (KStr "classes", JDict [])];
           JDict [(KStr "dependencies", JList []);
                  (KStr "functions", JDict []);
                  (KStr "classes", JDict [(KStr "A", JDict [])])]]);
   (KStr "directory_tree", JDict [(KStr "pkg", JList [JStr "a.py"; JStr "b.py"])]);
   (KStr "software_invocation",
    JList [JDict [(KStr "type", JStr "script"); (KStr "run", JStr "python /repo/pkg/a.py")]])].

End Summary.

(** ** code_inspector.py: line intervals *)

Module Interval.

(** [_compute_interval].  [node_lineno] is [node.lineno] and [walked]
    holds, for each node yielded by [ast.walk(node)], its [lineno], or
    [None] when the node has none. *)
Definition _compute_interval (node_lineno : Z) (walked : list (option Z)) : Z * Z :=
  let '(min_lineno, max_lineno) :=
    fold_left (fun mm lineno =>
                 match lineno with
                 | Some n => (Z.min (fst mm) n, Z.max (snd mm) n)
                 | None => mm
                 end) walked (node_lineno, node_lineno) in
  (min_lineno, (max_lineno + 1)%Z).

Definition min_lineno (interval : Z * Z) : Z := fst interval.
Definition max_lineno (interval : Z * Z) : Z := snd interval.

End Interval.

(** ** code_inspector.py: the text of the control flow ([_formatFlow]) *)

Module Flow.

Definition newline : ascii := "010"%char.
Definition lt : ascii := "<"%char.
Definition gt : ascii := ">"%char.
Definition space : ascii := " "%char.

(** [n * " "]. *)
Fixpoint spaces (n : nat) : string :=
  match n with
  | O => EmptyString
  | S n' => String space (spaces n')
  end.

(** [shifts[-1]]. *)
Definition last_shift (shifts : list nat) : res nat :=
  match shifts with
  | [] => Raise IndexError
  | _ => Ok (last shifts 0)
  end.

(** [is_next_list(index, maxIndex, buf)], on the text after position
    [index]. *)
Definition is_next_list (rest : string) : bool :=
  match rest with
  | EmptyString => false
  | String c rest' =>
      if Ascii.eqb c lt then true
      else match rest' with
           | String c' _ => Ascii.eqb c newline && Ascii.eqb c' lt
           | EmptyString => false
           end
  end.

(** The loop of [_formatFlow] over the symbols of [s], from the current
    position on, one symbol per character. *)
Fixpoint format_loop (s : string) (result : string) (shifts : list nat) (pos : nat)
    (next_is_list : bool) : res string :=
  match s with
  | EmptyString => Ok result
  | String sym rest =>
      if Ascii.eqb sym newline then
        shift <- last_shift shifts ;;
        let result := (result ++ String sym (spaces shift))%string in
        match rest with
        | String next _ =>
            if negb (Ascii.eqb next lt || Ascii.eqb next gt)
            then format_loop rest (result ++ " ")%string shifts (S shift) next_is_list
            else format_loop rest result shifts shift next_is_list
        | EmptyString => format_loop rest result shifts shift next_is_list
        end
      else if Ascii.eqb sym lt then
        format_loop rest (result ++ String sym "")%string
          (if next_is_list then shifts else shifts ++ [pos]) (S pos) false
      else if Ascii.eqb sym gt then
        shift <- last_shift shifts ;;
        let result := (result ++ String newline (spaces shift) ++ String sym "")%string in
        if is_next_list rest then format_loop rest result shifts (S shift) true
        else format_loop rest result (removelast shifts) (S shift) false
      else format_loop rest (result ++ String sym "")%string shifts (S pos) next_is_list
  end.

Definition _formatFlow (s : string) : res string := format_loop s "" [] 0 false.

(** The text without its spaces and line breaks. *)
Fixpoint without_blanks (s : string) : string :=
  match s with
  | EmptyString => EmptyString
  | String c s' =>
      if Ascii.eqb c space || Ascii.eqb c newline then without_blanks s'
      else String c (without_blanks s')
  end.

(** No symbol of the text is one of the given characters. *)
Fixpoint free_of (chars : list ascii) (s : string) : bool :=
  match s with
  | EmptyString => true
  | String c s' => negb (existsb (Ascii.eqb c) chars) && free_of chars s'
  end.

End Flow.

(** ** utils.py: which main files a main file calls ([extract_relations]) *)

Module Relations.
Import CallGraph.

(** What a [for] loop over a value of a call list goes through: the
    elements of a list, the keys of a dictionary. *)
Definition items (t : calls_tree) : list (option string) :=
  match t with
  | Local calls => calls
  | Graph entries => map (fun kv => Some (fst kv)) entries
  end.

Section Resolver.

(** The call list of the directory: for each output directory, the call
    graph of each of its files. *)
Variable call_list : list (string * list (string * list (string * calls_tree))).

(** [os.path.splitext(os.path.basename(f))[0]]. *)
Variable stem : string -> string.

(** [find_module_calls]: the graph of the first file whose path holds
    [module]; [None] when there is none. *)
Definition find_module_calls (module : string) : option (list (string * calls_tree)) :=
  (fix dirs (l : list (string * list (string * list (string * calls_tree)))) :=
     match l with
     | [] => None
     | (_, files) :: rest =>
         match find (fun kv => PyStr.str_in module (fst kv)) files with
         | Some (_, graph) => Some graph
         | None => dirs rest
         end
     end) call_list.

Section Walk.

(** [file_in_call] at the current level, for the calls met below. *)
Variable file_in_call : option string -> list string -> res (bool * list string).

(** [extract_local_function]. *)
Fixpoint extract_local_function (m_calls_local : list (option string))
    (m_imports : list string) (flag_found : bool) : res (bool * list string) :=
  match m_calls_local with
  | [] => Ok (flag_found, m_imports)
  | call :: rest =>
      '(flag_found, m_imports) <- file_in_call call m_imports ;;
      if flag_found then Ok (flag_found, m_imports)
      else extract_local_function rest m_imports flag_found
  end.

(** [extract_data], with [extract_nested_function] as the loop [nested]:
    indexing a list by a key raises, and the value found under a key of a
    dictionary is the one listed with it. *)
Fixpoint extract_data (m_calls : calls_tree) (m_imports : list string) (flag_found : bool)
    {struct m_calls} : res (bool * list string) :=
  match m_calls with
  | Local [] => Ok (flag_found, m_imports)
  | Local (_ :: _) => Raise TypeError
  | Graph entries =>
      (fix loop (es : list (string * calls_tree)) (m_imports : list string)
           (flag_found : bool) {struct es} : res (bool * list string) :=
         match es with
         | [] => Ok (flag_found, m_imports)
         | (elem, sub) :: rest =>
             '(flag_found, m_imports) <-
                (if String.eqb elem "local" then
                   extract_local_function (items sub) m_imports flag_found
                 else if String.eqb elem "nested" then
                   (fix nested (calls : list (option string)) (m_imports : list string)
                        (flag_found : bool) {struct calls} : res (bool * list string) :=
                      match calls with
                      | [] => Ok (flag_found, m_imports)
                      | _ :: calls' =>
                          '(flag_found, m_imports) <- extract_data sub m_imports flag_found ;;
                          if flag_found then Ok (flag_found, m_imports)
                          else nested calls' m_imports flag_found
                      end) (items sub) m_imports flag_found
                 else extract_data sub m_imports flag_found) ;;
             if flag_found then Ok (flag_found, m_imports)
             else loop rest m_imports flag_found
         end) entries m_imports flag_found
  end.

End Walk.

(** The loop of [file_in_call] over the graph of another module. *)
Fixpoint extern_loop (walk : calls_tree -> list string -> bool -> res (bool * list string))
    (m_calls_extern : list (string * calls_tree)) (m_imports : list string)
    : res (bool * list string) :=
  match m_calls_extern with
  | [] => Ok (false, m_imports)
  | (_, sub) :: rest =>
      '(flag_found, m_imports) <- walk sub m_imports false ;;
      if flag_found then Ok (true, m_imports)
      else extern_loop walk rest m_imports
  end.

(** [file_in_call].  [remaining] is [level_depth - level], the number of
    hops to other modules still allowed (2 at the start). *)
Fixpoint file_in_call (remaining : nat) (base file orig_base : string)
    (call : option string) (m_imports : list string) : res (bool * list string) :=
  match call with
  | None => Raise TypeError
  | Some call =>
      if PyStr.str_in base call
         && (count_occ string_dec m_imports file =? 0)%nat
         && negb (PyStr.str_in orig_base call)
      then Ok (true, m_imports ++ [file])
      else if PyStr.str_in orig_base call then Ok (false, m_imports)
      else
        match remaining with
        | O => Ok (false, m_imports)
        | S remaining' =>
            module_base <- getitem (PyStr.split dot call) 0 ;;
            match find_module_calls module_base with
            | Some (_ :: _ as m_calls_extern) =>
                extern_loop
                  (extract_data (file_in_call remaining' base file orig_base))
                  m_calls_extern m_imports
            | _ => Ok (false, m_imports)
            end
        end
  end.

(** The loop of [extract_relations] over the functions of the file. *)
Fixpoint relations_of_file (base file orig_base : string)
    (m_calls : list (string * calls_tree)) (m_imports : list string) (flag_found : bool)
    : res (bool * list string) :=
  match m_calls with
  | [] => Ok (flag_found, m_imports)
  | (_, sub) :: rest =>
      '(flag_found, m_imports) <-
         extract_data (file_in_call 2 base file orig_base) sub m_imports flag_found ;;
      if flag_found then Ok (flag_found, m_imports)
      else relations_of_file base file orig_base rest m_imports flag_found
  end.

(** [extract_relations].  [m_calls] is what [find_file_calls] returned
    for the file, [None] when it found nothing. *)
Definition extract_relations (file_name : string)
    (m_calls : option (list (string * calls_tree))) (main_files : list string)
    : res (list string) :=
  let orig_base := (stem file_name ++ ".")%string in
  (fix files (l : list string) (m_imports : list string) : res (list string) :=
     match l with
     | [] => Ok m_imports
     | file :: rest =>
         if negb (PyStr.str_in file file_name) then
           let base := (stem file ++ ".")%string in
           match m_calls with
           | None => Raise TypeError
           | Some m_calls =>
               '(flag_found, m_imports) <-
                  relations_of_file base file orig_base m_calls m_imports false ;;
               if flag_found then Ok m_imports else files rest m_imports
           end
         else files rest m_imports
     end) main_files [].

End Resolver.

(** A step of the search either finds nothing and leaves the list of
    imports as it was, or finds [file] and appends it. *)
Definition step_ok (file : string) (m : list string) (r : bool * list string) : Prop :=
  (fst r = false /\ snd r = m) \/ (fst r = true /\ snd r = m ++ [file]).

Definition searcher_ok (file : string)
    (f : option string -> list string -> res (bool * list string)) : Prop :=
  forall call m r, f call m = Ok r -> step_ok file m r.

Definition walker_ok (file : string)
    (w : CallGraph.calls_tree -> list string -> bool -> res (bool * list string)) : Prop :=
  forall t m r, w t m false = Ok r -> step_ok file m r.

(** A directory with three main files: [run.py] calls into [tools.py]
    and into [report.py]. *)
Definition sample_stem (f : string) : string :=
  if String.eqb f "/repo/run.py" then "run"
  else if String.eqb f "/repo/tools.py" then "tools"
  else if String.eqb f "/repo/report.py" then "report"
  else f.

Definition run_calls : list (string * calls_tree) :=
  [("main", Graph [("local", Local [Some "tools.build"; Some "report.write"])])].

End Relations.

(** * Properties *)

(** ** Strings *)

Module PyStrFacts.
Import PyStr.

Lemma prefix_app (p s : string) :
  prefix p s = true <-> exists r, s = (p ++ r)%string.
Proof.
  revert s; induction p as [|c p IH]; intros s.
  - destruct s; simpl; (split; [intros _; eexists; reflexivity | reflexivity]).
  - destruct s as [|d s]; simpl.
    + split; [discriminate | intros [r Hr]; discriminate].
    + destruct (ascii_dec c d) as [->|Hne].
      * rewrite IH. split; intros [r Hr]; exists r; [now subst | now injection Hr].
      * split; [discriminate | intros [r Hr]; injection Hr; intros; congruence].
Qed.

Lemma str_in_nil (sub : string) : str_in sub "" = prefix sub "".
Proof. unfold str_in. now destruct (prefix sub ""). Qed.

Lemma str_in_cons (sub : string) (c : ascii) (s : string) :
  str_in sub (String c s) = prefix sub (String c s) || str_in sub s.
Proof.
  change (str_in sub (String c s))
    with (if prefix sub (String c s) then true else str_in sub s).
  now destruct (prefix sub (String c s)).
Qed.

(** [str_in] is the substring test. *)
Lemma str_in_spec (sub s : string) :
  str_in sub s = true <-> exists a b, s = (a ++ sub ++ b)%string.
Proof.
  induction s as [|c s IH].
  - rewrite str_in_nil, prefix_app. split.
    + intros [r Hr]. now exists "", r.
    + intros [a [b H]]. destruct a; simpl in H; [now exists b | discriminate].
  - rewrite str_in_cons, orb_true_iff, prefix_app, IH. split.
    + intros [[r Hr] | [a [b H]]].
      * now exists "", r.
      * exists (String c a), b. simpl. now rewrite H.
    + intros [a [b H]]. destruct a as [|d a]; simpl in H.
      * left. now exists b.
      * right. injection H as _ H. now exists a, b.
Qed.

Lemma split_nonempty (sep : ascii) (s : string) : split sep s <> [].
Proof.
  destruct s as [|c s]; simpl; [discriminate|].
  destruct (Ascii.eqb c sep); [discriminate|].
  destruct (split sep s); discriminate.
Qed.

End PyStrFacts.

(** ** The dominant software type *)

Lemma extract_software_type_loop_spec (l services scripts : list soft_info) :
  extract_software_type_loop l services scripts =
  match find is_library_or_package l with
  | Some entry => entry_type entry
  | None =>
      if (0 <? length services)%nat || existsb is_service l then "service"
      else if (0 <? length scripts)%nat || existsb is_script l then "script"
      else "not found"
  end.
Proof.
  revert services scripts; induction l as [|entry l IH]; intros services scripts; simpl.
  - now rewrite !orb_false_r.
  - destruct (is_library_or_package entry); [reflexivity|].
    rewrite IH. destruct (find is_library_or_package l); [reflexivity|].
    assert (Hlen : forall (xs : list soft_info) x, (0 <? length (xs ++ [x]))%nat = true).
    { intros xs x. rewrite length_app; simpl. apply Nat.ltb_lt. lia. }
    destruct (is_service entry), (is_script entry); simpl;
      rewrite ?Hlen, ?orb_true_r; simpl; reflexivity.
Qed.

(** C1. [extract_software_type] returns the type of the (first)
    library/package record when the list holds one; otherwise "service"
    when it holds a service record; otherwise "script" when it holds a
    script record of any kind; otherwise "not found". *)
Theorem extract_software_type_dominant (l : list soft_info) :
  extract_software_type l =
  match find is_library_or_package l with
  | Some entry => entry_type entry
  | None =>
      if existsb is_service l then "service"
      else if existsb is_script l then "script"
      else "not found"
  end.
Proof.
  unfold extract_software_type. now rewrite extract_software_type_loop_spec.
Qed.


(** ** Pruning JSON trees *)

Section JsonInduction.
Variable P : json -> Prop.
Hypothesis HNull : P JNull.
Hypothesis HBool : forall b, P (JBool b).
Hypothesis HNum : forall n, P (JNum n).
Hypothesis HStr : forall s, P (JStr s).
Hypothesis HList : forall elems, Forall P elems -> P (JList elems).
Hypothesis HDict : forall items, Forall (fun ab => P (snd ab)) items -> P (JDict items).

(** Induction over a tree with the hypothesis available for every
    element of a sequence and every value of a mapping. *)
Lemma json_tree_ind : forall j, P j.
Proof.
  fix IH 1. intros [ | b | n | s | elems | items].
  - exact HNull.
  - apply HBool.
  - apply HNum.
  - apply HStr.
  - apply HList. induction elems as [|e elems IHe]; constructor; [apply IH | exact IHe].
  - apply HDict. induction items as [|[k v] items IHi]; constructor; [apply IH | exact IHi].
Qed.
End JsonInduction.

Lemma key_eqb_eq (a b : key) : key_eqb a b = true <-> a = b.
Proof.
  destruct a as [s|n], b as [t|m]; simpl; try (split; [discriminate | intros H; discriminate]).
  - rewrite String.eqb_eq. split; [now intros -> | now intros [= ->]].
  - rewrite Z.eqb_eq. split; [now intros -> | now intros [= ->]].
Qed.

Lemma key_eqb_refl (a : key) : key_eqb a a = true.
Proof. now apply key_eqb_eq. Qed.


(** *** [dict_set] *)


Lemma dict_set_fresh {V : Type} (a : key) (v : V) (d : list (key * V)) :
  ~ In a (map fst d) -> dict_set a v d = d ++ [(a, v)].
Proof.
  induction d as [|[k w] d IH]; simpl; intros Hn; [reflexivity|].
  destruct (key_eqb k a) eqn:E.
  - apply key_eqb_eq in E. exfalso. apply Hn. now left.
  - rewrite IH; [reflexivity | intros Hin; apply Hn; now right].
Qed.




(** *** The loop of [prune_json] through [pruned_value] *)

Lemma prune_item_pruned_value (final_dict : list (key * json)) (a : key) (b : json) :
  prune_item prune_json final_dict (a, b) =
  match pruned_value b with
  | Some v => dict_set a v final_dict
  | None => final_dict
  end.
Proof.
  unfold prune_item, pruned_value.
  destruct (truthy b); [|reflexivity].
  destruct b; try reflexivity.
  - destruct (0 <? length (filter truthy (map prune_json elems)))%nat; reflexivity.
  - destruct (truthy (prune_json (JDict items))); reflexivity.
Qed.




Lemma prune_json_dict (items : list (key * json)) :
  prune_json (JDict items) = JDict (fold_left (prune_item prune_json) items []).
Proof. reflexivity. Qed.

Lemma prune_json_not_mapping (j : json) : is_mapping j = false -> prune_json j = j.
Proof. destruct j; simpl; congruence. Qed.

Lemma deep_truthy_unfold (j : json) : deep_truthy j = truthy j && no_empty_below j.
Proof. destruct j; reflexivity. Qed.

(** *** Nothing empty is left, but in a sequence nested in a sequence *)





(** *** Every kept key maps to a truthy value *)


(** *** The conditions are the exact ones *)

Module JsonShapeFacts.
Import JsonShape.

Lemma distinct_keys_NoDup (ks : list key) : distinct_keys ks = true <-> NoDup ks.
Proof.
  induction ks as [|k ks IH]; simpl.
  - split; [constructor | reflexivity].
  - rewrite andb_true_iff, negb_true_iff, IH. split.
    + intros [Hk Hks]. constructor; [|exact Hks]. intros Hin.
      assert (existsb (key_eqb k) ks = true)
        by (apply existsb_exists; exists k; split; [exact Hin | apply key_eqb_refl]).
      congruence.
    + intros H. inversion H as [|? ? Hk Hks]; subst. split; [|exact Hks].
      destruct (existsb (key_eqb k) ks) eqn:E; [|reflexivity].
      apply existsb_exists in E as [k' [Hin Heq]]. apply key_eqb_eq in Heq. subst k'. tauto.
Qed.

(** With distinct keys the loop of [prune_json] is a filter: the kept
    entries follow the accumulator in their order. *)
Lemma prune_loop_kept (items acc : list (key * json)) :
  NoDup (map fst (acc ++ items)) ->
  fold_left (prune_item prune_json) items acc = acc ++ kept_items items.
Proof.
  revert acc; induction items as [|[k b] items IH]; intros acc Hnd; cbn [fold_left].
  - unfold kept_items. simpl. now rewrite app_nil_r.
  - rewrite prune_item_pruned_value.
    unfold kept_items. cbn [flat_map fst snd]. fold (kept_items items).
    destruct (pruned_value b) as [v|] eqn:Ev.
    + assert (Hfresh : ~ In k (map fst acc)).
      { rewrite map_app in Hnd. simpl in Hnd. apply NoDup_remove_2 in Hnd.
        intros Hin. apply Hnd. apply in_or_app. now left. }
      rewrite (dict_set_fresh k v acc Hfresh), IH.
      * now rewrite <- app_assoc.
      * rewrite <- app_assoc. simpl. rewrite map_app in *. exact Hnd.
    + simpl. apply IH. rewrite map_app in *. simpl in Hnd.
      now apply NoDup_remove_1 in Hnd.
Qed.

End JsonShapeFacts.






(** *** Idempotence *)

Lemma refold_fixed (items acc : list (key * json)) :
  NoDup (map fst (acc ++ items)) ->
  Forall (fun kv => pruned_value (snd kv) = Some (snd kv)) items ->
  fold_left (prune_item prune_json) items acc = acc ++ items.
Proof.
  revert acc; induction items as [|[k v] items IH]; intros acc Hnd Hfix; cbn [fold_left].
  - now rewrite app_nil_r.
  - inversion Hfix as [|? ? Hv Hrest]; subst. simpl in Hv.
    rewrite prune_item_pruned_value, Hv.
    assert (Hfresh : ~ In k (map fst acc)).
    { rewrite map_app in Hnd. simpl in Hnd. apply NoDup_remove_2 in Hnd.
      intros Hin. apply Hnd. apply in_or_app. now left. }
    rewrite (dict_set_fresh k v acc Hfresh).
    replace (acc ++ (k, v) :: items) with ((acc ++ [(k, v)]) ++ items)
      by (now rewrite <- app_assoc).
    apply IH; [|exact Hrest]. now rewrite <- app_assoc.
Qed.



(** *** The claims on [prune_json] *)








(** ** Pruning in the object store *)

Module StoreFacts.
Import Store.

Lemma length_store (h : heap) (a : addr) (o : obj) : length (store h a o) = length h.
Proof.
  revert a; induction h as [|x h IH]; intros [|a]; simpl; auto.
Qed.

Lemma nth_error_store_same (h : heap) (a : addr) (o : obj) :
  a < length h -> nth_error (store h a o) a = Some o.
Proof.
  revert a; induction h as [|x h IH]; intros [|a]; simpl; intros H; try lia; auto.
  apply IH. lia.
Qed.

Lemma nth_error_store_other (h : heap) (a b : addr) (o : obj) :
  a <> b -> nth_error (store h a o) b = nth_error h b.
Proof.
  revert a b; induction h as [|x h IH]; intros [|a] [|b] Hne; simpl; auto; try congruence.
Qed.

Lemma setitem_other (h : heap) (fd : addr) (k : key) (v : pyval) (b : addr) :
  fd <> b -> nth_error (setitem h fd k v) b = nth_error h b.
Proof.
  intros Hne. unfold setitem. destruct (nth_error h fd) as [[items|elems]|]; auto.
  now apply nth_error_store_other.
Qed.

Lemma setitem_same (h : heap) (fd : addr) (k : key) (v : pyval) (items : list (key * pyval)) :
  nth_error h fd = Some (ODict items) ->
  nth_error (setitem h fd k v) fd = Some (ODict (dict_set k v items)).
Proof.
  intros H. unfold setitem. rewrite H. apply nth_error_store_same.
  apply nth_error_Some. congruence.
Qed.

Lemma length_setitem (h : heap) (fd : addr) (k : key) (v : pyval) :
  length (setitem h fd k v) = length h.
Proof.
  unfold setitem. destruct (nth_error h fd) as [[items|elems]|]; auto using length_store.
Qed.

Lemma heap_ext_refl (h : heap) : heap_ext h h.
Proof. intros a o H; exact H. Qed.

Lemma heap_ext_trans (h1 h2 h3 : heap) : heap_ext h1 h2 -> heap_ext h2 h3 -> heap_ext h1 h3.
Proof. intros H12 H23 a o H. auto. Qed.

Lemma heap_ext_alloc (h : heap) (o : obj) : heap_ext h (fst (alloc h o)).
Proof.
  intros a o' H. simpl. rewrite nth_error_app1; [exact H|].
  apply nth_error_Some. congruence.
Qed.

Lemma alloc_lookup (h : heap) (o : obj) :
  nth_error (fst (alloc h o)) (snd (alloc h o)) = Some o.
Proof. simpl. rewrite nth_error_app2, Nat.sub_diag; [reflexivity | lia]. Qed.

Lemma heap_ext_length (h h' : heap) : heap_ext h h' -> length h <= length h'.
Proof.
  intros Hext. destruct (Nat.le_gt_cases (length h) (length h')) as [|Hlt]; [assumption|].
  exfalso. assert (Hin : length h' < length h) by lia.
  apply nth_error_Some in Hin. destruct (nth_error h (length h')) as [o|] eqn:E; [|congruence].
  apply Hext in E. assert (nth_error h' (length h') = None) by (apply nth_error_None; lia).
  congruence.
Qed.

(** *** The frame: objects that exist before the call are not written *)

Lemma ext_except_of_ext fd h h' : heap_ext h h' -> ext_except fd h h'.
Proof. intros H a o _. apply H. Qed.

Lemma ext_except_trans fd h1 h2 h3 :
  ext_except fd h1 h2 -> ext_except fd h2 h3 -> ext_except fd h1 h3.
Proof. intros H12 H23 a o Hne H. auto. Qed.

Lemma ext_except_setitem fd h k v : ext_except fd h (setitem h fd k v).
Proof. intros a o Hne H. rewrite setitem_other; auto. Qed.

Lemma prune_elems_ext prune elems :
  keeps_objects prune ->
  forall h h' vs, prune_elems prune elems h = Some (h', vs) -> heap_ext h h'.
Proof.
  intros Hp. induction elems as [|i rest IH]; intros h h' vs; simpl.
  - intros [= <- <-]. apply heap_ext_refl.
  - destruct (prune h i) as [[h1 v]|] eqn:E1; [|discriminate].
    destruct (prune_elems prune rest h1) as [[h2 vs']|] eqn:E2; [|discriminate].
    intros [= <- <-]. eapply heap_ext_trans; eauto.
Qed.

Lemma prune_item_frame prune fd h ab h' :
  keeps_objects prune ->
  prune_item prune fd h ab = Some h' -> ext_except fd h h'.
Proof.
  intros Hp. destruct ab as [a b]. unfold prune_item.
  destruct (truthy_h h b); [|intros [= <-]; apply ext_except_of_ext, heap_ext_refl].
  destruct b as [ | | | |r];
    try (intros [= <-]; apply ext_except_setitem).
  destruct (nth_error h r) as [[items|elems]|]; [| |discriminate].
  - destruct (prune h (VRef r)) as [[h1 aux]|] eqn:E; [|discriminate].
    apply Hp in E.
    destruct (truthy_h h1 aux); intros [= <-].
    + eapply ext_except_trans; [apply ext_except_of_ext, E | apply ext_except_setitem].
    + now apply ext_except_of_ext.
  - destruct (prune_elems prune elems h) as [[h1 pruned]|] eqn:E; [|discriminate].
    apply (prune_elems_ext prune elems Hp) in E.
    cbv zeta. unfold alloc at 1 2.
    set (h2 := h1 ++ [OList pruned]).
    set (kept := filter (truthy_h h2) pruned).
    assert (E3 : heap_ext h ((h2 ++ [OList kept]))).
    { eapply heap_ext_trans; [exact E|].
      eapply heap_ext_trans; [apply (heap_ext_alloc h1 (OList pruned))|].
      apply (heap_ext_alloc h2 (OList kept)). }
    destruct (0 <? length kept)%nat; intros [= <-].
    + eapply ext_except_trans; [apply ext_except_of_ext, E3 | apply ext_except_setitem].
    + now apply ext_except_of_ext.
Qed.

Lemma prune_items_frame prune fd items :
  keeps_objects prune ->
  forall h h', prune_items prune fd items h = Some h' -> ext_except fd h h'.
Proof.
  intros Hp. induction items as [|ab rest IH]; intros h h'; simpl.
  - intros [= <-]. apply ext_except_of_ext, heap_ext_refl.
  - destruct (prune_item prune fd h ab) as [h1|] eqn:E; [|discriminate].
    intros H. eapply ext_except_trans; [eapply prune_item_frame; eauto | eauto].
Qed.

Lemma prune_json_frame (fuel : nat) : keeps_objects (prune_json fuel).
Proof.
  induction fuel as [|fuel IH]; intros h v h' v'; simpl; [discriminate|].
  assert (H0 : heap_ext h (h ++ [ODict []])) by apply (heap_ext_alloc h (ODict [])).
  destruct v as [ | | | |a]; try (intros [= <- <-]; exact H0).
  destruct (nth_error (h ++ [ODict []]) a) as [[items|elems]|]; [| |discriminate].
  - destruct (prune_items (prune_json fuel) (length h) items (h ++ [ODict []])) as [h1|] eqn:E;
      [|discriminate].
    intros [= <- <-]. apply (prune_items_frame _ _ _ IH) in E.
    intros b o Hb. apply E; [|now apply H0].
    assert (b < length h) by (apply nth_error_Some; congruence). lia.
  - intros [= <- <-]; exact H0.
Qed.

(** *** Reading trees back from the store *)

Lemma load_list_transport (f g : pyval -> option json) (vs : list pyval) (ts : list json) :
  (forall v t, In v vs -> f v = Some t -> g v = Some t) ->
  load_list f vs = Some ts -> load_list g vs = Some ts.
Proof.
  revert ts; induction vs as [|v vs IH]; intros ts Hfg; simpl; [auto|].
  destruct (f v) as [t|] eqn:Ev; [|discriminate].
  destruct (load_list f vs) as [ts'|] eqn:Evs; [|discriminate].
  intros [= <-]. rewrite (Hfg v t (or_introl eq_refl) Ev).
  rewrite (IH ts'); auto. intros v' t' Hin. apply Hfg. now right.
Qed.

Lemma load_items_transport (f g : pyval -> option json) (its : list (key * pyval))
    (items : list (key * json)) :
  (forall v t, In v (map snd its) -> f v = Some t -> g v = Some t) ->
  load_items f its = Some items -> load_items g its = Some items.
Proof.
  revert items; induction its as [|[k v] its IH]; intros items Hfg; simpl; [auto|].
  destruct (f v) as [t|] eqn:Ev; [|discriminate].
  destruct (load_items f its) as [ts'|] eqn:Evs; [|discriminate].
  intros [= <-]. rewrite (Hfg v t (or_introl eq_refl) Ev).
  rewrite (IH ts'); auto. intros v' t' Hin. apply Hfg. now right.
Qed.

Lemma load_list_length f vs ts : load_list f vs = Some ts -> length ts = length vs.
Proof.
  revert ts; induction vs as [|v vs IH]; intros ts; simpl.
  - now intros [= <-].
  - destruct (f v); [|discriminate]. destruct (load_list f vs) as [ts'|]; [|discriminate].
    intros [= <-]. simpl. f_equal. now apply IH.
Qed.

Lemma load_items_length f its items : load_items f its = Some items -> length items = length its.
Proof.
  revert items; induction its as [|[k v] its IH]; intros items; simpl.
  - now intros [= <-].
  - destruct (f v); [|discriminate]. destruct (load_items f its) as [ts'|]; [|discriminate].
    intros [= <-]. simpl. f_equal. now apply IH.
Qed.

(** A value read under [ok] in [h] reads the same under [ok'] in [h2]
    when every object met on the way is allowed and kept. *)
Lemma load_in_transport (ok ok' : addr -> bool) (h h2 : heap) :
  (forall a o, ok a = true -> nth_error h a = Some o ->
               ok' a = true /\ nth_error h2 a = Some o) ->
  forall m v t, load_in ok m h v = Some t -> load_in ok' m h2 v = Some t.
Proof.
  intros Hok. induction m as [|m IH]; intros v t; simpl; [discriminate|].
  destruct v as [ | | | |a]; auto.
  destruct (ok a) eqn:Ea; [|discriminate].
  destruct (nth_error h a) as [o|] eqn:Eo; [|discriminate].
  destruct (Hok a o Ea Eo) as [-> ->].
  destruct o as [its|vs].
  - destruct (load_items (load_in ok m h) its) as [items|] eqn:E; [|discriminate].
    intros [= <-]. erewrite load_items_transport; [reflexivity| |exact E]. auto.
  - destruct (load_list (load_in ok m h) vs) as [l|] eqn:E; [|discriminate].
    intros [= <-]. erewrite load_list_transport; [reflexivity| |exact E]. auto.
Qed.

Lemma load_in_all (m : nat) (h : heap) (v : pyval) :
  load_in (fun _ => true) m h v = load m h v.
Proof.
  revert v; induction m as [|m IH]; intros v; simpl; [reflexivity|].
  destruct v as [ | | | |a]; auto.
  destruct (nth_error h a) as [[its|vs]|]; auto.
  - f_equal. induction its as [|[k v] its IHi]; simpl; [reflexivity|].
    now rewrite IH, IHi.
  - f_equal. induction vs as [|v vs IHv]; simpl; [reflexivity|].
    now rewrite IH, IHv.
Qed.

Lemma load_in_truthy ok m h v t : load_in ok m h v = Some t -> truthy_h h v = truthy t.
Proof.
  destruct m as [|m]; [discriminate|].
  destruct v as [ | | | |a]; simpl; try (now intros [= <-]).
  destruct (ok a); [|discriminate].
  destruct (nth_error h a) as [[its|vs]|]; [| |discriminate].
  - destruct (load_items (load_in ok m h) its) as [items|] eqn:E; [|discriminate].
    intros [= <-]. apply load_items_length in E. simpl.
    destruct its, items; simpl in *; congruence.
  - destruct (load_list (load_in ok m h) vs) as [l|] eqn:E; [|discriminate].
    intros [= <-]. apply load_list_length in E. simpl.
    destruct vs, l; simpl in *; congruence.
Qed.

Lemma load_in_S_ref ok m h a :
  load_in ok (S m) h (VRef a) =
  if ok a then
    match nth_error h a with
    | Some (OList vs) => option_map JList (load_list (load_in ok m h) vs)
    | Some (ODict its) => option_map JDict (load_items (load_in ok m h) its)
    | None => None
    end
  else None.
Proof. reflexivity. Qed.

Lemma load_in_ref_inv ok m h a t :
  load_in ok m h (VRef a) = Some t ->
  exists m', m = S m' /\ ok a = true /\
    ((exists vs l, nth_error h a = Some (OList vs) /\
                   load_list (load_in ok m' h) vs = Some l /\ t = JList l) \/
     (exists its items, nth_error h a = Some (ODict its) /\
                   load_items (load_in ok m' h) its = Some items /\ t = JDict items)).
Proof.
  destruct m as [|m]; [discriminate|]. rewrite load_in_S_ref.
  intros H. exists m. split; [reflexivity|].
  destruct (ok a); [|discriminate]. split; [reflexivity|].
  destruct (nth_error h a) as [[its|vs]|]; [| |discriminate].
  - right. destruct (load_items (load_in ok m h) its) as [items|] eqn:E; [|discriminate].
    injection H as <-. exists its, items. auto.
  - left. destruct (load_list (load_in ok m h) vs) as [l|] eqn:E; [|discriminate].
    injection H as <-. exists vs, l. auto.
Qed.

Lemma load_in_leaf ok m h v t :
  load_in ok m h v = Some t -> (forall a, v <> VRef a) ->
  is_mapping t = false /\ is_sequence t = false /\
  forall ok' h', load_in ok' m h' v = Some t.
Proof.
  destruct m as [|m]; simpl; [discriminate|].
  destruct v as [ | | | |a]; intros H Hv; try (injection H as <-; auto).
  now destruct (Hv a).
Qed.

Lemma load_items_dict_set f k v t acc_h acc :
  load_items f acc_h = Some acc -> f v = Some t ->
  load_items f (dict_set k v acc_h) = Some (dict_set k t acc).
Proof.
  revert acc; induction acc_h as [|[k' v'] acc_h IH]; intros acc; simpl.
  - intros [= <-] Hv. now rewrite Hv.
  - destruct (f v') as [t'|] eqn:Ev'; [|discriminate].
    destruct (load_items f acc_h) as [acc'|] eqn:E; [|discriminate].
    intros [= <-] Hv. simpl. destruct (key_eqb k' k); simpl.
    + now rewrite Hv, E.
    + now rewrite Ev', (IH acc' eq_refl Hv).
Qed.

Lemma load_list_filter f (p : pyval -> bool) vs ts :
  load_list f vs = Some ts ->
  (forall v t, In v vs -> f v = Some t -> p v = truthy t) ->
  load_list f (filter p vs) = Some (filter truthy ts).
Proof.
  revert ts; induction vs as [|v vs IH]; intros ts; simpl.
  - now intros [= <-].
  - destruct (f v) as [t|] eqn:Ev; [|discriminate].
    destruct (load_list f vs) as [ts'|] eqn:E; [|discriminate].
    intros [= <-] Hp. simpl. rewrite (Hp v t (or_introl eq_refl) Ev).
    assert (IH' : load_list f (filter p vs) = Some (filter truthy ts')).
    { apply IH; [reflexivity|]. intros v' t' Hin. apply Hp. now right. }
    destruct (truthy t); simpl; [now rewrite Ev, IH' | exact IH'].
Qed.

Lemma load_in_ext ok m h h' v t :
  heap_ext h h' -> load_in ok m h v = Some t -> load_in ok m h' v = Some t.
Proof. intros Hext. apply load_in_transport. intros a o Ha Ho. split; auto. Qed.

Lemma load_in_ext_except ok fd m h h' v t :
  ok fd = false -> ext_except fd h h' ->
  load_in ok m h v = Some t -> load_in ok m h' v = Some t.
Proof.
  intros Hfd Hext. apply load_in_transport. intros a o Ha Ho. split; [exact Ha|].
  apply Hext; [congruence | exact Ho].
Qed.

(** *** The store version computes the pruned tree *)

Section Loop.
Variable prune : heap -> pyval -> option (heap * pyval).
Variable N : nat.
Hypothesis Hspec : prune_spec prune N.
Hypothesis Hkeeps : keeps_objects prune.

(** The addresses the loop may read through: everything allocated
    after [final_dict], never [final_dict] itself. *)
Variable ok : addr -> bool.
Variable fd : addr.
Hypothesis ok_fd : ok fd = false.
Hypothesis ok_above : forall a, fd < a -> ok a = true.

Lemma prune_call m h v t :
  m <= N -> fd < length h -> load_in ok m h v = Some t ->
  exists h' v', prune h v = Some (h', v') /\ heap_ext h h' /\
    load_in ok m h' v' = Some (Json.prune_json t).
Proof.
  intros Hm Hlen Hv. destruct (Hspec m ok h v t Hm Hv) as [h' [v' [Hp Hl]]].
  exists h', v'. split; [exact Hp|]. split; [now apply Hkeeps in Hp|].
  revert Hl. apply load_in_transport. intros a o Ha Ho. split; [|exact Ho].
  unfold widen in Ha. apply orb_true_iff in Ha as [Ha|Ha]; [exact Ha|].
  apply ok_above. apply Nat.leb_le in Ha. lia.
Qed.

Lemma prune_elems_refines m :
  m <= N ->
  forall vs l h, fd < length h -> load_list (load_in ok m h) vs = Some l ->
  exists h' pruned, prune_elems prune vs h = Some (h', pruned) /\ heap_ext h h' /\
    load_list (load_in ok m h') pruned = Some (map Json.prune_json l).
Proof.
  intros Hm. induction vs as [|v vs IH]; intros l h Hlen; simpl.
  - intros [= <-]. exists h, []. repeat split. apply heap_ext_refl.
  - destruct (load_in ok m h v) as [t|] eqn:Ev; [|discriminate].
    destruct (load_list (load_in ok m h) vs) as [l'|] eqn:Evs; [|discriminate].
    intros [= <-].
    destruct (prune_call m h v t Hm Hlen Ev) as [h1 [v1 [Hp [Hext1 Hl1]]]].
    assert (Hlen1 : fd < length h1) by (apply heap_ext_length in Hext1; lia).
    assert (Evs1 : load_list (load_in ok m h1) vs = Some l').
    { revert Evs. apply load_list_transport. intros v' t' _. now apply load_in_ext. }
    destruct (IH l' h1 Hlen1 Evs1) as [h2 [pruned [Hpe [Hext2 Hl2]]]].
    exists h2, (v1 :: pruned). rewrite Hp, Hpe. split; [reflexivity|].
    split; [eapply heap_ext_trans; eauto|].
    simpl. now rewrite (load_in_ext _ _ _ _ _ _ Hext2 Hl1), Hl2.
Qed.

(** One round of the loop: the dictionary at [final_dict] goes from a
    representation of [acc] to one of the tree-level round. *)
Lemma prune_item_refines m h acc_h acc k b tb :
  m <= N -> fd < length h ->
  nth_error h fd = Some (ODict acc_h) ->
  load_items (load_in ok m h) acc_h = Some acc ->
  load_in ok m h b = Some tb ->
  exists h1 acc_h1, prune_item prune fd h (k, b) = Some h1 /\
    fd < length h1 /\
    nth_error h1 fd = Some (ODict acc_h1) /\
    load_items (load_in ok m h1) acc_h1 = Some (Json.prune_item Json.prune_json acc (k, tb)).
Proof.
  intros Hm Hlen Hfd Hacc Hb.
  assert (Hstore : forall h1 v t,
    heap_ext h h1 -> load_in ok m h1 v = Some t ->
    exists h2 acc_h2, Some (setitem h1 fd k v) = Some h2 /\ fd < length h2 /\
      nth_error h2 fd = Some (ODict acc_h2) /\
      load_items (load_in ok m h2) acc_h2 = Some (dict_set k t acc)).
  { intros h1 v t Hext Hv. exists (setitem h1 fd k v), (dict_set k v acc_h).
    assert (Hfd1 : nth_error h1 fd = Some (ODict acc_h)) by now apply Hext.
    split; [reflexivity|]. split.
    { rewrite length_setitem. apply heap_ext_length in Hext. lia. }
    split; [now apply setitem_same|].
    apply load_items_dict_set.
    - revert Hacc. apply load_items_transport. intros v' t' _ Hv'.
      apply (load_in_ext_except ok fd m h1); [exact ok_fd | apply ext_except_setitem|].
      now apply (load_in_ext ok m h).
    - apply (load_in_ext_except ok fd m h1); [exact ok_fd | apply ext_except_setitem | exact Hv]. }
  assert (Hskip : forall h1, heap_ext h h1 ->
    exists h2 acc_h2, Some h1 = Some h2 /\ fd < length h2 /\
      nth_error h2 fd = Some (ODict acc_h2) /\
      load_items (load_in ok m h2) acc_h2 = Some acc).
  { intros h1 Hext. exists h1, acc_h. split; [reflexivity|].
    split; [apply heap_ext_length in Hext; lia|]. split; [now apply Hext|].
    revert Hacc. apply load_items_transport. intros v' t' _. now apply load_in_ext. }
  unfold prune_item, Json.prune_item.
  rewrite (load_in_truthy _ _ _ _ _ Hb).
  destruct (truthy tb) eqn:Htb; [|apply Hskip, heap_ext_refl].
  destruct b as [ | | | |r];
    try (assert (Hleaf : is_mapping tb = false /\ is_sequence tb = false)
           by (destruct (fun H => load_in_leaf _ _ _ _ _ Hb H) as [? [? _]];
               [intros; discriminate | auto]);
         destruct Hleaf as [Hm' Hs'];
         destruct tb; try discriminate;
         (apply Hstore; [apply heap_ext_refl | exact Hb])).
  destruct (load_in_ref_inv _ _ _ _ _ Hb) as
    [m' [-> [Hr [[vs [l [Hvs [Hl ->]]]] | [its [items [Hits [Hl ->]]]]]]]]; rewrite ?Hvs, ?Hits.
  - (* a list: its elements are pruned, then filtered *)
    assert (Hm' : m' <= N) by lia.
    destruct (prune_elems_refines m' Hm' vs l h Hlen Hl) as [h1 [pruned [Hpe [Hext1 Hl1]]]].
    rewrite Hpe. cbv zeta. unfold alloc.
    set (h2 := h1 ++ [OList pruned]).
    set (kept := filter (truthy_h h2) pruned).
    set (h3 := h2 ++ [OList kept]).
    assert (Hext2 : heap_ext h1 h2) by apply (heap_ext_alloc h1 (OList pruned)).
    assert (Hext3 : heap_ext h2 h3) by apply (heap_ext_alloc h2 (OList kept)).
    assert (Hext : heap_ext h h3) by (eapply heap_ext_trans; [|eapply heap_ext_trans]; eauto).
    assert (Hl2 : load_list (load_in ok m' h2) pruned = Some (map Json.prune_json l)).
    { revert Hl1. apply load_list_transport. intros v' t' _. now apply load_in_ext. }
    assert (Hkept : load_list (load_in ok m' h2) kept =
                    Some (filter truthy (map Json.prune_json l))).
    { apply load_list_filter; [exact Hl2|]. intros v' t' _. apply load_in_truthy. }
    assert (Hlenk : length kept = length (filter truthy (map Json.prune_json l))).
    { symmetry. eapply load_list_length; eauto. }
    rewrite Hlenk.
    destruct (0 <? length (filter truthy (map Json.prune_json l)))%nat; [|now apply Hskip].
    apply Hstore; [exact Hext|].
    rewrite load_in_S_ref.
    assert (Hlen1 : fd < length h1) by (apply heap_ext_length in Hext1; lia).
    rewrite ok_above by (subst h2; rewrite length_app; simpl; lia).
    change (nth_error h3 (length h2)) with
      (nth_error (fst (alloc h2 (OList kept))) (snd (alloc h2 (OList kept)))).
    rewrite alloc_lookup.
    erewrite load_list_transport; [reflexivity| |exact Hkept].
    intros v' t' _. now apply load_in_ext.
  - (* a dictionary: pruned by the recursive call *)
    destruct (prune_call (S m') h (VRef r) (JDict items) Hm Hlen Hb) as [h1 [aux [Hp [Hext1 Hl1]]]].
    rewrite Hp. rewrite (load_in_truthy _ _ _ _ _ Hl1).
    destruct (truthy (Json.prune_json (JDict items))); [|now apply Hskip].
    now apply Hstore.
Qed.

Lemma prune_items_refines m :
  m <= N ->
  forall its items h acc_h acc, fd < length h ->
  nth_error h fd = Some (ODict acc_h) ->
  load_items (load_in ok m h) acc_h = Some acc ->
  load_items (load_in ok m h) its = Some items ->
  exists h' acc_h', prune_items prune fd its h = Some h' /\
    nth_error h' fd = Some (ODict acc_h') /\
    load_items (load_in ok m h') acc_h' =
      Some (fold_left (Json.prune_item Json.prune_json) items acc).
Proof.
  intros Hm. induction its as [|[k b] its IH]; intros items h acc_h acc Hlen Hfd Hacc;
    cbn [prune_items load_items].
  - intros [= <-]. exists h, acc_h. auto.
  - destruct (load_in ok m h b) as [tb|] eqn:Eb; [|discriminate].
    destruct (load_items (load_in ok m h) its) as [items'|] eqn:Eits; [|discriminate].
    intros [= <-].
    destruct (prune_item_refines m h acc_h acc k b tb Hm Hlen Hfd Hacc Eb)
      as [h1 [acc_h1 [Hstep [Hlen1 [Hfd1 Hacc1]]]]].
    rewrite Hstep.
    assert (Eits1 : load_items (load_in ok m h1) its = Some items').
    { revert Eits. apply load_items_transport. intros v' t' _.
      apply (load_in_ext_except ok fd m h); [exact ok_fd|].
      eapply prune_item_frame; eauto. }
    destruct (IH items' h1 acc_h1 _ Hlen1 Hfd1 Hacc1 Eits1) as [h' [acc_h' [Hrest [Hfd' Hacc']]]].
    exists h', acc_h'. auto.
Qed.
End Loop.

Lemma prune_json_spec (N : nat) : prune_spec (prune_json N) N.
Proof.
  induction N as [|N IH]; intros m ok h v t Hm Hv.
  - destruct m; [discriminate | lia].
  - cbn [prune_json]. unfold alloc.
    set (fd := length h). set (h0 := h ++ [ODict []]).
    assert (Hext0 : heap_ext h h0) by apply (heap_ext_alloc h (ODict [])).
    assert (Hwiden : forall v' t', load_in ok m h v' = Some t' ->
                                   load_in (widen ok fd) m h0 v' = Some t').
    { intros v' t'. apply load_in_transport. intros a o Ha Ho.
      split; [unfold widen; now rewrite Ha | now apply Hext0]. }
    assert (Hsame : is_mapping t = false ->
              exists h' v', Some (h0, v) = Some (h', v') /\
                load_in (widen ok fd) m h' v' = Some (Json.prune_json t)).
    { intros Hmp. exists h0, v. rewrite (prune_json_not_mapping _ Hmp). auto. }
    destruct v as [ | | | |a];
      try (apply Hsame;
           destruct (fun H => load_in_leaf _ _ _ _ _ Hv H) as [Hmp _];
           [intros; discriminate | exact Hmp]).
    destruct (load_in_ref_inv _ _ _ _ _ Hv) as
      [m' [-> [Hr [[vs [l [Hvs [Hl ->]]]] | [its [items [Hits [Hl ->]]]]]]]].
    + rewrite (Hext0 _ _ Hvs). now apply Hsame.
    + rewrite (Hext0 _ _ Hits).
      set (okL := fun x => negb (x =? fd)%nat && widen ok fd x).
      assert (okL_fd : okL fd = false) by (unfold okL; now rewrite Nat.eqb_refl).
      assert (okL_above : forall x, fd < x -> okL x = true).
      { intros x Hx. unfold okL, widen.
        assert (E1 : (x =? fd)%nat = false) by (apply Nat.eqb_neq; lia).
        assert (E2 : (fd <=? x)%nat = true) by (apply Nat.leb_le; lia).
        now rewrite E1, E2, orb_true_r. }
      assert (Hlen0 : fd < length h0) by (subst h0 fd; rewrite length_app; simpl; lia).
      assert (Hfd0 : nth_error h0 fd = Some (ODict [])) by apply (alloc_lookup h (ODict [])).
      assert (Hits0 : load_items (load_in okL m' h0) its = Some items).
      { revert Hl. apply load_items_transport. intros v' t' _.
        apply load_in_transport. intros x o Hx Ho. split; [|now apply Hext0].
        assert (x < fd) by (apply nth_error_Some; congruence).
        unfold okL, widen. rewrite Hx.
        assert (E1 : (x =? fd)%nat = false) by (apply Nat.eqb_neq; lia).
        now rewrite E1. }
      destruct (prune_items_refines (prune_json N) N IH (prune_json_frame N) okL fd
                  okL_fd okL_above m' ltac:(lia) its items h0 [] [] Hlen0 Hfd0 eq_refl Hits0)
        as [h' [acc_h' [Hloop [Hfd' Hacc']]]].
      rewrite Hloop. exists h', (VRef fd). split; [reflexivity|].
      rewrite load_in_S_ref.
      assert (Ew : widen ok fd fd = true).
      { unfold widen. rewrite Nat.leb_refl. apply orb_true_r. }
      rewrite Ew, Hfd'.
      erewrite load_items_transport; [reflexivity| |exact Hacc'].
      intros v' t' _. apply load_in_transport. intros x o Hx Ho. split; [|exact Ho].
      unfold okL in Hx. now apply andb_true_iff in Hx.
Qed.

(** The store version, run on a value that reads back as the tree [t],
    returns a value that reads back as the pruned tree, and the argument
    still reads back as [t]. *)
Lemma prune_json_refines (m fuel : nat) (h : heap) (v : pyval) (t : json) :
  m <= fuel -> load m h v = Some t ->
  exists h' v', prune_json fuel h v = Some (h', v') /\
    heap_ext h h' /\
    load m h' v = Some t /\
    load m h' v' = Some (Json.prune_json t).
Proof.
  intros Hm Hv. rewrite <- load_in_all in Hv.
  destruct (prune_json_spec fuel m _ h v t Hm Hv) as [h' [v' [Hp Hl]]].
  exists h', v'. split; [exact Hp|].
  assert (Hext : heap_ext h h') by now apply prune_json_frame in Hp.
  split; [exact Hext|]. split.
  - rewrite <- load_in_all. now apply (load_in_ext _ _ h).
  - rewrite <- load_in_all. revert Hl. apply load_in_transport. auto.
Qed.

End StoreFacts.

(** C10. [prune_json] writes to no object that exists when it is called:
    every object of the store is the same after the call, whatever the
    store holds.  On a report that reads as the tree [t], the call
    returns, the result reads as the pruned tree, and the report itself,
    which [file_json] hands back to its caller next to the written
    artifact, still reads as [t], empty fields included. *)
Theorem prune_json_leaves_argument_unchanged
    (fuel : nat) (h : Store.heap) (file_dict : Store.pyval) :
  (forall h' v', Store.prune_json fuel h file_dict = Some (h', v') -> Store.heap_ext h h') /\
  (forall t, Store.load fuel h file_dict = Some t ->
     exists h' v', Store.prune_json fuel h file_dict = Some (h', v') /\
       Store.load fuel h' file_dict = Some t /\
       Store.load fuel h' v' = Some (prune_json t)) /\
  (forall t json_file, Store.load fuel h file_dict = Some t ->
     exists h', Store.file_json fuel h file_dict json_file =
                  Some (h', (file_dict, json_file), prune_json t) /\
       Store.load fuel h' file_dict = Some t).
Proof.
  split; [|split].
  - intros h' v'. apply StoreFacts.prune_json_frame.
  - intros t Ht.
    destruct (StoreFacts.prune_json_refines fuel fuel h file_dict t (le_n _) Ht)
      as [h' [v' [Hp [_ [Harg Hres]]]]].
    exists h', v'. auto.
  - intros t json_file Ht.
    destruct (StoreFacts.prune_json_refines fuel fuel h file_dict t (le_n _) Ht)
      as [h' [v' [Hp [_ [Harg Hres]]]]].
    exists h'. unfold Store.file_json. rewrite Hp, Hres. auto.
Qed.

Lemma prune_json_leaves_argument_unchanged_witness :
  Store.load 3 Store.sample_heap (Store.VRef 0) = Some Store.sample_tree /\
  (exists h' v', Store.prune_json 3 Store.sample_heap (Store.VRef 0) = Some (h', v') /\
     Store.heap_ext Store.sample_heap h' /\
     Store.load 3 h' (Store.VRef 0) = Some Store.sample_tree /\
     Store.load 3 h' v' = Some (JDict [(KStr "calls", JList [JStr "f"]); (KStr "name", JStr "a")])) /\
  (exists h', Store.file_json 3 Store.sample_heap (Store.VRef 0) "a.json" =
                Some (h', (Store.VRef 0, "a.json"), prune_json Store.sample_tree) /\
     Store.load 3 h' (Store.VRef 0) = Some Store.sample_tree).
Proof.
  destruct (prune_json_leaves_argument_unchanged 3 Store.sample_heap (Store.VRef 0))
    as [Hframe [Hres Hfile]].
  split; [reflexivity|]. split.
  - destruct (Hres Store.sample_tree eq_refl) as [h' [v' [Hp [Harg Hv']]]].
    exists h', v'. split; [exact Hp|]. split; [exact (Hframe h' v' Hp)|].
    split; [exact Harg | exact Hv'].
  - exact (Hfile Store.sample_tree "a.json" eq_refl).
Defined.


(** ** File-level features *)

Module PathFacts.
Import PyStr PyStrFacts PosixPath.

Lemma prefix_char (c d : ascii) (s : string) :
  prefix (String c "") (String d s) = Ascii.eqb d c.
Proof.
  simpl. destruct (ascii_dec c d) as [->|Hne].
  - rewrite Ascii.eqb_refl. now destruct s.
  - symmetry. apply Ascii.eqb_neq. congruence.
Qed.

Lemma split_cons (sep c : ascii) (s : string) :
  split sep (String c s) =
  if Ascii.eqb c sep then "" :: split sep s
  else match split sep s with
       | [] => [String c ""]
       | piece :: pieces => String c piece :: pieces
       end.
Proof. reflexivity. Qed.

(** Without the separator there is one piece; with it, the first piece is
    the text before its first occurrence and the other pieces are those
    of the text after it. *)
Lemma split_no_sep (sep : ascii) (s : string) :
  str_in (String sep "") s = false -> split sep s = [s].
Proof.
  induction s as [|c s IH]; [reflexivity|].
  rewrite str_in_cons, prefix_char, split_cons. intros H.
  apply orb_false_iff in H as [Hc Hs]. rewrite Hc, (IH Hs). reflexivity.
Qed.

Lemma split_first_sep (sep : ascii) (s : string) :
  str_in (String sep "") s = true ->
  split sep s = before_first sep s :: split sep (after_first sep s).
Proof.
  induction s as [|c s IH]; [discriminate|].
  rewrite str_in_cons, prefix_char, split_cons. simpl.
  destruct (Ascii.eqb c sep); simpl; [reflexivity|].
  intros Hs. now rewrite (IH Hs).
Qed.

Lemma before_first_no_sep (sep : ascii) (s : string) :
  str_in (String sep "") s = false -> before_first sep s = s.
Proof.
  induction s as [|c s IH]; [reflexivity|].
  rewrite str_in_cons, prefix_char. intros H.
  apply orb_false_iff in H as [Hc Hs]. simpl. now rewrite Hc, (IH Hs).
Qed.

Lemma split_second (sep : ascii) (s : string) :
  str_in (String sep "") s = true ->
  nth_error (split sep s) 1 = Some (before_first sep (after_first sep s)).
Proof.
  intros H. rewrite (split_first_sep sep s H). simpl.
  destruct (str_in (String sep "") (after_first sep s)) eqn:E.
  - now rewrite (split_first_sep _ _ E).
  - now rewrite (split_no_sep _ _ E), (before_first_no_sep _ _ E).
Qed.

Lemma isabs_app (a b : string) : isabs a = true -> isabs (a ++ b) = true.
Proof.
  unfold isabs, startswith. intros H. apply prefix_app in H as [r ->].
  apply prefix_app. exists (r ++ b)%string. reflexivity.
Qed.

Lemma normpath_isabs (p : string) : isabs p = true -> isabs (normpath p) = true.
Proof.
  intros H. unfold normpath.
  destruct p as [|c p]; [discriminate|].
  change (String c p =? "")%string with false. cbv iota.
  unfold isabs in H. rewrite H.
  destruct (startswith (String c p) "//" && negb (startswith (String c p) "///"));
    cbv zeta iota;
    match goal with |- context [PyStr.join ?a ?b] => generalize (PyStr.join a b) end;
    intros joined; cbn [append nonempty];
    unfold isabs, startswith; apply prefix_app; eexists; reflexivity.
Qed.

Lemma join_isabs (cwd p : string) : isabs cwd = true -> isabs (join cwd p) = true.
Proof.
  intros H. unfold join.
  destruct (startswith p "/") eqn:Ep; [exact Ep|].
  destruct (negb (nonempty cwd) || endswith cwd "/"); now apply isabs_app.
Qed.

Lemma abspath_isabs (cwd p : string) : isabs cwd = true -> isabs (abspath cwd p) = true.
Proof.
  intros H. unfold abspath. destruct (isabs p) eqn:Ep.
  - now apply normpath_isabs.
  - now apply normpath_isabs, join_isabs.
Qed.

End PathFacts.

(** C2, as stated, fails: for [a.test.py] the recorded extension is
    [test], the second piece of the name split on its dots, while the
    text after the first dot is [test.py]. *)
Lemma inspect_file_extension_two_dots :
  exists info, inspect_file "/repo" "pkg/a.test.py" None None None = Ok info /\
    extension info = "test" /\
    PyStr.after_first dot (PosixPath.basename "pkg/a.test.py") = "test.py" /\
    extension info <> PyStr.after_first dot (PosixPath.basename "pkg/a.test.py").
Proof.
  eexists. split; [reflexivity|]. repeat split. discriminate.
Qed.

(** C2, amended.  For a file whose name holds a dot, [inspect_file]
    returns a record whose [path] is absolute and whose [extension] is the
    text between the first dot of the file name and the next one (all the
    text after the first dot when there is no second dot). *)
Theorem inspect_file_extension (cwd self_path : string)
    (ds_m docstring_long docstring_short : option string) :
  PosixPath.isabs cwd = true ->
  PyStr.str_in "." (PosixPath.basename self_path) = true ->
  exists info,
    inspect_file cwd self_path ds_m docstring_long docstring_short = Ok info /\
    PosixPath.isabs (path info) = true /\
    extension info =
      PyStr.before_first dot (PyStr.after_first dot (PosixPath.basename self_path)) /\
    (PyStr.str_in "." (PyStr.after_first dot (PosixPath.basename self_path)) = false ->
     extension info = PyStr.after_first dot (PosixPath.basename self_path)).
Proof.
  intros Hcwd Hdot. unfold inspect_file.
  pose proof (PathFacts.split_first_sep dot _ Hdot) as Hsplit.
  pose proof (PathFacts.split_second dot _ Hdot) as Hsecond.
  unfold getitem. rewrite Hsecond, Hsplit. cbn [nth_error bind].
  eexists. split; [reflexivity|]. cbn [path extension]. split; [now apply PathFacts.abspath_isabs|].
  split; [reflexivity|]. intros Hone. now apply PathFacts.before_first_no_sep.
Qed.

Lemma inspect_file_extension_witness :
  PosixPath.isabs "/repo" = true /\
  PyStr.str_in "." (PosixPath.basename "pkg/a.test.py") = true /\
  exists info,
    inspect_file "/repo" "pkg/a.test.py" (Some "Doc.") None (Some "Doc.") = Ok info /\
    PosixPath.isabs (path info) = true /\
    extension info = "test".
Proof.
  split; [reflexivity|]. split; [reflexivity|].
  destruct (inspect_file_extension "/repo" "pkg/a.test.py" (Some "Doc.") None (Some "Doc.")
              eq_refl eq_refl) as [info [Hrun [Habs [Hext _]]]].
  exists info. split; [exact Hrun|]. split; [exact Habs | exact Hext].
Defined.


(** ** The main-entry idiom *)

Module MainEntryFacts.
Import MainEntry.

Lemma ast_if_main_unfold (fileNameBase : string) (tree_body : list stmt) :
  let r := if_main_loop fileNameBase (filter is_If tree_body) 0%Z "" in
  _ast_if_main fileNameBase tree_body =
  {| main_flag := fst r;
     main_function := snd r;
     type :=
       if negb (fst r =? 0)%Z then
         if PyStr.str_in "unittest" (snd r) || PyStr.str_in "test" fileNameBase
         then Some "test" else Some "script"
       else None |}.
Proof.
  unfold _ast_if_main. cbv zeta.
  destruct (if_main_loop fileNameBase (filter is_If tree_body) 0%Z "") as [flag func].
  reflexivity.
Qed.

(** The flag only ever goes from 0 to 1, and only at a conditional that
    compares against ["__main__"]. *)
Lemma if_main_loop_flag (fileNameBase : string) (nodes : list stmt) (func : string) :
  forallb (fun node => negb (compares_main node)) nodes = true ->
  fst (if_main_loop fileNameBase nodes 0%Z func) = 0%Z.
Proof.
  induction nodes as [|node nodes IH]; intros H; [reflexivity|].
  simpl in H. apply andb_true_iff in H as [Hnode Hrest].
  apply negb_true_iff in Hnode.
  destruct node; simpl; auto.
  simpl in Hnode. destruct (test_s test) as [s | e | ]; auto.
  rewrite Hnode.
  destruct (funcs_calls body) as [calls | e | ]; auto.
  destruct (map _get_func_name calls) as [|[name|] names]; auto.
Qed.

Lemma forallb_filter {A : Type} (p q : A -> bool) (l : list A) :
  forallb p l = true -> forallb p (filter q l) = true.
Proof.
  induction l as [|x l IH]; simpl; [auto|]. intros H.
  apply andb_true_iff in H as [Hx Hl].
  destruct (q x); simpl; [rewrite Hx|]; auto.
Qed.

(** Without a conditional comparing against ["__main__"] the flag is 0
    and no [type] is recorded. *)
Lemma no_main_block_flag (fileNameBase : string) (tree_body : list stmt) :
  forallb (fun node => negb (compares_main node)) tree_body = true ->
  main_flag (_ast_if_main fileNameBase tree_body) = 0%Z /\
  type (_ast_if_main fileNameBase tree_body) = None.
Proof.
  intros H. rewrite ast_if_main_unfold. cbv zeta. cbn [main_flag type].
  rewrite (if_main_loop_flag fileNameBase _ "" (forallb_filter _ is_If _ H)).
  split; reflexivity.
Qed.

(** A conditional that compares against a constant other than a text
    reads the field [s] without an exception: the flag stays 0 and the
    call of its body is recorded. *)
Example constant_test_records_call :
  _ast_if_main "app" [If (Compare (Name "x") [Constant]) [Expr (Call (Name "foo") [])] []] =
    {| main_flag := 0; main_function := "app.foo"; type := None |}.
Proof. reflexivity. Qed.

End MainEntryFacts.

(** C3, as stated, fails: the main block calls [run_tests], whose name
    holds ["test"], and the file is classified as a script. *)
Lemma main_type_script_with_test_in_name :
  MainEntry._ast_if_main "app" MainEntry.main_block_run_tests =
    {| MainEntry.main_flag := 1;
       MainEntry.main_function := "app.run_tests";
       MainEntry.type := Some "script" |} /\
  PyStr.str_in "test" "run_tests" = true /\
  PyStr.str_in "test" "app.run_tests" = true.
Proof. repeat split. Qed.

(** C3, amended.  When the main-entry idiom is detected, the recorded
    type is "test" exactly when the literal "unittest" occurs in the
    recorded main function (the file base, a dot and the rendered name
    of the first call, or the empty name) or the literal "test" occurs in
    the base name of the file, and "script" otherwise. *)
Theorem main_type_classification (fileNameBase : string) (tree_body : list stmt) :
  let info := MainEntry._ast_if_main fileNameBase tree_body in
  MainEntry.main_flag info = 1%Z ->
  MainEntry.type info =
    Some (if PyStr.str_in "unittest" (MainEntry.main_function info)
             || PyStr.str_in "test" fileNameBase
          then "test" else "script").
Proof.
  cbv zeta. rewrite MainEntryFacts.ast_if_main_unfold. cbv zeta.
  cbn [MainEntry.main_flag MainEntry.type MainEntry.main_function].
  intros ->. simpl.
  destruct (PyStr.str_in "unittest" _ || PyStr.str_in "test" fileNameBase); reflexivity.
Qed.

Lemma main_type_classification_witness :
  MainEntry.main_flag (MainEntry._ast_if_main "app" MainEntry.main_block_run_tests) = 1%Z /\
  MainEntry.type (MainEntry._ast_if_main "app" MainEntry.main_block_run_tests) = Some "script" /\
  MainEntry.type (MainEntry._ast_if_main "test_app" MainEntry.main_block_run_tests) = Some "test".
Proof.
  split; [reflexivity|]. split.
  - exact (main_type_classification "app" MainEntry.main_block_run_tests eq_refl).
  - exact (main_type_classification "test_app" MainEntry.main_block_run_tests eq_refl).
Defined.

(** C8: the code departs from the claim.  The file holds no conditional
    comparing against ["__main__"], its only conditional is
    [if mode == "fast": foo()], and the detector still records [app.foo]
    as the main function (the flag is 0 and no type is recorded). *)
Theorem main_function_recorded_without_main_block :
  forallb (fun node => negb (MainEntry.compares_main node)) MainEntry.no_main_block = true /\
  MainEntry._ast_if_main "app" MainEntry.no_main_block =
    {| MainEntry.main_flag := 0;
       MainEntry.main_function := "app.foo";
       MainEntry.type := None |}.
Proof. split; reflexivity. Qed.


(** ** Call-name resolution *)

Module ResolverFacts.
Import PyStr PyStrFacts Resolver.

(** Joining the pieces of a split gives the string back. *)
Lemma join_split (sep : ascii) (s : string) :
  join (String sep "") (split sep s) = s.
Proof.
  induction s as [|c s IH]; [reflexivity|].
  rewrite PathFacts.split_cons. destruct (Ascii.eqb c sep) eqn:E.
  - apply Ascii.eqb_eq in E. subst c.
    destruct (split sep s) as [|p ps] eqn:Es; [now destruct (split_nonempty sep s)|].
    change (join (String sep "") ("" :: p :: ps))
      with (String sep (join (String sep "") (p :: ps))).
    now rewrite IH.
  - destruct (split sep s) as [|p ps] eqn:Es; [now destruct (split_nonempty sep s)|].
    destruct ps as [|q ps].
    + simpl in *. now rewrite IH.
    + change (join (String sep "") (String c p :: q :: ps))
        with (String c (join (String sep "") (p :: q :: ps))).
      now rewrite IH.
Qed.

Lemma split_super (method : string) :
  split dot ("super()." ++ method) = "super()" :: split dot method.
Proof.
  simpl. destruct (split dot method) eqn:E; [now destruct (split_nonempty dot method)|].
  reflexivity.
Qed.

Lemma has_key_false {V : Type} (k : string) (d : list (string * V)) :
  ~ In k (map fst d) -> has_key k d = false.
Proof.
  intros Hn. unfold has_key. induction d as [|[k' v] d IH]; [reflexivity|].
  simpl in *. destruct (String.eqb k' k) eqn:E.
  - apply String.eqb_eq in E. tauto.
  - apply IH. tauto.
Qed.

Lemma str_in_paren_super (method : string) :
  str_in "(" ("super()." ++ method) = true.
Proof.
  apply str_in_spec. exists "super", (")." ++ method)%string. reflexivity.
Qed.

End ResolverFacts.

(** C7.  In a method of a class whose first declared base is a class of
    the file that declares the method called, the call
    [super().method()] is rendered as ["super().method"] and resolved to
    the file base, the name of that base and the method, joined by
    dots.  (Class names hold no parenthesis, and no local variable is
    recorded under the name ["super()"].) *)
Theorem super_call_resolves_to_parent
    (fileNameBase : string) (depInfo : list Resolver.dep) (str_hasattr : string -> bool)
    (fuel : nat) (funct_def_info : list (string * Resolver.func_info))
    (classes_info : list (string * Resolver.class_info))
    (child parent method : string) (parent_info : Resolver.class_info)
    (bases : list string) (f_store_vars : list (option string * option string))
    (renamed_calls : list string) :
  Resolver.lookup parent classes_info = Some parent_info ->
  Resolver.has_key method (Resolver.methods parent_info) = true ->
  (forall c, In c (map fst classes_info) -> PyStr.str_in "(" c = false) ->
  Resolver.stored_target f_store_vars "super()" = None ->
  match Resolver.super_call method with
  | Call func _ => _get_func_name func = Some ("super()." ++ method)%string
  | _ => False
  end /\
  Resolver.rename_call fileNameBase depInfo str_hasattr (S fuel) funct_def_info classes_info
    child (parent :: bases) false f_store_vars (Some ("super()." ++ method)%string)
    renamed_calls =
  Ok (renamed_calls ++ [(fileNameBase ++ "." ++ parent ++ "." ++ method)%string]).
Proof.
  intros Hparent Hmethod Hnames Hvars. split; [reflexivity|].
  unfold Resolver.rename_call.
  rewrite ResolverFacts.split_super. cbn [getitem nth_error bind tl].
  rewrite ResolverFacts.join_split, Hvars. cbn [bind].
  rewrite ResolverFacts.has_key_false.
  2:{ intros Hin. apply Hnames in Hin.
      rewrite ResolverFacts.str_in_paren_super in Hin. discriminate. }
  change (PyStr.str_in "self" "super()") with false.
  change (PyStr.str_in "super()" "super()") with true.
  cbn [andb Resolver._dfs]. rewrite Hparent, Hmethod. reflexivity.
Qed.

Lemma super_call_resolves_to_parent_witness :
  Resolver.lookup "Parent" Resolver.shapes_classes = Some Resolver.parent_class /\
  Resolver.has_key "run" (Resolver.methods Resolver.parent_class) = true /\
  Resolver.stored_target [] "super()" = None /\
  Resolver.rename_call "shapes" [] (fun _ => false) 1 Resolver.child_methods
    Resolver.shapes_classes "Child" ["Parent"] false [] (Some "super().run") [] =
  Ok ["shapes.Parent.run"].
Proof.
  split; [reflexivity|]. split; [reflexivity|]. split; [reflexivity|].
  refine (proj2 (super_call_resolves_to_parent "shapes" [] (fun _ => false) 0
                   Resolver.child_methods Resolver.shapes_classes
                   "Child" "Parent" "run" Resolver.parent_class
                   [] [] [] eq_refl eq_refl _ eq_refl)).
  intros c [<- | [<- | []]]; reflexivity.
Defined.

(** C9: the code departs from the claim.  The module body is the single
    statement [handlers["start"]()]: the call target is a subscript,
    [_get_func_name] returns [None] for it, [inspect_body] puts this
    [None] in the list of body calls, and the resolution raises on it. *)
Theorem inspect_body_raises_on_subscript_call
    (fileNameBase : string) (depInfo : list Resolver.dep) (str_hasattr : string -> bool)
    (fuel : nat) (classesInfo : list (string * Resolver.class_info)) :
  _get_func_name (Subscript (Name "handlers") (Str "start")) = None /\
  Resolver.inspect_body fileNameBase depInfo str_hasattr fuel
    Resolver.subscript_call_module classesInfo = Raise AttributeError.
Proof. split; reflexivity. Qed.

(** The whole table of [Child]: the call to [super().run] is resolved and
    the bare [super] is dropped. *)
Example fill_call_name_child_methods :
  Resolver._fill_call_name "shapes" [] (fun _ => false) 1 Resolver.child_methods
    Resolver.shapes_classes "Child" ["Parent"] false =
  Ok [("area", Resolver.FuncInfo [Some "shapes.Parent.run"] [] [])].
Proof. reflexivity. Qed.

(** A call through an imported module keeps its import-qualified name. *)
Example rename_call_imported_module :
  Resolver.rename_call "a"
    [{| Resolver.from_module := None; Resolver.import := "b";
        Resolver.alias := None; Resolver.type := "internal" |}]
    (fun _ => false) 1 [] [] "" [] false [] (Some "b.start") [] =
  Ok ["b.start"].
Proof. reflexivity. Qed.


(** ** The command-line entry point *)

(** C4, as stated, fails: for a path that does not exist the process
    ends through [sys.exit()] without an argument, which is exit status
    0, the status of success. *)
Lemma main_missing_path_exits_with_success :
  Cli.sample_isfile "missing" = false /\
  Cli.sample_isdir "missing" = false /\
  Cli.main Cli.sample_isfile Cli.sample_isdir "missing" =
    [Cli.Print "The file or directory specified does not exist"; Cli.SysExit None] /\
  Cli.exit_status (Cli.main Cli.sample_isfile Cli.sample_isdir "missing") = 0%Z.
Proof. repeat split. Qed.

(** C4, amended.  When the input path is neither an existing file nor an
    existing directory, [main] prints the diagnostic and ends the
    process at once through [sys.exit()], with nothing else printed and
    with exit status 0; for every existing input path this branch is not
    taken. *)
Theorem main_missing_path (isfile isdir : string -> bool) (input_path : string) :
  (isfile input_path = false -> isdir input_path = false ->
   Cli.main isfile isdir input_path =
     [Cli.Print "The file or directory specified does not exist"; Cli.SysExit None] /\
   Cli.printed (Cli.main isfile isdir input_path) =
     ["The file or directory specified does not exist"] /\
   Cli.exit_status (Cli.main isfile isdir input_path) = 0%Z) /\
  (isfile input_path = true \/ isdir input_path = true ->
   existsb Cli.is_exit (Cli.main isfile isdir input_path) = false).
Proof.
  unfold Cli.main. split.
  - intros -> ->. repeat split.
  - intros [H | H]; rewrite H.
    + reflexivity.
    + rewrite andb_false_r. destruct (isfile input_path); reflexivity.
Qed.

Lemma main_missing_path_witness :
  (Cli.main Cli.sample_isfile Cli.sample_isdir "missing" =
     [Cli.Print "The file or directory specified does not exist"; Cli.SysExit None] /\
   Cli.printed (Cli.main Cli.sample_isfile Cli.sample_isdir "missing") =
     ["The file or directory specified does not exist"] /\
   Cli.exit_status (Cli.main Cli.sample_isfile Cli.sample_isdir "missing") = 0%Z) /\
  existsb Cli.is_exit (Cli.main Cli.sample_isfile Cli.sample_isdir "a.py") = false /\
  existsb Cli.is_exit (Cli.main Cli.sample_isfile Cli.sample_isdir "src") = false.
Proof.
  split; [|split].
  - exact (proj1 (main_missing_path Cli.sample_isfile Cli.sample_isdir "missing")
             eq_refl eq_refl).
  - exact (proj2 (main_missing_path Cli.sample_isfile Cli.sample_isdir "a.py")
             (or_introl eq_refl)).
  - exact (proj2 (main_missing_path Cli.sample_isfile Cli.sample_isdir "src")
             (or_intror eq_refl)).
Defined.


(** * Further properties of the code *)

(** ** Pruning a mapping with distinct keys *)


(** X1. On a mapping whose keys are pairwise distinct, [prune_json] is a
    filter that keeps the order: the result holds, for each entry in
    turn, the value the loop stores for it, and nothing for an entry
    whose value is empty or becomes empty. *)
Theorem prune_json_filters_in_order (items : list (key * json)) :
  JsonShape.distinct_keys (map fst items) = true ->
  prune_json (JDict items) = JDict (JsonShape.kept_items items).
Proof.
  intros Hd. apply JsonShapeFacts.distinct_keys_NoDup in Hd.
  rewrite prune_json_dict. f_equal.
  now apply (JsonShapeFacts.prune_loop_kept items []).
Qed.

Lemma prune_json_filters_in_order_witness :
  JsonShape.distinct_keys (map fst [(KStr "doc", JDict []); (KStr "name", JStr "a");
                                    (KStr "calls", JList [JStr ""; JStr "f"])]) = true /\
  prune_json (JDict [(KStr "doc", JDict []); (KStr "name", JStr "a");
                     (KStr "calls", JList [JStr ""; JStr "f"])]) =
  JDict [(KStr "name", JStr "a"); (KStr "calls", JList [JStr "f"])].
Proof.
  split; [reflexivity|].
  exact (prune_json_filters_in_order
           [(KStr "doc", JDict []); (KStr "name", JStr "a");
            (KStr "calls", JList [JStr ""; JStr "f"])] eq_refl).
Defined.

(** X2. Pruning loses no data at the top level: in a mapping with
    distinct keys, an entry whose value is a truthy leaf (a non-empty
    string, a non-zero number, [True]) is in the result with the same
    value. *)
Theorem prune_json_keeps_truthy_leaves (items : list (key * json)) (k : key) (v : json) :
  JsonShape.distinct_keys (map fst items) = true ->
  In (k, v) items ->
  JsonShape.is_leaf v = true ->
  truthy v = true ->
  exists pruned, prune_json (JDict items) = JDict pruned /\ In (k, v) pruned.
Proof.
  intros Hd Hin Hleaf Hv. exists (JsonShape.kept_items items).
  split.
  { apply JsonShapeFacts.distinct_keys_NoDup in Hd.
    rewrite prune_json_dict. f_equal.
    now apply (JsonShapeFacts.prune_loop_kept items []). }
  unfold JsonShape.kept_items. apply in_flat_map. exists (k, v). split; [exact Hin|].
  simpl. unfold pruned_value. rewrite Hv.
  destruct v; try discriminate; now left.
Qed.

Lemma prune_json_keeps_truthy_leaves_witness :
  exists pruned,
    prune_json (JDict [(KStr "doc", JDict []); (KStr "name", JStr "a")]) = JDict pruned /\
    In (KStr "name", JStr "a") pruned.
Proof.
  apply (prune_json_keeps_truthy_leaves
           [(KStr "doc", JDict []); (KStr "name", JStr "a")] (KStr "name") (JStr "a")).
  - reflexivity.
  - right. now left.
  - reflexivity.
  - reflexivity.
Defined.

Lemma filter_map_clean (elems : list json) :
  Forall JsonShape.fixed_at elems ->
  forallb deep_truthy elems = true ->
  forallb JsonShape.unique_keys elems = true ->
  filter truthy (map prune_json elems) = elems.
Proof.
  intros H; induction H as [|e elems He _ IH]; simpl; [reflexivity|].
  intros Hd Hu. apply andb_true_iff in Hd as [Hde Hd]. apply andb_true_iff in Hu as [Hue Hu].
  destruct (He Hde Hue) as [-> _].
  rewrite deep_truthy_unfold in Hde. apply andb_true_iff in Hde as [-> _].
  f_equal. now apply IH.
Qed.

Lemma prune_json_fixed_at : forall j, JsonShape.fixed_at j.
Proof.
  induction j as [ | b | n | s | elems IH | items IH] using json_tree_ind;
    unfold JsonShape.fixed_at; intros Hd Hu.
  1-4: split; [reflexivity|]; rewrite deep_truthy_unfold in Hd;
       apply andb_true_iff in Hd as [Ht _]; unfold pruned_value; now rewrite Ht.
  - split; [reflexivity|].
    rewrite deep_truthy_unfold in Hd. apply andb_true_iff in Hd as [Ht Hd].
    simpl in Hd, Hu. unfold pruned_value. rewrite Ht.
    rewrite (filter_map_clean elems IH Hd Hu).
    destruct elems; [discriminate | reflexivity].
  - rewrite deep_truthy_unfold in Hd. apply andb_true_iff in Hd as [Ht Hd].
    simpl in Hd, Hu. apply andb_true_iff in Hu as [Hk Hu].
    assert (Hfix : prune_json (JDict items) = JDict items).
    { rewrite prune_json_dict. f_equal. apply (refold_fixed items []).
      - simpl. now apply JsonShapeFacts.distinct_keys_NoDup.
      - rewrite Forall_forall in *. rewrite forallb_forall in Hd, Hu.
        intros ab Hab. now apply (IH ab Hab (Hd ab Hab) (Hu ab Hab)). }
    split; [exact Hfix|].
    unfold pruned_value. rewrite Ht, Hfix, Ht. reflexivity.
Qed.

(** X3. A tree with nothing to prune is returned as it is: when no node
    of the tree is an empty mapping, an empty sequence or a falsy leaf
    (and its mappings have distinct keys), [prune_json] is the
    identity. *)
Theorem prune_json_identity_on_clean (t : json) :
  deep_truthy t = true ->
  JsonShape.unique_keys t = true ->
  prune_json t = t.
Proof. intros Hd Hu. now apply prune_json_fixed_at. Qed.

Lemma prune_json_identity_on_clean_witness :
  prune_json (prune_json sample_report) = prune_json sample_report.
Proof.
  apply (prune_json_identity_on_clean (prune_json sample_report)); reflexivity.
Defined.


(** ** File names: the inspector and the directory walk *)

Module WalkFacts.
Import PyStr PyStrFacts PosixPath Walk.

Lemma ignore_names_In (patterns names : list string) (f : string) :
  In f (ignore_names patterns names) <->
  In f names /\ forall p, In p patterns -> startswith f p = false.
Proof.
  unfold ignore_names. revert names.
  induction patterns as [|p patterns IH]; intros names; simpl.
  - split; [intros H; split; [exact H | intros p []] | tauto].
  - rewrite IH, filter_In, negb_true_iff. split.
    + intros [[Hin Hp] Hrest]. split; [exact Hin|].
      intros q [<- | Hq]; auto.
    + intros [Hin Hall]. split; [split; [exact Hin|]|]; auto.
Qed.

Lemma append_assoc (a b c : string) : ((a ++ b) ++ c = a ++ (b ++ c))%string.
Proof. induction a as [|x a IH]; simpl; [reflexivity | now rewrite IH]. Qed.

Lemma str_in_app_r (sub a b : string) :
  str_in sub b = true -> str_in sub (a ++ b) = true.
Proof.
  intros H. apply str_in_spec in H as [x [y ->]]. apply str_in_spec.
  exists (a ++ x)%string, y. now rewrite append_assoc.
Qed.

Lemma str_in_trans (a b c : string) :
  str_in a b = true -> str_in b c = true -> str_in a c = true.
Proof.
  intros Hab Hbc. apply str_in_spec in Hab as [x [y ->]].
  apply str_in_spec in Hbc as [u [v ->]]. apply str_in_spec.
  exists (u ++ x)%string, (y ++ v)%string.
  now rewrite !append_assoc.
Qed.

Lemma is_source_has_dot (f : string) : is_source f = true -> str_in "." f = true.
Proof.
  unfold is_source. intros H. apply andb_true_iff in H as [H _].
  apply (str_in_trans "." ".py" f); [reflexivity | exact H].
Qed.

Lemma endswith_spec (s suffix : string) :
  endswith s suffix = true -> exists a, s = (a ++ suffix)%string.
Proof.
  induction s as [|c s IH].
  - unfold endswith. destruct (String.eqb "" suffix) eqn:E; [|discriminate].
    intros _. apply String.eqb_eq in E. subst. now exists "".
  - change (endswith (String c s) suffix)
      with (if String.eqb (String c s) suffix then true else endswith s suffix).
    destruct (String.eqb (String c s) suffix) eqn:E.
    + intros _. apply String.eqb_eq in E. subst. now exists "".
    + intros H. destruct (IH H) as [a ->]. now exists (String c a).
Qed.

(** The last piece of a path that ends in a separator followed by a
    name without separator is that name. *)
Lemma last_split_app (sep : ascii) (a f : string) :
  str_in (String sep "") f = false ->
  last (split sep (a ++ String sep f)) "" = f.
Proof.
  intros Hf. induction a as [|c a IH].
  - simpl. rewrite Ascii.eqb_refl. rewrite (PathFacts.split_no_sep sep f Hf). reflexivity.
  - change ((String c a ++ String sep f)%string) with (String c (a ++ String sep f)).
    rewrite PathFacts.split_cons.
    assert (Hsep : str_in (String sep "") (a ++ String sep f) = true).
    { apply str_in_spec. now exists a, f. }
    rewrite (PathFacts.split_first_sep sep _ Hsep) in IH |- *.
    destruct (Ascii.eqb c sep).
    + destruct (split sep (after_first sep (a ++ String sep f))) eqn:E;
        [now destruct (split_nonempty sep (after_first sep (a ++ String sep f)))|].
      exact IH.
    + destruct (split sep (after_first sep (a ++ String sep f))) eqn:E;
        [now destruct (split_nonempty sep (after_first sep (a ++ String sep f)))|].
      exact IH.
Qed.

Lemma basename_join (subdir f : string) :
  str_in "/" f = false -> basename (join subdir f) = f.
Proof.
  intros Hf. unfold basename, join.
  assert (Hstart : startswith f "/" = false).
  { unfold startswith. destruct (prefix "/" f) eqn:E; [|reflexivity].
    apply prefix_app in E as [r ->].
    assert (str_in "/" ("/" ++ r) = true) by (apply str_in_spec; now exists "", r).
    congruence. }
  rewrite Hstart.
  destruct (negb (nonempty subdir)) eqn:Hne; simpl.
  - destruct subdir; [|discriminate]. simpl.
    now rewrite (PathFacts.split_no_sep slash f Hf).
  - destruct (endswith subdir "/") eqn:He.
    + apply endswith_spec in He as [a ->]. rewrite append_assoc.
      now apply (last_split_app slash a f).
    + now apply (last_split_app slash subdir f).
Qed.

End WalkFacts.

(** X4. [inspect_file] raises [IndexError] exactly on a file whose name
    holds no dot (such as [Makefile] given with the input option); with a
    dot it returns a record whose base name is the text before the first
    dot. *)
Theorem inspect_file_needs_a_dot (cwd self_path : string)
    (ds_m docstring_long docstring_short : option string) :
  (PyStr.str_in "." (PosixPath.basename self_path) = false ->
   inspect_file cwd self_path ds_m docstring_long docstring_short = Raise IndexError) /\
  (PyStr.str_in "." (PosixPath.basename self_path) = true ->
   exists info,
     inspect_file cwd self_path ds_m docstring_long docstring_short = Ok info /\
     fileNameBase info = PyStr.before_first dot (PosixPath.basename self_path)).
Proof.
  split; intros Hdot; unfold inspect_file, getitem.
  - rewrite (PathFacts.split_no_sep dot _ Hdot). reflexivity.
  - rewrite (PathFacts.split_second dot _ Hdot), (PathFacts.split_first_sep dot _ Hdot).
    cbn [nth_error bind]. eexists. split; reflexivity.
Qed.

Lemma inspect_file_needs_a_dot_witness :
  inspect_file "/repo" "tools/Makefile" None None None = Raise IndexError /\
  exists info,
    inspect_file "/repo" "tools/setup.py" None None None = Ok info /\
    fileNameBase info = "setup".
Proof.
  split.
  - exact (proj1 (inspect_file_needs_a_dot "/repo" "tools/Makefile" None None None) eq_refl).
  - exact (proj2 (inspect_file_needs_a_dot "/repo" "tools/setup.py" None None None) eq_refl).
Defined.

(** X5. The files of a visited directory handed to the inspector are
    exactly those that start with none of the ignore patterns, hold
    [".py"] somewhere in their name and do not end in [".pyc"]. *)
Theorem inspected_files_spec (ignore_file_pattern files : list string) (f : string) :
  In f (Walk.inspected_files ignore_file_pattern files) <->
  In f files /\
  (forall p, In p ignore_file_pattern -> PyStr.startswith f p = false) /\
  PyStr.str_in ".py" f = true /\
  PyStr.endswith f ".pyc" = false.
Proof.
  unfold Walk.inspected_files, Walk.is_source.
  rewrite filter_In, WalkFacts.ignore_names_In, andb_true_iff, negb_true_iff. tauto.
Qed.

(** X6. Every file picked by the directory walk can be inspected: its
    name holds a dot, so [inspect_file], run on the path joined from the
    visited directory and the file name, raises no [IndexError] and
    records the text before the first dot of the file name as base
    name. *)
Theorem inspected_files_have_extension (cwd subdir f : string)
    (ignore_file_pattern files : list string)
    (ds_m docstring_long docstring_short : option string) :
  In f (Walk.inspected_files ignore_file_pattern files) ->
  PyStr.str_in "/" f = false ->
  exists info,
    inspect_file cwd (Walk.file_path subdir f) ds_m docstring_long docstring_short = Ok info /\
    fileNameBase info = PyStr.before_first dot f /\
    extension info = PyStr.before_first dot (PyStr.after_first dot f).
Proof.
  intros Hin Hslash. unfold Walk.inspected_files in Hin.
  apply filter_In in Hin as [_ Hsrc]. apply WalkFacts.is_source_has_dot in Hsrc.
  unfold Walk.file_path, inspect_file, getitem.
  rewrite (WalkFacts.basename_join subdir f Hslash).
  rewrite (PathFacts.split_second dot _ Hsrc), (PathFacts.split_first_sep dot _ Hsrc).
  cbn [nth_error bind]. eexists. repeat split.
Qed.

Lemma inspected_files_have_extension_witness :
  Walk.inspected_files Walk.default_ignore
    [".hidden.py"; "a.py"; "a.pyc"; "notes.txt"; "b.py.bak"] = ["a.py"; "b.py.bak"] /\
  exists info,
    inspect_file "/repo" (Walk.file_path "src/pkg" "b.py.bak") None None None = Ok info /\
    fileNameBase info = "b" /\
    extension info = "py".
Proof.
  split; [reflexivity|].
  apply (inspected_files_have_extension "/repo" "src/pkg" "b.py.bak" Walk.default_ignore
           [".hidden.py"; "a.py"; "a.pyc"; "notes.txt"; "b.py.bak"] None None None).
  - right. now left.
  - reflexivity.
Defined.


(** ** Rendering dotted names *)

Module RenderFacts.
Import PyStr PyStrFacts.

Lemma get_func_name_nested_attr (v : expr) (a1 a2 : string) :
  _get_func_name (Attribute (Attribute v a1) a2) =
  _get_func_name (Attribute v (a1 ++ "." ++ a2)).
Proof. reflexivity. Qed.

Lemma join_snoc (sep : string) (l : list string) (a : string) :
  l <> [] -> join sep (l ++ [a]) = (join sep l ++ sep ++ a)%string.
Proof.
  induction l as [|x l IH]; [congruence|]. intros _.
  destruct l as [|y l]; [reflexivity|].
  change (join sep ((x :: y :: l) ++ [a]))
    with (x ++ sep ++ join sep ((y :: l) ++ [a]))%string.
  rewrite IH by discriminate.
  change (join sep (x :: y :: l)) with (x ++ sep ++ join sep (y :: l))%string.
  now rewrite !WalkFacts.append_assoc.
Qed.

Lemma attr_chain_snoc (root : string) (attrs : list string) (a : string) :
  attr_chain root (attrs ++ [a]) = Attribute (attr_chain root attrs) a.
Proof. unfold attr_chain. now rewrite fold_left_app. Qed.

Lemma get_func_name_chain_acc (root : string) (attrs : list string) :
  forall acc,
    _get_func_name (Attribute (attr_chain root attrs) acc) =
    Some (join "." (root :: attrs) ++ "." ++ acc)%string.
Proof.
  induction attrs as [|a attrs IH] using rev_ind; intros acc.
  - reflexivity.
  - rewrite attr_chain_snoc, get_func_name_nested_attr, IH.
    change (root :: attrs ++ [a]) with ((root :: attrs) ++ [a]).
    rewrite join_snoc by discriminate.
    now rewrite !WalkFacts.append_assoc.
Qed.

(** Splitting a string that starts with a piece free of the separator. *)
Lemma split_app_sep (sep : ascii) (p rest : string) :
  str_in (String sep "") p = false ->
  split sep (p ++ String sep rest) = p :: split sep rest.
Proof.
  intros Hp. induction p as [|c p IH].
  - simpl. now rewrite Ascii.eqb_refl.
  - rewrite str_in_cons, PathFacts.prefix_char in Hp.
    apply orb_false_iff in Hp as [Hc Hp].
    change ((String c p ++ String sep rest)%string) with (String c (p ++ String sep rest)).
    rewrite PathFacts.split_cons, Hc, (IH Hp). reflexivity.
Qed.

Lemma split_join (sep : ascii) (l : list string) :
  l <> [] ->
  Forall (fun p => str_in (String sep "") p = false) l ->
  split sep (join (String sep "") l) = l.
Proof.
  induction l as [|p l IH]; [congruence|]. intros _ Hall.
  inversion Hall as [|? ? Hp Hl]; subst.
  destruct l as [|q l].
  - simpl. now apply PathFacts.split_no_sep.
  - change (join (String sep "") (p :: q :: l))
      with (p ++ String sep (join (String sep "") (q :: l)))%string.
    rewrite (split_app_sep sep p _ Hp), IH; [reflexivity | discriminate | exact Hl].
Qed.

End RenderFacts.

(** X7. A dotted call target [root.a1...an] is rendered as its
    identifiers joined by dots, and splitting the rendered name on dots
    gives the identifiers back: the leading segment read by the
    resolution is the root and the trailing segments are the
    attributes. *)
Theorem get_func_name_dotted_chain (root : string) (attrs : list string) :
  Forall (fun p => no_dot p = true) (root :: attrs) ->
  _get_func_name (attr_chain root attrs) = Some (PyStr.join "." (root :: attrs)) /\
  PyStr.split dot (PyStr.join "." (root :: attrs)) = root :: attrs.
Proof.
  intros Hall. split.
  - destruct attrs as [|a attrs] using rev_ind; [reflexivity|].
    rewrite RenderFacts.attr_chain_snoc, RenderFacts.get_func_name_chain_acc.
    change (root :: attrs ++ [a]) with ((root :: attrs) ++ [a]).
    now rewrite RenderFacts.join_snoc by discriminate.
  - apply (RenderFacts.split_join dot); [discriminate|].
    revert Hall. apply Forall_impl. intros p. unfold no_dot.
    now rewrite negb_true_iff.
Qed.

Lemma get_func_name_dotted_chain_witness :
  _get_func_name (attr_chain "os" ["path"; "join"]) = Some "os.path.join" /\
  PyStr.split dot "os.path.join" = ["os"; "path"; "join"].
Proof.
  apply (get_func_name_dotted_chain "os" ["path"; "join"]).
  repeat constructor.
Defined.

(** ** The main-entry idiom, continued *)

Module MainEntryMore.
Import MainEntry.

Lemma if_main_loop_flag_01 (fileNameBase : string) (nodes : list stmt)
    (flag : Z) (func : string) :
  (flag = 0 \/ flag = 1)%Z ->
  (fst (if_main_loop fileNameBase nodes flag func) = 0 \/
   fst (if_main_loop fileNameBase nodes flag func) = 1)%Z.
Proof.
  revert flag func; induction nodes as [|node nodes IH]; intros flag func Hflag; [exact Hflag|].
  destruct node; simpl; auto.
  destruct (test_s test) as [s | e | ]; auto.
  assert (Hflag' : ((if is_main_text s then 1 else flag) = 0 \/
                    (if is_main_text s then 1 else flag) = 1)%Z)
    by (destruct (is_main_text s); auto).
  destruct (funcs_calls body) as [calls | e | ]; auto.
  destruct (map _get_func_name calls) as [|[name|] names]; auto.
Qed.

Lemma filter_is_If_skip (pre rest : list stmt) :
  forallb (fun node => negb (is_If node)) pre = true ->
  filter is_If (pre ++ rest) = filter is_If rest.
Proof.
  induction pre as [|node pre IH]; simpl; [reflexivity|]. intros H.
  apply andb_true_iff in H as [Hn Hpre]. apply negb_true_iff in Hn.
  rewrite Hn. now apply IH.
Qed.

(** The recorded function does not depend on the flag the loop starts
    with, and a flag that is 1 stays 1. *)
Lemma if_main_loop_func (fileNameBase : string) (nodes : list stmt) (func : string) :
  forall flag flag',
    snd (if_main_loop fileNameBase nodes flag func) =
    snd (if_main_loop fileNameBase nodes flag' func).
Proof.
  induction nodes as [|node nodes IH]; intros flag flag'; [reflexivity|].
  destruct node; cbn [if_main_loop]; auto.
  destruct (test_s test) as [s | e | ]; auto.
  destruct (funcs_calls body) as [calls | e | ]; auto.
  destruct (map _get_func_name calls) as [|[name|] names]; auto.
Qed.

Lemma if_main_loop_flag_stays (fileNameBase : string) (nodes : list stmt) (func : string) :
  fst (if_main_loop fileNameBase nodes 1%Z func) = 1%Z.
Proof.
  induction nodes as [|node nodes IH]; [reflexivity|].
  destruct node; cbn [if_main_loop]; auto.
  destruct (test_s test) as [s | e | ]; auto.
  assert (Hs : (if is_main_text s then 1%Z else 1%Z) = 1%Z) by now destruct (is_main_text s).
  rewrite Hs.
  destruct (funcs_calls body) as [calls | e | ]; auto.
  destruct (map _get_func_name calls) as [|[name|] names]; auto.
Qed.

(** The list of call targets of a block is built exactly when every
    statement of the block has a [value] field. *)
Lemma funcs_calls_built (body : list stmt) :
  forallb MainBlock.has_value body = true -> exists calls, funcs_calls body = Ok calls.
Proof.
  induction body as [|i body IH]; intros H; [now exists []|].
  cbn [forallb] in H. apply andb_true_iff in H as [Hi Hbody].
  destruct (IH Hbody) as [calls Hcalls].
  destruct i as [value | targets value | target value | target [value|] | [value|]
                 | | | | | | ]; try discriminate;
    cbn [funcs_calls stmt_value bind]; rewrite ?Hcalls;
    try (destruct value; cbn [bind]; eauto); eauto.
Qed.

Lemma funcs_calls_raises (body : list stmt) :
  forallb MainBlock.has_value body = false -> funcs_calls body = Raise AttributeError.
Proof.
  induction body as [|i body IH]; intros H; [discriminate|].
  cbn [forallb] in H. apply andb_false_iff in H as [Hi | Hbody].
  - destruct i; try discriminate; reflexivity.
  - specialize (IH Hbody).
    destruct i as [value | targets value | target value | target [value|] | [value|]
                   | | | | | | ]; try reflexivity;
      cbn [funcs_calls stmt_value bind]; rewrite ?IH;
      try (destruct value; cbn [bind]; reflexivity); reflexivity.
Qed.

End MainEntryMore.

(** X8. The record returned by [_ast_if_main] always has [main_flag] 0
    or 1, and it has a [type] exactly when the flag is 1. *)
Theorem main_info_flag_and_type (fileNameBase : string) (tree_body : list stmt) :
  let info := MainEntry._ast_if_main fileNameBase tree_body in
  (MainEntry.main_flag info = 0%Z /\ MainEntry.type info = None) \/
  (MainEntry.main_flag info = 1%Z /\
   (MainEntry.type info = Some "test" \/ MainEntry.type info = Some "script")).
Proof.
  cbv zeta. rewrite MainEntryFacts.ast_if_main_unfold. cbv zeta.
  cbn [MainEntry.main_flag MainEntry.type].
  destruct (MainEntryMore.if_main_loop_flag_01 fileNameBase
              (filter MainEntry.is_If tree_body) 0%Z "" (or_introl eq_refl)) as [-> | ->].
  - left. split; reflexivity.
  - right. split; [reflexivity|]. simpl.
    destruct (PyStr.str_in "unittest" _ || PyStr.str_in "test" fileNameBase); auto.
Qed.

(** X9. When the first top-level conditional of a module is the main
    idiom (its test compares against ["__main__"]), the flag is 1
    whatever its body holds, and whatever statements other than
    conditionals come before and whatever comes after.  The main
    function is the file base, a dot and the rendered name of the first
    call target of its body when the list of these targets is built and
    its first element can be rendered; otherwise (no call in the body, a
    first target that cannot be rendered, or a statement without a
    [value] field, as the [pass] of [main(); pass], on which building
    the list raises) it is the main function that the conditionals after
    it give.  The list is built exactly when every statement of the body
    has a [value] field. *)
Theorem main_block_detected (fileNameBase : string) (pre rest body orelse : list stmt)
    (test : expr) :
  forallb (fun node => negb (MainEntry.is_If node)) pre = true ->
  MainEntry.test_s test = Ok (Some "__main__") ->
  let info := MainEntry._ast_if_main fileNameBase (pre ++ If test body orelse :: rest) in
  let later := MainEntry.main_function (MainEntry._ast_if_main fileNameBase rest) in
  MainEntry.main_flag info = 1%Z /\
  MainEntry.main_function info =
    match MainEntry.funcs_calls body with
    | Ok (func :: _) =>
        match _get_func_name func with
        | Some name => (fileNameBase ++ "." ++ name)%string
        | None => later
        end
    | _ => later
    end /\
  (forallb MainBlock.has_value body = true ->
   exists calls, MainEntry.funcs_calls body = Ok calls) /\
  (forallb MainBlock.has_value body = false ->
   MainEntry.funcs_calls body = Raise AttributeError).
Proof.
  intros Hpre Htest. cbv zeta.
  split; [|split; [|split;
    [apply MainEntryMore.funcs_calls_built | apply MainEntryMore.funcs_calls_raises]]];
    rewrite !MainEntryFacts.ast_if_main_unfold; cbv zeta;
    cbn [MainEntry.main_flag MainEntry.main_function];
    rewrite (MainEntryMore.filter_is_If_skip pre _ Hpre);
    cbn [filter MainEntry.is_If MainEntry.if_main_loop];
    rewrite Htest; cbn [MainEntry.is_main_text String.eqb Ascii.eqb Bool.eqb].
  - destruct (MainEntry.funcs_calls body) as [[|func calls] | e | ]; cbn [map];
      try apply MainEntryMore.if_main_loop_flag_stays.
    destruct (_get_func_name func);
      [reflexivity | apply MainEntryMore.if_main_loop_flag_stays].
  - destruct (MainEntry.funcs_calls body) as [[|func calls] | e | ]; cbn [map];
      try apply MainEntryMore.if_main_loop_func.
    destruct (_get_func_name func);
      [reflexivity | apply MainEntryMore.if_main_loop_func].
Qed.

Lemma main_block_detected_witness :
  (MainEntry.main_flag
     (MainEntry._ast_if_main "server"
        ([Import; FunctionDef "run_server"] ++
         If MainBlock.name_is_main
            [Assign [Name "port"] (Str "8080");
             Expr (Call (Name "run_server") [Name "port"])] [] :: [])) = 1%Z /\
   MainEntry.main_function
     (MainEntry._ast_if_main "server"
        ([Import; FunctionDef "run_server"] ++
         If MainBlock.name_is_main
            [Assign [Name "port"] (Str "8080");
             Expr (Call (Name "run_server") [Name "port"])] [] :: [])) =
     "server.run_server") /\
  (MainEntry.main_flag (MainEntry._ast_if_main "app" MainBlock.main_then_pass) = 1%Z /\
   MainEntry.main_function (MainEntry._ast_if_main "app" MainBlock.main_then_pass) =
     "app.later").
Proof.
  split.
  - destruct (main_block_detected "server" [Import; FunctionDef "run_server"] []
                [Assign [Name "port"] (Str "8080");
                 Expr (Call (Name "run_server") [Name "port"])]
                [] MainBlock.name_is_main eq_refl eq_refl) as [Hflag [Hfunc _]].
    split; [exact Hflag | exact Hfunc].
  - destruct (main_block_detected "app" []
                [If (Compare (Name "x") [Constant]) [Expr (Call (Name "later") [])] []]
                [Expr (Call (Name "main") []); OtherStmt]
                [] MainBlock.name_is_main eq_refl eq_refl) as [Hflag [Hfunc _]].
    split; [exact Hflag | exact Hfunc].
Defined.


Lemma inspected_files_spec_witness :
  In "a.py" (Walk.inspected_files Walk.default_ignore [".hidden.py"; "a.py"; "a.pyc"]).
Proof.
  apply (proj2 (inspected_files_spec Walk.default_ignore [".hidden.py"; "a.py"; "a.pyc"] "a.py")).
  split; [right; now left|]. split; [|split; reflexivity].
  intros p [<- | [<- | []]]; reflexivity.
Defined.

(** ** The ancestor search and the resolution of one call *)

Module ResolverMore.
Import PyStr PyStrFacts Resolver.

Section WithInspector.
Variable fileNameBase : string.
Variable depInfo : list dep.
Variable str_hasattr : string -> bool.

Lemma dfs_nil fuel rest renamed classes_info rc :
  _dfs fileNameBase str_hasattr (S fuel) [] rest renamed classes_info rc = Ok (renamed, rc).
Proof. reflexivity. Qed.

Lemma dfs_cons fuel ext exts rest renamed classes_info rc :
  _dfs fileNameBase str_hasattr (S fuel) (ext :: exts) rest renamed classes_info rc =
  match lookup ext classes_info with
  | Some c =>
      if has_key rest (methods c) then
        Ok (true, rc ++ [(fileNameBase ++ "." ++ ext ++ "." ++ rest)%string])
      else
        '(renamed, rc) <- _dfs fileNameBase str_hasattr fuel (extend c) rest renamed
                            classes_info rc ;;
        if renamed then Ok (renamed, rc)
        else _dfs fileNameBase str_hasattr (S fuel) exts rest renamed classes_info rc
  | None =>
      if str_hasattr rest then Ok (true, rc ++ [(ext ++ "." ++ rest)%string])
      else Raise KeyError
  end.
Proof.
  simpl. destruct (lookup ext classes_info) as [c|]; [|reflexivity].
  destruct (has_key rest (methods c)); [reflexivity|].
  destruct (_dfs fileNameBase str_hasattr fuel (extend c) rest renamed classes_info rc)
    as [[r rc1] | e | ]; reflexivity.
Qed.

Lemma dfs_appends fuel :
  forall exts rest renamed classes_info rc r rc',
    _dfs fileNameBase str_hasattr fuel exts rest renamed classes_info rc = Ok (r, rc') ->
    (r = renamed /\ rc' = rc) \/ (r = true /\ exists name, rc' = rc ++ [name]).
Proof.
  induction fuel as [|fuel IH]; intros exts rest renamed classes_info rc r rc';
    [discriminate|].
  revert renamed rc. induction exts as [|ext exts IHe]; intros renamed rc.
  - rewrite dfs_nil. intros [= <- <-]. now left.
  - rewrite dfs_cons.
    destruct (lookup ext classes_info) as [c|].
    + destruct (has_key rest (methods c)).
      * intros [= <- <-]. right. split; [reflexivity | eauto].
      * destruct (_dfs fileNameBase str_hasattr fuel (extend c) rest renamed classes_info rc)
          as [[r1 rc1] | e | ] eqn:E; try discriminate.
        cbn [bind]. apply IH in E.
        destruct r1.
        -- intros [= <- <-]. destruct E as [[<- ->] | [_ Hex]]; [now left | now right].
        -- destruct E as [[<- ->] | [Hf _]]; [|discriminate]. apply IHe.
    + destruct (str_hasattr rest); [|discriminate].
      intros [= <- <-]. right. split; [reflexivity | eauto].
Qed.

Lemma resolve_import_appends deps module_call_name call_name rest_call_name :
  forall renamed rc r rc',
    resolve_import deps module_call_name call_name rest_call_name renamed rc = (r, rc') ->
    exists added, rc' = rc ++ added.
Proof.
  induction deps as [|d deps IH]; intros renamed rc r rc'; simpl.
  - intros [= <- <-]. exists []. now rewrite app_nil_r.
  - assert (Hcont : forall ren x,
      resolve_import deps module_call_name call_name rest_call_name ren (rc ++ [x]) = (r, rc') ->
      exists added, rc' = rc ++ added).
    { intros ren x H. apply IH in H as [added ->]. exists (x :: added).
      now rewrite <- app_assoc. }
    destruct (String.eqb (import d) module_call_name).
    + destruct (from_module d) as [m|]; [destruct (nonempty m)|]; eauto.
      intros [= <- <-]. eauto.
    + destruct (truthy_opt (alias d)); [|apply IH].
      destruct (match alias d with Some a => String.eqb a module_call_name | None => false end);
        [|apply IH].
      destruct (from_module d) as [m|]; [destruct (nonempty m)|]; intros [= <- <-]; eauto.
Qed.

End WithInspector.
End ResolverMore.

(** X10. The ancestor search [_dfs], started with [renamed] at 0, either
    finds nothing and leaves the list of renamed calls as it was, or
    finds a match and appends exactly one name to it. *)
Theorem dfs_appends_at_most_one
    (fileNameBase : string) (str_hasattr : string -> bool) (fuel : nat)
    (extend : list string) (rest_call_name : string)
    (classes_info : list (string * Resolver.class_info))
    (renamed_calls : list string) (renamed : bool) (renamed_calls' : list string) :
  Resolver._dfs fileNameBase str_hasattr fuel extend rest_call_name false classes_info
    renamed_calls = Ok (renamed, renamed_calls') ->
  (renamed = false /\ renamed_calls' = renamed_calls) \/
  (renamed = true /\ exists name, renamed_calls' = renamed_calls ++ [name]).
Proof. apply ResolverMore.dfs_appends. Qed.

Lemma dfs_appends_at_most_one_witness :
  Resolver._dfs "shapes" (fun _ => false) 2 ["Child"] "run" false Resolver.shapes_classes
    ["a.f"] = Ok (true, ["a.f"; "shapes.Parent.run"]) /\
  ((true = false /\ ["a.f"; "shapes.Parent.run"] = ["a.f"]) \/
   (true = true /\ exists name, ["a.f"; "shapes.Parent.run"] = ["a.f"] ++ [name])).
Proof.
  split; [reflexivity|].
  apply (dfs_appends_at_most_one "shapes" (fun _ => false) 2 ["Child"] "run"
           Resolver.shapes_classes ["a.f"] true ["a.f"; "shapes.Parent.run"]).
  reflexivity.
Defined.

(** X11. A call through [super()] in a class whose first declared base
    is not a class of the file, for a method name that Python strings do
    not have as attribute, makes the resolution raise [KeyError]: the
    ancestor search looks the unknown base up in the class table. *)
Theorem super_call_with_unknown_base_raises
    (fileNameBase : string) (depInfo : list Resolver.dep) (str_hasattr : string -> bool)
    (fuel : nat) (funct_def_info : list (string * Resolver.func_info))
    (classes_info : list (string * Resolver.class_info))
    (child base method : string) (bases : list string)
    (f_store_vars : list (option string * option string)) (renamed_calls : list string) :
  Resolver.lookup base classes_info = None ->
  str_hasattr method = false ->
  (forall c, In c (map fst classes_info) -> PyStr.str_in "(" c = false) ->
  Resolver.stored_target f_store_vars "super()" = None ->
  Resolver.rename_call fileNameBase depInfo str_hasattr (S fuel) funct_def_info classes_info
    child (base :: bases) false f_store_vars (Some ("super()." ++ method)%string)
    renamed_calls = Raise KeyError.
Proof.
  intros Hbase Hattr Hnames Hvars.
  unfold Resolver.rename_call.
  rewrite ResolverFacts.split_super. cbn [getitem nth_error bind tl].
  rewrite ResolverFacts.join_split, Hvars. cbn [bind].
  rewrite ResolverFacts.has_key_false.
  2:{ intros Hin. apply Hnames in Hin.
      rewrite ResolverFacts.str_in_paren_super in Hin. discriminate. }
  change (PyStr.str_in "self" "super()") with false.
  change (PyStr.str_in "super()" "super()") with true.
  cbn [andb]. rewrite ResolverMore.dfs_cons, Hbase, Hattr. reflexivity.
Qed.

Lemma super_call_with_unknown_base_raises_witness :
  Resolver.rename_call "shapes" [] (fun _ => false) 1 Resolver.child_methods
    Resolver.shapes_classes "Child" ["Base"] false [] (Some "super().run") [] =
  Raise KeyError.
Proof.
  apply (super_call_with_unknown_base_raises "shapes" [] (fun _ => false) 0
           Resolver.child_methods Resolver.shapes_classes "Child" "Base" "run" [] [] []).
  - reflexivity.
  - reflexivity.
  - intros c [<- | [<- | []]]; reflexivity.
  - reflexivity.
Defined.

Ltac rename_step H :=
  match type of H with
  | (if ?b then _ else _) = _ => destruct b eqn:?
  | (let (_, _) := ?p in _) = _ => destruct p eqn:?
  | (match ?x with _ => _ end) = _ => destruct x eqn:?
  | bind ?c _ = _ => destruct c as [?|?|] eqn:?; cbn [bind] in H
  end.

Ltac appended :=
  subst; repeat rewrite <- app_assoc;
  first [ eexists; reflexivity
        | exists (@nil string); now rewrite app_nil_r ].

(** X12. The resolution of one call only appends to the list of renamed
    calls: whenever it returns, the names resolved so far are still
    there, in the same order, at the head of the list. *)
Theorem rename_call_only_appends
    (fileNameBase : string) (depInfo : list Resolver.dep) (str_hasattr : string -> bool)
    (fuel : nat) (funct_def_info : list (string * Resolver.func_info))
    (classes_info : list (string * Resolver.class_info))
    (class_name : string) (extend : list string) (body : bool)
    (f_store_vars : list (option string * option string))
    (call_name : option string) (renamed_calls renamed_calls' : list string) :
  Resolver.rename_call fileNameBase depInfo str_hasattr fuel funct_def_info classes_info
    class_name extend body f_store_vars call_name renamed_calls = Ok renamed_calls' ->
  exists added, renamed_calls' = renamed_calls ++ added.
Proof.
  unfold Resolver.rename_call. intros H.
  destruct call_name as [call_name|]; [|discriminate].
  repeat (rename_step H; try discriminate);
    repeat match goal with
    | E : _ = Ok _ |- _ => rename_step E; try discriminate
    end;
    repeat match goal with
    | E : (_, _) = (_, _) |- _ => injection E as ? ?; subst
    | E : Ok _ = Ok _ |- _ => injection E as ?; subst
    | E : Resolver._dfs _ _ _ _ _ _ _ _ = Ok _ |- _ =>
        apply ResolverMore.dfs_appends in E; destruct E as [[? ?] | [? [? ?]]]; subst
    | E : Resolver.resolve_import _ _ _ _ _ _ = _ |- _ =>
        apply ResolverMore.resolve_import_appends in E; destruct E as [? ?]; subst
    end;
    try discriminate; appended.
Qed.

Lemma rename_call_only_appends_witness :
  exists added, ["shapes.Child.area"; "shapes.Parent.run"] = ["shapes.Child.area"] ++ added.
Proof.
  apply (rename_call_only_appends "shapes" [] (fun _ => false) 1 Resolver.child_methods
           Resolver.shapes_classes "Child" ["Parent"] false [] (Some "super().run")
           ["shapes.Child.area"] ["shapes.Child.area"; "shapes.Parent.run"]).
  reflexivity.
Defined.

(** X13. [_fill_call_name] rewrites the calls of the table and nothing
    else: when it returns, the table has the same functions in the same
    order, each with its stored targets and its nested functions as
    before. *)
Theorem fill_call_name_rewrites_only_calls
    (fileNameBase : string) (depInfo : list Resolver.dep) (str_hasattr : string -> bool)
    (fuel : nat) (funct_def_info : list (string * Resolver.func_info))
    (classes_info : list (string * Resolver.class_info))
    (class_name : string) (extend : list string) (body : bool)
    (filled : list (string * Resolver.func_info)) :
  Resolver._fill_call_name fileNameBase depInfo str_hasattr fuel funct_def_info classes_info
    class_name extend body = Ok filled ->
  map fst filled = map fst funct_def_info /\
  map (fun kv => Resolver.store_vars_calls (snd kv)) filled =
    map (fun kv => Resolver.store_vars_calls (snd kv)) funct_def_info /\
  map (fun kv => Resolver.functions (snd kv)) filled =
    map (fun kv => Resolver.functions (snd kv)) funct_def_info.
Proof.
  unfold Resolver._fill_call_name.
  match goal with |- ?f ?l = _ -> _ => set (loop := f) end.
  revert filled. generalize funct_def_info at 1 2 3 4 as functs.
  induction functs as [|[funct info] functs IH]; intros filled.
  - intros [= <-]. repeat split.
  - unfold loop. cbn [bind]. fold loop.
    destruct (Resolver.rename_calls fileNameBase depInfo str_hasattr fuel funct_def_info
                classes_info class_name extend body (Resolver.store_vars_calls info)
                (Resolver.calls info) []) as [renamed_calls| | ]; try discriminate.
    cbn [bind]. destruct (loop functs) as [rest'| | ] eqn:E; try discriminate.
    cbn [bind]. intros [= <-]. destruct (IH rest' eq_refl) as [H1 [H2 H3]].
    cbn [map fst snd]. rewrite H1, H2, H3. destruct info. repeat split.
Qed.

Lemma fill_call_name_rewrites_only_calls_witness :
  let filled :=
    [("load", Resolver.FuncInfo [Some "io.Reader.open"; Some "tool.parse"; Some "json.loads"]
                [(Some "reader", Some "io.Reader")]
                [("inner", Resolver.FuncInfo [Some "parse"] [] [])]);
     ("parse", Resolver.FuncInfo [] [] [])] in
  Resolver._fill_call_name "tool" Tables.tool_dependencies (fun _ => false) 1
    Tables.tool_functions [] "" [] false = Ok filled /\
  map fst filled = map fst Tables.tool_functions /\
  map (fun kv => Resolver.store_vars_calls (snd kv)) filled =
    map (fun kv => Resolver.store_vars_calls (snd kv)) Tables.tool_functions /\
  map (fun kv => Resolver.functions (snd kv)) filled =
    map (fun kv => Resolver.functions (snd kv)) Tables.tool_functions.
Proof.
  cbv zeta. split; [reflexivity|].
  apply (fill_call_name_rewrites_only_calls "tool" Tables.tool_dependencies (fun _ => false) 1
           Tables.tool_functions [] "" [] false).
  reflexivity.
Defined.


(** ** The bases of a class *)

Module BasesFacts.
Import Bases.

Lemma base_ids_length (bases : list expr) (ids : list string) :
  base_ids bases = Ok ids -> length ids = length bases /\ forallb is_Name bases = true.
Proof.
  revert ids; induction bases as [|b bases IH]; intros ids; simpl.
  - intros [= <-]. auto.
  - destruct b; simpl; try discriminate.
    destruct (base_ids bases) as [ids'| | ]; simpl; try discriminate.
    intros [= <-]. destruct (IH ids' eq_refl) as [Hl Hn]. simpl. auto.
Qed.

Lemma fallback_bases_length (bases : list expr) :
  forall extend result,
    fallback_bases bases extend = Ok result ->
    length result = length extend + length bases /\ forallb is_Name bases = false \/
    bases = [] /\ result = extend.
Proof.
  induction bases as [|b bases IH]; intros extend result; simpl.
  - intros [= <-]. now right.
  - destruct (fallback_base b) as [e| | ] eqn:E; simpl; try discriminate.
    intros H. left. assert (Hb : is_Name b = false) by (destruct b; try reflexivity; discriminate).
    rewrite Hb. split; [|reflexivity].
    apply IH in H as [[Hl _] | [-> ->]]; rewrite ?length_app in *; simpl in *; lia.
Qed.

End BasesFacts.

(** X14. The recorded list of bases is all or nothing: it holds one
    entry for every base of the class, or it is empty; when all bases
    are names it holds these names in order. *)
Theorem class_extend_all_or_nothing (bases : list expr) :
  (Bases.class_extend bases = [] \/
   length (Bases.class_extend bases) = length bases) /\
  (forall ids, bases = map Name ids -> Bases.class_extend bases = ids).
Proof.
  split.
  - unfold Bases.class_extend.
    destruct (Bases.base_ids bases) as [ids| | ] eqn:E.
    + right. now apply BasesFacts.base_ids_length in E.
    + destruct (Bases.fallback_bases bases []) as [ext| | ] eqn:F; auto.
      apply BasesFacts.fallback_bases_length in F as [[Hl _] | [_ ->]]; auto.
    + destruct (Bases.fallback_bases bases []) as [ext| | ] eqn:F; auto.
      apply BasesFacts.fallback_bases_length in F as [[Hl _] | [_ ->]]; auto.
  - intros ids ->. unfold Bases.class_extend.
    assert (H : Bases.base_ids (map Name ids) = Ok ids).
    { induction ids as [|i ids IH]; simpl; [reflexivity | now rewrite IH]. }
    now rewrite H.
Qed.

Lemma class_extend_all_or_nothing_witness :
  Bases.class_extend (map Name ["Base"; "Mixin"]) = ["Base"; "Mixin"].
Proof.
  exact (proj2 (class_extend_all_or_nothing (map Name ["Base"; "Mixin"]))
           ["Base"; "Mixin"] eq_refl).
Defined.

(** X15. A class that mixes a base written as a plain name with a base
    of any other form (such as [module.Class]) is recorded with no base
    at all: the first attempt fails on the other base, the second one on
    the plain name. *)
Theorem class_extend_mixed_is_empty (bases : list expr) (id : string) (other : expr) :
  In (Name id) bases ->
  In other bases ->
  Bases.is_Name other = false ->
  Bases.class_extend bases = [].
Proof.
  intros Hname Hother Hno. unfold Bases.class_extend.
  assert (H1 : forall ids, Bases.base_ids bases <> Ok ids).
  { intros ids E. apply BasesFacts.base_ids_length in E as [_ E].
    rewrite forallb_forall in E. specialize (E other Hother). congruence. }
  assert (H2 : forall extend result, Bases.fallback_bases bases extend <> Ok result).
  { clear H1 Hother. induction bases as [|b bases IH]; [destruct Hname|].
    intros extend result. simpl. destruct Hname as [-> | Hin]; [discriminate|].
    destruct (Bases.fallback_base b); simpl; try discriminate. now apply IH. }
  destruct (Bases.base_ids bases) as [ids| | ]; [now destruct (H1 ids)| | ];
    (destruct (Bases.fallback_bases bases []) as [ext| | ] eqn:F;
       [now destruct (H2 [] ext) | reflexivity | reflexivity]).
Qed.

Lemma class_extend_mixed_is_empty_witness :
  Bases.class_extend [Name "Base"; Attribute (Name "mixins") "Loggable"] = [] /\
  Bases.class_extend [Attribute (Name "mixins") "Loggable"] = ["mixins.Loggable"].
Proof.
  split; [|reflexivity].
  apply (class_extend_mixed_is_empty
           [Name "Base"; Attribute (Name "mixins") "Loggable"]
           "Base" (Attribute (Name "mixins") "Loggable")).
  - now left.
  - right. now left.
  - reflexivity.
Defined.

(** ** The call lists *)

Module CallGraphFacts.
Import Resolver CallGraph.

Section FuncInfoInduction.
Variable P : func_info -> Prop.
Hypothesis HFuncInfo :
  forall calls store_vars functions,
    Forall (fun kv => P (snd kv)) functions -> P (FuncInfo calls store_vars functions).

Lemma func_info_tree_ind : forall f, P f.
Proof.
  fix IH 1. intros [calls store_vars functions]. apply HFuncInfo.
  induction functions as [|[name info] functions IHf]; constructor; [apply IH | exact IHf].
Qed.
End FuncInfoInduction.

Lemma function_calls_unfold calls store_vars functions :
  function_calls (FuncInfo calls store_vars functions) =
  Graph (("local", Local calls) ::
         match functions with
         | [] => []
         | _ => [("nested", Graph (functions_loop functions []))]
         end).
Proof.
  destruct functions as [|kv functions]; reflexivity.
Qed.

Lemma method_calls_unfold calls store_vars functions :
  method_calls (FuncInfo calls store_vars functions) =
  Graph (("local", Local calls) ::
         match functions with
         | [] => []
         | _ => [("nested", Graph (extract_call_methods_loop functions []))]
         end).
Proof.
  destruct functions as [|kv functions]; reflexivity.
Qed.

Lemma loops_agree (table : list (string * func_info)) :
  Forall (fun kv => method_calls (snd kv) = function_calls (snd kv)) table ->
  forall acc, extract_call_methods_loop table acc = functions_loop table acc.
Proof.
  intros H; induction H as [|[name info] table Hinfo _ IH]; intros acc; [reflexivity|].
  simpl in *. rewrite Hinfo. apply IH.
Qed.

Lemma method_calls_function_calls : forall info, method_calls info = function_calls info.
Proof.
  induction info as [calls store_vars functions IH] using func_info_tree_ind.
  rewrite method_calls_unfold, function_calls_unfold.
  now rewrite (loops_agree functions IH).
Qed.

Lemma set_key_fresh {V : Type} (k : string) (v : V) (d : list (string * V)) :
  ~ In k (map fst d) -> set_key k v d = d ++ [(k, v)].
Proof.
  induction d as [|[k' w] d IH]; simpl; intros Hn; [reflexivity|].
  destruct (String.eqb k' k) eqn:E.
  - apply String.eqb_eq in E. exfalso. apply Hn. now left.
  - rewrite IH; [reflexivity | intros Hin; apply Hn; now right].
Qed.

Lemma functions_loop_keys (funcsInfo : list (string * func_info)) :
  forall acc,
    NoDup (map fst acc ++ map fst funcsInfo) ->
    map fst (functions_loop funcsInfo acc) =
    map fst acc ++ map fst (filter (fun kv => has_calls (snd kv)) funcsInfo).
Proof.
  induction funcsInfo as [|[funct info] funcsInfo IH]; intros acc Hnd; simpl.
  - now rewrite app_nil_r.
  - simpl in Hnd. destruct (has_calls info) eqn:E.
    + assert (Hfresh : ~ In funct (map fst acc)).
      { apply NoDup_remove_2 in Hnd. intros Hin. apply Hnd. apply in_or_app. now left. }
      rewrite (set_key_fresh funct _ acc Hfresh), IH.
      * rewrite map_app. simpl. now rewrite <- app_assoc.
      * rewrite map_app. simpl. now rewrite <- app_assoc.
    + apply IH. now apply NoDup_remove_1 in Hnd.
Qed.

End CallGraphFacts.

(** X16. [extract_call_methods] and [extract_call_functions] (without
    the [body] flag) build the same call list from the same table. *)
Theorem extract_call_methods_same_as_functions
    (table : list (string * Resolver.func_info)) :
  CallGraph.extract_call_functions table false = Ok (CallGraph.extract_call_methods table).
Proof.
  unfold CallGraph.extract_call_functions, CallGraph.extract_call_methods.
  apply (f_equal Ok). symmetry. apply CallGraphFacts.loops_agree.
  apply Forall_forall. intros kv _. apply CallGraphFacts.method_calls_function_calls.
Qed.

(** X17. The call list of a table has one entry for each function that
    makes a call of its own, in the order of the table, and none for the
    others: a function without calls is left out together with the calls
    of its nested functions. *)
Theorem extract_call_functions_keys (funcsInfo : list (string * Resolver.func_info)) :
  NoDup (map fst funcsInfo) ->
  exists call_list,
    CallGraph.extract_call_functions funcsInfo false = Ok call_list /\
    map fst call_list =
      map fst (filter (fun kv => CallGraph.has_calls (snd kv)) funcsInfo).
Proof.
  intros Hnd. eexists. split; [reflexivity|].
  now apply (CallGraphFacts.functions_loop_keys funcsInfo []).
Qed.

Lemma extract_call_functions_keys_witness :
  exists call_list,
    CallGraph.extract_call_functions CallGraph.sample_functions false = Ok call_list /\
    map fst call_list = ["main"; "tool"].
Proof.
  apply (extract_call_functions_keys CallGraph.sample_functions).
  repeat constructor; simpl; intuition discriminate.
Defined.


(** ** Service records *)

Module ServiceFacts.
Import Resolver Service.

Lemma service_record_eqb_refl (path has_structure : string) :
  soft_info_eqb (service_record path has_structure) (service_record path has_structure) = true.
Proof.
  unfold soft_info_eqb, service_record, dict_eqb. simpl.
  now rewrite !String.eqb_refl.
Qed.

Lemma existsb_snoc {A : Type} (p : A -> bool) (l : list A) (x : A) :
  p x = true -> existsb p (l ++ [x]) = true.
Proof. intros H. rewrite existsb_app. simpl. rewrite H. now rewrite orb_true_r. Qed.

Section WithLower.
Variable lower : string -> string.

(** What one test does to the list: nothing when it fails; when it
    succeeds the record of the file is in the list, added at its end
    only if it was missing. *)
Lemma service_in_set_result data path l hs :
  (service_in_set lower data path l hs = (false, l)) \/
  (service_in_set lower data path l hs =
     (true, if existsb (soft_info_eqb (service_record path hs)) l
            then l else l ++ [service_record path hs])).
Proof.
  unfold service_in_set. destruct data as [d|]; [|now left].
  destruct (PyStr.nonempty d); [|now left].
  destruct (existsb (String.eqb (lower d)) server_dependencies); [now right | now left].
Qed.

Lemma service_in_set_flag data path l1 l2 hs :
  fst (service_in_set lower data path l1 hs) = fst (service_in_set lower data path l2 hs).
Proof.
  unfold service_in_set. destruct data as [d|]; [|reflexivity].
  destruct (PyStr.nonempty d); [|reflexivity].
  destruct (existsb (String.eqb (lower d)) server_dependencies); reflexivity.
Qed.

Lemma added_once path hs l :
  let l' := if existsb (soft_info_eqb (service_record path hs)) l
            then l else l ++ [service_record path hs] in
  existsb (soft_info_eqb (service_record path hs)) l' = true.
Proof.
  cbv zeta. destruct (existsb (soft_info_eqb (service_record path hs)) l) eqn:E; [exact E|].
  apply existsb_snoc, service_record_eqb_refl.
Qed.

Lemma service_check_result dependencies path hs :
  forall l flag l',
    service_check lower dependencies path l hs = (flag, l') ->
    (flag = false /\ l' = l) \/
    (flag = true /\
     l' = (if existsb (soft_info_eqb (service_record path hs)) l
           then l else l ++ [service_record path hs])).
Proof.
  induction dependencies as [|dep rest IH]; intros l flag l'; cbn [service_check].
  - intros [= <- <-]. now left.
  - destruct (service_in_set_result (Some (import dep)) path l hs) as [-> | ->].
    + destruct (service_in_set_result (from_module dep) path l hs) as [-> | ->].
      * apply IH.
      * intros [= <- <-]. now right.
    + intros [= <- <-]. now right.
Qed.

Lemma service_check_flag dependencies path hs :
  forall l1 l2,
    fst (service_check lower dependencies path l1 hs) =
    fst (service_check lower dependencies path l2 hs).
Proof.
  induction dependencies as [|dep rest IH]; intros l1 l2; cbn [service_check];
    [reflexivity|].
  pose proof (service_in_set_flag (Some (import dep)) path l1 l2 hs) as Hf.
  destruct (service_in_set lower (Some (import dep)) path l1 hs) as [f1 a1].
  destruct (service_in_set lower (Some (import dep)) path l2 hs) as [f2 a2].
  simpl in Hf. subst f2. destruct f1; [reflexivity|].
  pose proof (service_in_set_flag (from_module dep) path a1 a2 hs) as Hg.
  destruct (service_in_set lower (from_module dep) path a1 hs) as [g1 b1].
  destruct (service_in_set lower (from_module dep) path a2 hs) as [g2 b2].
  simpl in Hg. subst g2. destruct g1; [reflexivity|]. apply IH.
Qed.

End WithLower.
End ServiceFacts.

(** X18. [service_check] leaves the list of records alone when it finds
    no service dependency; when it finds one, the service record of the
    file is in the list afterwards, appended only if it was not
    there. *)
Theorem service_check_adds_record_once
    (lower : string -> string) (dependencies : list Resolver.dep) (path has_structure : string)
    (software_invocation_info : list soft_info) :
  let record := Service.service_record path has_structure in
  let result := Service.service_check lower dependencies path software_invocation_info
                  has_structure in
  (fst result = false /\ snd result = software_invocation_info) \/
  (fst result = true /\
   existsb (Service.soft_info_eqb record) (snd result) = true /\
   (snd result = software_invocation_info \/
    existsb (Service.soft_info_eqb record) software_invocation_info = false /\
    snd result = software_invocation_info ++ [record])).
Proof.
  cbv zeta.
  destruct (Service.service_check lower dependencies path software_invocation_info
              has_structure) as [flag l'] eqn:E.
  apply ServiceFacts.service_check_result in E as [[-> ->] | [-> ->]]; [now left|].
  right. simpl. split; [reflexivity|]. split; [apply ServiceFacts.added_once|].
  destruct (existsb _ software_invocation_info); auto.
Qed.

(** X19. Checking the same file twice adds nothing: run again on the
    list it returned, [service_check] returns the same flag and the same
    list. *)
Theorem service_check_twice
    (lower : string -> string) (dependencies : list Resolver.dep) (path has_structure : string)
    (software_invocation_info : list soft_info) :
  let result := Service.service_check lower dependencies path software_invocation_info
                  has_structure in
  Service.service_check lower dependencies path (snd result) has_structure = result.
Proof.
  cbv zeta.
  destruct (Service.service_check lower dependencies path software_invocation_info
              has_structure) as [flag l'] eqn:E. simpl.
  destruct (Service.service_check lower dependencies path l' has_structure)
    as [flag2 l''] eqn:E2.
  pose proof (ServiceFacts.service_check_result lower _ _ _ _ _ _ E) as [[-> ->] | [-> Hl']].
  - now rewrite E in E2.
  - pose proof (ServiceFacts.service_check_result lower _ _ _ _ _ _ E2) as [[-> ->] | [-> ->]].
    + pose proof (ServiceFacts.service_check_flag lower dependencies path has_structure
                    l' software_invocation_info) as Hf.
      rewrite E2, E in Hf. simpl in Hf. discriminate Hf.
    + f_equal.
      assert (Hin : existsb (Service.soft_info_eqb (Service.service_record path has_structure))
                      l' = true).
      { rewrite Hl'. apply ServiceFacts.added_once. }
      now rewrite Hin.
Qed.

(** A file importing [Flask] from [flask] gets one service record, and
    a second check of the same file adds none. *)
Example service_check_flask :
  Service.service_check Service.sample_lower Service.flask_dependencies "/repo/app.py"
    [] "main" = (true, [Service.service_record "/repo/app.py" "main"]) /\
  Service.service_check Service.sample_lower Service.flask_dependencies "/repo/app.py"
    [Service.service_record "/repo/app.py" "main"] "main" =
    (true, [Service.service_record "/repo/app.py" "main"]).
Proof. split; reflexivity. Qed.

(** ** The summary of a report *)

Module SummaryFacts.
Import Summary.

Section WithLen.
Variable str_len : string -> nat.

Lemma contains_dict_get (name : string) (items : list (key * json)) :
  existsb (fun kv => key_eqb (fst kv) (KStr name)) items = true ->
  exists v, dict_get (KStr name) items = Some v.
Proof.
  induction items as [|[k v] items IH]; simpl; [discriminate|].
  destruct (key_eqb k (KStr name)); [eauto | exact IH].
Qed.

Lemma dict_get_contains (name : string) (items : list (key * json)) :
  existsb (fun kv => key_eqb (fst kv) (KStr name)) items = false ->
  dict_get (KStr name) items = None.
Proof.
  induction items as [|[k v] items IH]; simpl; [reflexivity|].
  destruct (key_eqb k (KStr name)); [discriminate | exact IH].
Qed.

(** Adding a length either succeeds or raises [TypeError]. *)
Lemma add_len_outcome (name : string) (element : json) (total : nat) :
  (exists n, add_len str_len name element total = Ok n) \/
  add_len str_len name element total = Raise TypeError.
Proof.
  unfold add_len. destruct element as [ | b | n | s | elems | items]; simpl; auto.
  - destruct (PyStr.str_in name s); simpl; eauto.
  - destruct (existsb _ elems); simpl; eauto.
  - destruct (existsb _ items) eqn:E; simpl; [|eauto].
    apply contains_dict_get in E as [v ->]. simpl.
    destruct v; simpl; eauto.
Qed.

Lemma add_len_countable (name : string) (items : list (key * json)) (total : nat) :
  match dict_get (KStr name) items with Some v => has_len v | None => true end = true ->
  exists n, add_len str_len name (JDict items) total = Ok n.
Proof.
  unfold add_len. simpl. destruct (existsb _ items) eqn:E; simpl.
  - apply contains_dict_get in E as [v ->]. simpl. intros Hv.
    destruct v; try discriminate; simpl; eauto.
  - intros _. eauto.
Qed.

Lemma count_elements_outcome (value : list json) :
  forall c,
    (exists c', count_elements str_len value c = Ok c' /\
                files c' = files c + length value /\ folders c' = folders c) \/
    count_elements str_len value c = Raise TypeError.
Proof.
  induction value as [|element rest IH]; intros c; cbn [count_elements].
  - left. exists c. simpl. auto.
  - destruct (add_len_outcome "dependencies" element (dependencies c)) as [[d ->] | ->];
      [|now right]. cbn [bind].
    destruct (add_len_outcome "functions" element (functions c)) as [[f ->] | ->];
      [|now right]. cbn [bind].
    destruct (add_len_outcome "classes" element (classes c)) as [[k ->] | ->];
      [|now right]. cbn [bind].
    match goal with |- context [count_elements str_len rest ?c0] =>
      destruct (IH c0) as [[c' [-> [Hf Hd]]] | ->]; [left | now right] end.
    exists c'. simpl in *. repeat split; lia.
Qed.

Lemma count_elements_countable (value : list json) :
  forallb countable_element value = true ->
  forall c, exists c', count_elements str_len value c = Ok c'.
Proof.
  induction value as [|element rest IH]; intros Hw c; cbn [count_elements]; [eauto|].
  simpl in Hw. apply andb_true_iff in Hw as [He Hrest].
  destruct element as [ | | | | |items]; try discriminate.
  simpl in He. rewrite !andb_true_iff in He. destruct He as [Hd [Hf [Hc _]]].
  destruct (add_len_countable "dependencies" items (dependencies c) Hd) as [d ->].
  destruct (add_len_countable "functions" items (functions c) Hf) as [f ->].
  destruct (add_len_countable "classes" items (classes c) Hc) as [k ->].
  cbn [bind]. apply IH, Hrest.
Qed.

Lemma count_entries_outcome (items : list (key * json)) :
  forall c,
    (exists c', count_entries str_len items c = Ok c' /\
                files c' = files c + listed_elements items /\
                folders c' = folders c + path_keys items) \/
    count_entries str_len items c = Raise TypeError.
Proof.
  induction items as [|[k value] rest IH]; intros c; cbn [count_entries].
  - left. exists c. unfold listed_elements, path_keys. simpl. auto.
  - destruct k as [s|n]; [|now right]. cbn [bind].
    set (c1 := if PyStr.str_in "/" s then _ else c).
    assert (Hc1 : files c1 = files c /\
                  folders c1 = folders c + (if PyStr.str_in "/" s then 1 else 0)).
    { subst c1. destruct (PyStr.str_in "/" s); simpl; lia. }
    destruct Hc1 as [Hf1 Hd1].
    assert (Hvalue :
      (exists c2, match value with JList elems => count_elements str_len elems c1
                                  | _ => Ok c1 end = Ok c2 /\
                  files c2 = files c1 +
                             match value with JList elems => length elems | _ => 0 end /\
                  folders c2 = folders c1) \/
      match value with JList elems => count_elements str_len elems c1 | _ => Ok c1 end
        = Raise TypeError).
    { destruct value; try (left; exists c1; repeat split; lia).
      apply count_elements_outcome. }
    destruct Hvalue as [[c2 [-> [Hf2 Hd2]]] | ->]; [|now right]. cbn [bind].
    destruct (IH c2) as [[c' [-> [Hf Hd]]] | ->]; [left | now right].
    exists c'. split; [reflexivity|].
    unfold listed_elements, path_keys in *. cbn [map list_sum filter fst snd length].
    destruct (PyStr.str_in "/" s); simpl; lia.
Qed.

Lemma count_entries_countable (items : list (key * json)) :
  countable items = true ->
  forall c, exists c', count_entries str_len items c = Ok c'.
Proof.
  induction items as [|[k value] rest IH]; intros Hw c; cbn [count_entries]; [eauto|].
  unfold countable in Hw. simpl in Hw. fold (countable rest) in Hw.
  apply andb_true_iff in Hw as [Hkv Hrest]. apply andb_true_iff in Hkv as [Hk Hv].
  destruct k as [s|n]; [|discriminate]. cbn [bind].
  set (c1 := if PyStr.str_in "/" s then _ else c). clearbody c1.
  destruct value; cbn [bind]; try apply (IH Hrest).
  destruct (count_elements_countable elems Hv c1) as [c2 ->]. cbn [bind].
  apply (IH Hrest).
Qed.

End WithLen.
End SummaryFacts.

(** X20. On a report it can count, [print_summary] returns, and the
    number of files it prints is the number of elements of all the
    list-valued entries of the report (the records under
    ["software_invocation"] included), the number of folders being the
    number of keys that hold a path separator. *)
Theorem print_summary_counts (str_len : string -> nat) (json_dict : list (key * json)) :
  Summary.countable json_dict = true ->
  exists c,
    Summary.print_summary str_len json_dict = Ok c /\
    Summary.files c = Summary.listed_elements json_dict /\
    Summary.folders c = Summary.path_keys json_dict.
Proof.
  intros Hw. unfold Summary.print_summary.
  destruct (SummaryFacts.count_entries_countable str_len json_dict Hw
              {| Summary.folders := 0; Summary.files := 0; Summary.dependencies := 0;
                 Summary.functions := 0; Summary.classes := 0 |}) as [c Hc].
  exists c. split; [exact Hc|].
  destruct (SummaryFacts.count_entries_outcome str_len json_dict
              {| Summary.folders := 0; Summary.files := 0; Summary.dependencies := 0;
                 Summary.functions := 0; Summary.classes := 0 |})
    as [[c' [Hc' [Hf Hd]]] | Hr]; [|congruence].
  rewrite Hc in Hc'. injection Hc' as <-. simpl in *. auto.
Qed.

Lemma print_summary_counts_witness :
  Summary.countable Summary.sample_dir_info = true /\
  exists c,
    Summary.print_summary String.length Summary.sample_dir_info = Ok c /\
    Summary.files c = 3 /\
    Summary.folders c = 1.
Proof.
  split; [reflexivity|].
  exact (print_summary_counts String.length Summary.sample_dir_info eq_refl).
Defined.

(** X21. Whatever the report holds, [print_summary] either returns its
    counts or raises [TypeError] (a key that is not a text, an element
    that is a number, a field without length); it never raises
    [KeyError], since a field is read only after the test that it is
    there. *)
Theorem print_summary_raises_only_type_error
    (str_len : string -> nat) (json_dict : list (key * json)) :
  (exists c, Summary.print_summary str_len json_dict = Ok c) \/
  Summary.print_summary str_len json_dict = Raise TypeError.
Proof.
  unfold Summary.print_summary.
  destruct (SummaryFacts.count_entries_outcome str_len json_dict
              {| Summary.folders := 0; Summary.files := 0; Summary.dependencies := 0;
                 Summary.functions := 0; Summary.classes := 0 |})
    as [[c' [Hc' _]] | Hr]; eauto.
Qed.


(** ** Line intervals *)

Module IntervalFacts.
Import Interval.

Lemma fold_min_max (walked : list (option Z)) :
  forall lo hi : Z,
    (lo <= hi)%Z ->
    let mm := fold_left (fun mm lineno =>
                           match lineno with
                           | Some n => (Z.min (fst mm) n, Z.max (snd mm) n)
                           | None => mm
                           end) walked (lo, hi) in
    (fst mm <= lo /\ hi <= snd mm)%Z /\
    (forall n, In (Some n) walked -> (fst mm <= n <= snd mm)%Z) /\
    (fst mm = lo \/ In (Some (fst mm)) walked) /\
    (snd mm = hi \/ In (Some (snd mm)) walked).
Proof.
  induction walked as [|lineno walked IH]; intros lo hi Hle; cbn [fold_left].
  - cbv zeta. cbn [fst snd]. split; [lia|]. split; [intros n []|]. split; now left.
  - destruct lineno as [n|].
    + cbn [fst snd].
      assert (Hle' : (Z.min lo n <= Z.max hi n)%Z) by lia.
      destruct (IH (Z.min lo n) (Z.max hi n) Hle') as [[H1 H2] [H3 [H4 H5]]].
      cbv zeta in *. split; [lia|]. split; [|split].
      * intros m [[= <-] | Hin]; [lia | now apply H3].
      * destruct H4 as [H4 | H4]; [|right; now right].
        rewrite H4. destruct (Z.min_spec lo n) as [[_ ->] | [_ ->]]; [now left|].
        right. now left.
      * destruct H5 as [H5 | H5]; [|right; now right].
        rewrite H5. destruct (Z.max_spec hi n) as [[_ ->] | [_ ->]]; [|now left].
        right. now left.
    + destruct (IH lo hi Hle) as [[H1 H2] [H3 [H4 H5]]].
      cbv zeta in *. split; [lia|]. split; [|split].
      * intros m [[=] | Hin]. now apply H3.
      * destruct H4; [now left | right; now right].
      * destruct H5; [now left | right; now right].
Qed.

End IntervalFacts.

(** X22. The interval computed for a node starts at the smallest line
    number met (that of the node or of a node of its subtree) and ends
    one past the largest: every line number met lies from the first
    bound to the second bound minus one, and both are reached. *)
Theorem compute_interval_bounds (node_lineno : Z) (walked : list (option Z)) :
  let interval := Interval._compute_interval node_lineno walked in
  let lo := Interval.min_lineno interval in
  let hi := Interval.max_lineno interval in
  (lo <= node_lineno < hi)%Z /\
  (forall n, In (Some n) walked -> (lo <= n < hi)%Z) /\
  (lo = node_lineno \/ In (Some lo) walked) /\
  ((hi - 1)%Z = node_lineno \/ In (Some (hi - 1)%Z) walked).
Proof.
  cbv zeta. unfold Interval._compute_interval, Interval.min_lineno, Interval.max_lineno.
  pose proof (IntervalFacts.fold_min_max walked node_lineno node_lineno (Z.le_refl _)) as H.
  cbv zeta in H.
  destruct (fold_left _ walked (node_lineno, node_lineno)) as [mn mx].
  cbn [fst snd] in *. destruct H as [[H1 H2] [H3 [H4 H5]]].
  replace (mx + 1 - 1)%Z with mx by lia.
  split; [lia|]. split; [|split; assumption].
  intros n Hn. apply H3 in Hn. lia.
Qed.

Lemma compute_interval_bounds_witness :
  Interval._compute_interval 10 [Some 10%Z; None; Some 12%Z; Some 11%Z] = (10%Z, 13%Z) /\
  (10 <= 12 < 13)%Z.
Proof.
  split; [reflexivity|].
  apply (proj1 (proj2 (compute_interval_bounds 10 [Some 10%Z; None; Some 12%Z; Some 11%Z]))).
  right. right. now left.
Defined.

(** ** The text of the control flow *)

Module FlowFacts.
Import Flow.

Lemma without_blanks_app (a b : string) :
  without_blanks (a ++ b) = (without_blanks a ++ without_blanks b)%string.
Proof.
  induction a as [|c a IH]; [reflexivity|]. simpl.
  destruct (Ascii.eqb c space || Ascii.eqb c newline); simpl; now rewrite IH.
Qed.

Lemma without_blanks_spaces (n : nat) : without_blanks (spaces n) = "".
Proof. induction n as [|n IH]; [reflexivity | exact IH]. Qed.

Lemma append_nil_r (s : string) : (s ++ "")%string = s.
Proof. induction s as [|c s IH]; simpl; [reflexivity | now rewrite IH]. Qed.

Lemma eqb_newline_blank (sym : ascii) :
  Ascii.eqb sym newline = true -> Ascii.eqb sym space || Ascii.eqb sym newline = true.
Proof. intros ->. apply orb_true_r. Qed.

Lemma last_shift_ok (shifts : list nat) (r : res string) (k : nat -> res string) (out : string) :
  (shift <- last_shift shifts ;; k shift) = Ok out ->
  exists shift, k shift = Ok out.
Proof.
  unfold last_shift. destruct shifts; [discriminate|]. simpl. eauto.
Qed.

(** The loop only inserts spaces and line breaks. *)
Lemma format_loop_blanks (s : string) :
  forall result shifts pos next_is_list out,
    format_loop s result shifts pos next_is_list = Ok out ->
    without_blanks out = (without_blanks result ++ without_blanks s)%string.
Proof.
  induction s as [|sym rest IH]; intros result shifts pos next_is_list out; cbn [format_loop].
  - intros [= <-]. now rewrite append_nil_r.
  - destruct (Ascii.eqb sym newline) eqn:En.
    + intros H. apply (last_shift_ok shifts (Ok out)) in H as [shift H].
      assert (Hsym : without_blanks (String sym rest) = without_blanks rest).
      { simpl. now rewrite (eqb_newline_blank sym En). }
      rewrite Hsym.
      assert (Hres : without_blanks (result ++ String sym (spaces shift)) =
                     without_blanks result).
      { rewrite without_blanks_app. simpl.
        rewrite (eqb_newline_blank sym En), without_blanks_spaces. apply append_nil_r. }
      destruct rest as [|next rest'].
      * apply IH in H. now rewrite H, Hres.
      * destruct (negb (Ascii.eqb next lt || Ascii.eqb next gt)); apply IH in H; rewrite H.
        -- rewrite without_blanks_app, Hres. simpl. now rewrite append_nil_r.
        -- now rewrite Hres.
    + assert (Hkeep : Ascii.eqb sym lt = true \/ Ascii.eqb sym gt = true ->
                      without_blanks (String sym rest) = String sym (without_blanks rest)).
      { intros [E | E]; apply Ascii.eqb_eq in E; subst sym; reflexivity. }
      destruct (Ascii.eqb sym lt) eqn:El.
      * intros H. apply IH in H. rewrite H, without_blanks_app, (Hkeep (or_introl eq_refl)).
        apply Ascii.eqb_eq in El. subst sym. simpl.
        now rewrite WalkFacts.append_assoc.
      * destruct (Ascii.eqb sym gt) eqn:Eg.
        -- intros H. apply (last_shift_ok shifts (Ok out)) in H as [shift H].
           apply Ascii.eqb_eq in Eg. subst sym.
           assert (Hres : without_blanks
                            (result ++ String newline (spaces shift) ++ String gt "") =
                          (without_blanks result ++ String gt "")%string).
           { rewrite without_blanks_app. f_equal. simpl.
             rewrite without_blanks_app, without_blanks_spaces. reflexivity. }
           destruct (is_next_list rest); apply IH in H; rewrite H, Hres;
             simpl; now rewrite WalkFacts.append_assoc.
        -- intros H. apply IH in H. rewrite H, without_blanks_app.
           rewrite WalkFacts.append_assoc. f_equal. simpl.
           destruct (Ascii.eqb sym space || Ascii.eqb sym newline) eqn:Eb; [|reflexivity].
           rewrite En, orb_false_r in Eb. reflexivity.
Qed.

Lemma free_of_cons (chars : list ascii) (c : ascii) (s : string) :
  free_of chars (String c s) = negb (existsb (Ascii.eqb c) chars) && free_of chars s.
Proof. reflexivity. Qed.

(** Text without line break and closing bracket goes through
    unchanged. *)
Lemma format_loop_plain (s : string) :
  free_of [newline; gt] s = true ->
  forall result shifts pos next_is_list,
    format_loop s result shifts pos next_is_list = Ok (result ++ s)%string.
Proof.
  induction s as [|sym rest IH]; intros Hfree result shifts pos next_is_list.
  - simpl. now rewrite append_nil_r.
  - rewrite free_of_cons in Hfree. apply andb_true_iff in Hfree as [Hsym Hrest].
    simpl in Hsym. rewrite orb_false_r in Hsym. apply negb_true_iff in Hsym.
    apply orb_false_iff in Hsym as [En Eg].
    cbn [format_loop]. rewrite En, Eg.
    assert (Happ : forall r, ((r ++ String sym "") ++ rest = r ++ String sym rest)%string)
      by (intros r; now rewrite WalkFacts.append_assoc).
    destruct (Ascii.eqb sym lt); rewrite (IH Hrest); now rewrite Happ.
Qed.

(** Before the first opening bracket the stack of shifts is empty. *)
Lemma format_loop_raises (pre : string) :
  free_of [newline; lt; gt] pre = true ->
  forall c rest result pos next_is_list,
    Ascii.eqb c newline || Ascii.eqb c gt = true ->
    format_loop (pre ++ String c rest) result [] pos next_is_list = Raise IndexError.
Proof.
  induction pre as [|sym pre IH]; intros Hfree c rest result pos next_is_list Hc.
  - cbn [append format_loop]. apply orb_true_iff in Hc as [E | E].
    + now rewrite E.
    + destruct (Ascii.eqb c newline); [reflexivity|].
      apply Ascii.eqb_eq in E. subst c. reflexivity.
  - rewrite free_of_cons in Hfree. apply andb_true_iff in Hfree as [Hsym Hrest].
    simpl in Hsym. rewrite orb_false_r in Hsym. apply negb_true_iff in Hsym.
    apply orb_false_iff in Hsym as [En Hsym]. apply orb_false_iff in Hsym as [El Eg].
    change ((String sym pre ++ String c rest)%string) with (String sym (pre ++ String c rest)).
    cbn [format_loop]. rewrite En, El, Eg. now apply IH.
Qed.

End FlowFacts.

(** X23. [_formatFlow] changes nothing but blanks: when it returns, the
    text without its spaces and line breaks is the input without its
    spaces and line breaks. *)
Theorem formatFlow_changes_only_blanks (s out : string) :
  Flow._formatFlow s = Ok out ->
  Flow.without_blanks out = Flow.without_blanks s.
Proof.
  unfold Flow._formatFlow. intros H. now apply FlowFacts.format_loop_blanks in H.
Qed.

Lemma formatFlow_changes_only_blanks_witness :
  Flow._formatFlow "<a<b>c>" =
    Ok (String.append "<a<b" (String Flow.newline (String.append "  >c" (String Flow.newline ">")))) /\
  Flow.without_blanks
    (String.append "<a<b" (String Flow.newline (String.append "  >c" (String Flow.newline ">")))) =
  Flow.without_blanks "<a<b>c>".
Proof.
  split; [reflexivity|].
  apply (formatFlow_changes_only_blanks "<a<b>c>"). reflexivity.
Defined.

(** X24. A text with no line break and no closing bracket is returned as
    it is. *)
Theorem formatFlow_plain_text (s : string) :
  Flow.free_of [Flow.newline; Flow.gt] s = true ->
  Flow._formatFlow s = Ok s.
Proof.
  intros Hfree. unfold Flow._formatFlow.
  exact (FlowFacts.format_loop_plain s Hfree "" [] 0 false).
Qed.

Lemma formatFlow_plain_text_witness :
  Flow._formatFlow "x = f(a) <Module" = Ok "x = f(a) <Module".
Proof.
  apply (formatFlow_plain_text "x = f(a) <Module"). reflexivity.
Defined.

(** X25. [_formatFlow] raises [IndexError] on a text whose first line
    break or closing bracket comes before any opening bracket: the
    indent of the enclosing bracket is read from an empty stack. *)
Theorem formatFlow_raises_before_first_bracket (pre rest : string) (c : ascii) :
  Flow.free_of [Flow.newline; Flow.lt; Flow.gt] pre = true ->
  Ascii.eqb c Flow.newline || Ascii.eqb c Flow.gt = true ->
  Flow._formatFlow (pre ++ String c rest) = Raise IndexError.
Proof.
  intros Hfree Hc. unfold Flow._formatFlow. now apply FlowFacts.format_loop_raises.
Qed.

Lemma formatFlow_raises_before_first_bracket_witness :
  Flow._formatFlow "ab><c>" = Raise IndexError.
Proof.
  apply (formatFlow_raises_before_first_bracket "ab" "<c>" ">"%char); reflexivity.
Defined.


(** ** Relations between main files *)

Module RelationsFacts.
Import CallGraph Relations.

Section CallsTreeInduction.
Variable P : calls_tree -> Prop.
Hypothesis HLocal : forall calls, P (Local calls).
Hypothesis HGraph :
  forall entries, Forall (fun kv => P (snd kv)) entries -> P (Graph entries).

Lemma calls_tree_ind' : forall t, P t.
Proof.
  fix IH 1. intros [calls | entries].
  - apply HLocal.
  - apply HGraph.
    induction entries as [|[k sub] entries IHe]; constructor; [apply IH | exact IHe].
Qed.
End CallsTreeInduction.

Section OneFile.
Variable call_list : list (string * list (string * list (string * calls_tree))).
Variable file : string.

Lemma extract_local_function_ok f :
  searcher_ok file f ->
  forall calls m r, extract_local_function f calls m false = Ok r -> step_ok file m r.
Proof.
  intros Hf. induction calls as [|call calls IH]; intros m r; cbn [extract_local_function].
  - intros [= <-]. now left.
  - destruct (f call m) as [[flag m']| | ] eqn:E; try discriminate. cbn [bind].
    apply Hf in E. destruct flag.
    + intros [= <-]. exact E.
    + destruct E as [[_ E] | [E _]]; [|discriminate]. simpl in E. subst m'. apply IH.
Qed.

Lemma extract_data_ok f : searcher_ok file f -> walker_ok file (extract_data f).
Proof.
  intros Hf t. induction t as [calls | entries IH] using calls_tree_ind'; intros m r.
  - destruct calls; simpl; [|discriminate]. intros [= <-]. now left.
  - simpl. revert m. induction IH as [|[elem sub] entries Hsub _ IHe]; intros m.
    + intros [= <-]. now left.
    + simpl in Hsub.
      set (step := if String.eqb elem "local" then _ else _).
      assert (Hstep : forall r', step = Ok r' -> step_ok file m r').
      { subst step. destruct (String.eqb elem "local").
        - apply extract_local_function_ok, Hf.
        - destruct (String.eqb elem "nested"); [|apply Hsub].
          generalize (items sub) as calls. clear IHe.
          induction calls as [|c calls IHc]; intros r'.
          + intros [= <-]. now left.
          + destruct (extract_data f sub m false) as [[flag m']| | ] eqn:E;
              try discriminate. cbn [bind].
            apply Hsub in E. destruct flag.
            * intros [= <-]. exact E.
            * destruct E as [[_ E] | [E _]]; [|discriminate]. simpl in E. subst m'.
              apply IHc. }
      destruct step as [[flag m']| | ]; try discriminate. cbn [bind].
      specialize (Hstep _ eq_refl). destruct flag.
      * intros [= <-]. exact Hstep.
      * destruct Hstep as [[_ E] | [E _]]; [|discriminate]. simpl in E. subst m'.
        apply IHe.
Qed.

Lemma extern_loop_ok w :
  walker_ok file w ->
  forall graph m r, extern_loop w graph m = Ok r -> step_ok file m r.
Proof.
  intros Hw. induction graph as [|[k sub] graph IH]; intros m r; cbn [extern_loop].
  - intros [= <-]. now left.
  - destruct (w sub m false) as [[flag m']| | ] eqn:E; try discriminate. cbn [bind].
    apply Hw in E. destruct flag.
    + intros [= <-]. destruct E as [[E _] | [_ E]]; [discriminate|]. right. auto.
    + destruct E as [[_ E] | [E _]]; [|discriminate]. simpl in E. subst m'. apply IH.
Qed.

Lemma file_in_call_ok remaining base orig_base :
  searcher_ok file (file_in_call call_list remaining base file orig_base).
Proof.
  induction remaining as [|remaining IH]; intros call m r;
    (destruct call as [call|]; [|discriminate]); cbn [file_in_call];
    (destruct (PyStr.str_in base call && (count_occ string_dec m file =? 0)%nat
               && negb (PyStr.str_in orig_base call));
       [intros [= <-]; now right|]);
    (destruct (PyStr.str_in orig_base call); [intros [= <-]; now left|]).
  - intros [= <-]. now left.
  - destruct (getitem (PyStr.split dot call) 0) as [module_base| | ]; try discriminate.
    cbn [bind].
    destruct (find_module_calls call_list module_base) as [[|kv graph]|];
      try (intros [= <-]; now left).
    apply extern_loop_ok, extract_data_ok, IH.
Qed.

Lemma relations_of_file_ok base orig_base :
  forall m_calls m r,
    relations_of_file call_list base file orig_base m_calls m false = Ok r -> step_ok file m r.
Proof.
  induction m_calls as [|[k sub] m_calls IH]; intros m r; cbn [relations_of_file].
  - intros [= <-]. now left.
  - destruct (extract_data (file_in_call call_list 2 base file orig_base) sub m false)
      as [[flag m']| | ] eqn:E; try discriminate. cbn [bind].
    apply (extract_data_ok _ (file_in_call_ok 2 base orig_base)) in E. destruct flag.
    + intros [= <-]. exact E.
    + destruct E as [[_ E] | [E _]]; [|discriminate]. simpl in E. subst m'. apply IH.
Qed.

End OneFile.
End RelationsFacts.

(** X26. [extract_relations] reports at most one file: it returns at the
    first main file found in the calls of the given file, so its result
    is empty or holds a single main file, one whose path is not part of
    the path of the given file. *)
Theorem extract_relations_at_most_one
    (call_list : list (string * list (string * list (string * CallGraph.calls_tree))))
    (stem : string -> string) (file_name : string)
    (m_calls : option (list (string * CallGraph.calls_tree)))
    (main_files m_imports : list string) :
  Relations.extract_relations call_list stem file_name m_calls main_files = Ok m_imports ->
  m_imports = [] \/
  exists file, In file main_files /\ PyStr.str_in file file_name = false /\
               m_imports = [file].
Proof.
  unfold Relations.extract_relations.
  match goal with |- ?f main_files [] = _ -> _ => set (files := f) end.
  assert (H : forall l, (forall x, In x l -> In x main_files) ->
            files l [] = Ok m_imports ->
            m_imports = [] \/
            exists file, In file main_files /\ PyStr.str_in file file_name = false /\
                         m_imports = [file]).
  { induction l as [|file rest IH]; intros Hsub.
    - intros [= <-]. now left.
    - unfold files. fold files.
      destruct (PyStr.str_in file file_name) eqn:Ein; cbn [negb].
      + apply IH. intros x Hx. apply Hsub. now right.
      + destruct m_calls as [graph|]; [|discriminate].
        destruct (Relations.relations_of_file call_list (stem file ++ ".") file
                    (stem file_name ++ ".") graph [] false) as [[flag m']| | ] eqn:E;
          try discriminate. cbn [bind].
        apply RelationsFacts.relations_of_file_ok in E. destruct flag.
        * intros [= <-]. destruct E as [[E _] | [_ E]]; [discriminate|].
          simpl in E. right. exists file. split; [apply Hsub; now left|]. auto.
        * destruct E as [[_ E] | [E _]]; [|discriminate]. simpl in E. subst m'.
          apply IH. intros x Hx. apply Hsub. now right. }
  apply H. auto.
Qed.

Lemma extract_relations_at_most_one_witness :
  Relations.extract_relations [] Relations.sample_stem "/repo/run.py"
    (Some Relations.run_calls) ["/repo/run.py"; "/repo/tools.py"; "/repo/report.py"] =
    Ok ["/repo/tools.py"] /\
  (["/repo/tools.py"] = [] \/
   exists file, In file ["/repo/run.py"; "/repo/tools.py"; "/repo/report.py"] /\
                PyStr.str_in file "/repo/run.py" = false /\
                ["/repo/tools.py"] = [file]).
Proof.
  split; [reflexivity|].
  apply (extract_relations_at_most_one [] Relations.sample_stem "/repo/run.py"
           (Some Relations.run_calls) ["/repo/run.py"; "/repo/tools.py"; "/repo/report.py"]
           ["/repo/tools.py"]).
  reflexivity.
Defined.


(** ** Module-level calls without a name *)

Module BodyFacts.
Import Resolver.

Section WithInspector.
Variable fileNameBase : string.
Variable depInfo : list dep.
Variable str_hasattr : string -> bool.

Lemma rename_calls_none fuel funct_def_info classes_info class_name extend body vars :
  forall call_names renamed_calls r,
    In None call_names ->
    rename_calls fileNameBase depInfo str_hasattr fuel funct_def_info classes_info
      class_name extend body vars call_names renamed_calls <> Ok r.
Proof.
  induction call_names as [|c call_names IH]; intros renamed_calls r Hin; [destruct Hin|].
  cbn [rename_calls]. destruct Hin as [-> | Hin]; [discriminate|].
  destruct (rename_call fileNameBase depInfo str_hasattr fuel funct_def_info classes_info
              class_name extend body vars c renamed_calls) as [rc| | ]; cbn [bind];
    try discriminate.
  now apply IH.
Qed.

Lemma body_expr_calls_keeps (nodes : list stmt) :
  forall acc x, In x acc -> In x (body_expr_calls nodes acc).
Proof.
  induction nodes as [|node nodes IH]; intros acc x Hx; [exact Hx|].
  destruct node; simpl; auto.
  destruct value; simpl; auto. apply IH. apply in_or_app. now left.
Qed.

Lemma body_expr_calls_In (nodes : list stmt) (func : expr) (args : list expr) :
  In (Expr (Call func args)) nodes ->
  forall acc, In (_get_func_name func) (body_expr_calls nodes acc).
Proof.
  induction nodes as [|node nodes IH]; intros Hin acc; [destruct Hin|].
  destruct Hin as [-> | Hin].
  - cbn [body_expr_calls]. apply body_expr_calls_keeps. apply in_or_app. right. now left.
  - destruct node; simpl; auto. destruct value; simpl; auto.
Qed.

End WithInspector.

Lemma inspect_body_not_ok
    (fileNameBase : string) (depInfo : list dep) (str_hasattr : string -> bool)
    (fuel : nat) (tree_body : list stmt) (classesInfo : list (string * class_info))
    (func : expr) (args : list expr) :
  In (Expr (Call func args)) tree_body ->
  _get_func_name func = None ->
  forall body_info,
    inspect_body fileNameBase depInfo str_hasattr fuel tree_body classesInfo
      <> Ok body_info.
Proof.
  intros Hin Hnone body_info. unfold inspect_body.
  destruct (body_assign_calls (filter is_body_node tree_body) [] [])
    as [body_calls body_store_vars].
  unfold _fill_call_name.
  assert (Hcalls : In None (body_expr_calls
                              (filter is_body_node tree_body) body_calls)).
  { rewrite <- Hnone. apply (body_expr_calls_In _ func args).
    apply filter_In. split; [exact Hin | reflexivity]. }
  cbn [calls store_vars_calls].
  match goal with |- context [rename_calls ?a ?b ?c ?d ?e ?f ?g ?h ?i ?j ?k ?l] =>
    pose proof (rename_calls_none a b c d e f g h i j k l) as Hnot;
    destruct (rename_calls a b c d e f g h i j k l) as [rc| | ] end;
    cbn [bind]; try discriminate.
  now destruct (Hnot rc Hcalls).
Qed.

End BodyFacts.

(** X27. Whenever the body of a module holds an expression statement
    that calls something other than a name or an attribute (a subscript,
    the result of a call, a lambda), [inspect_body] returns no record:
    the [None] rendered for the target reaches the resolution of the
    body calls, which raises (or an earlier call has raised). *)
Theorem inspect_body_fails_on_unnamed_call
    (fileNameBase : string) (depInfo : list Resolver.dep) (str_hasattr : string -> bool)
    (fuel : nat) (tree_body : list stmt) (classesInfo : list (string * Resolver.class_info))
    (func : expr) (args : list expr) :
  In (Expr (Call func args)) tree_body ->
  _get_func_name func = None ->
  (exists e, Resolver.inspect_body fileNameBase depInfo str_hasattr fuel tree_body classesInfo
             = Raise e) \/
  Resolver.inspect_body fileNameBase depInfo str_hasattr fuel tree_body classesInfo
    = Unfinished.
Proof.
  intros Hin Hnone.
  pose proof (BodyFacts.inspect_body_not_ok fileNameBase depInfo str_hasattr fuel tree_body
                classesInfo func args Hin Hnone) as Hnot.
  destruct (Resolver.inspect_body fileNameBase depInfo str_hasattr fuel tree_body classesInfo)
    as [body_info|e| ].
  - now destruct (Hnot body_info).
  - left. now exists e.
  - now right.
Qed.

Lemma inspect_body_fails_on_unnamed_call_witness :
  (exists e, Resolver.inspect_body "app" [] (fun _ => false) 1
               [Import; Expr (Call (Name "setup") []);
                Expr (Call (Call (Name "make_app") []) [])] [] = Raise e) \/
  Resolver.inspect_body "app" [] (fun _ => false) 1
    [Import; Expr (Call (Name "setup") []);
     Expr (Call (Call (Name "make_app") []) [])] [] = Unfinished.
Proof.
  apply (inspect_body_fails_on_unnamed_call "app" [] (fun _ => false) 1
           [Import; Expr (Call (Name "setup") []);
            Expr (Call (Call (Name "make_app") []) [])] []
           (Call (Name "make_app") []) []).
  - right. right. now left.
  - reflexivity.
Defined.

(** ** Service records and the software type *)

Module ServiceTypeFacts.
Import Service.

Lemma eqb_service_type (record e : soft_info) :
  soft_info_eqb record e = true -> entry_type e = entry_type record.
Proof.
  unfold soft_info_eqb. intros H. apply andb_true_iff in H as [H _].
  apply String.eqb_eq in H. congruence.
Qed.

Lemma existsb_service (path hs : string) (l : list soft_info) :
  existsb (soft_info_eqb (service_record path hs)) l = true ->
  existsb is_service l = true.
Proof.
  intros H. apply existsb_exists in H as [e [Hin He]].
  apply existsb_exists. exists e. split; [exact Hin|].
  apply eqb_service_type in He. unfold is_service. rewrite He. reflexivity.
Qed.

Lemma find_library_snoc_service (path hs : string) (l : list soft_info) :
  find is_library_or_package (l ++ [service_record path hs]) = find is_library_or_package l.
Proof.
  induction l as [|e l IH]; simpl; [reflexivity|].
  destruct (is_library_or_package e); [reflexivity | exact IH].
Qed.

End ServiceTypeFacts.

(** X28. Once [service_check] has found a service dependency in a file,
    the dominant software type of the resulting list is "service",
    unless the list holds a library or package record, which wins. *)
Theorem service_found_gives_service_type
    (lower : string -> string) (dependencies : list Resolver.dep) (path has_structure : string)
    (software_invocation_info : list soft_info) :
  fst (Service.service_check lower dependencies path software_invocation_info
         has_structure) = true ->
  find is_library_or_package software_invocation_info = None ->
  extract_software_type
    (snd (Service.service_check lower dependencies path software_invocation_info
            has_structure)) = "service".
Proof.
  intros Hflag Hlib.
  destruct (Service.service_check lower dependencies path software_invocation_info
              has_structure) as [flag l'] eqn:E. simpl in Hflag |- *. subst flag.
  apply ServiceFacts.service_check_result in E as [[E _] | [_ ->]]; [discriminate|].
  pose proof (ServiceFacts.added_once path has_structure software_invocation_info) as Hin.
  cbv zeta in Hin.
  unfold extract_software_type. rewrite extract_software_type_loop_spec.
  assert (Hfind : find is_library_or_package
                    (if existsb (Service.soft_info_eqb
                                   (Service.service_record path has_structure))
                          software_invocation_info
                     then software_invocation_info
                     else software_invocation_info ++
                          [Service.service_record path has_structure]) = None).
  { destruct (existsb _ software_invocation_info); [exact Hlib|].
    now rewrite ServiceTypeFacts.find_library_snoc_service. }
  rewrite Hfind. simpl.
  now rewrite (ServiceTypeFacts.existsb_service _ _ _ Hin).
Qed.

Lemma service_found_gives_service_type_witness :
  extract_software_type
    (snd (Service.service_check Service.sample_lower Service.flask_dependencies
            "/repo/app.py"
            [{| entry_type := "script"; entry_rest := [("run", "python /repo/cli.py")] |}]
            "main")) = "service".
Proof.
  apply (service_found_gives_service_type Service.sample_lower Service.flask_dependencies
           "/repo/app.py" "main"
           [{| entry_type := "script"; entry_rest := [("run", "python /repo/cli.py")] |}]);
    reflexivity.
Defined.
